(** * Calendar scheduling core: conflict detection, alternative slots,
      free-time discovery, weekly patterns and event layout.

    Shallow embedding of [src/utils/conflict.utils.ts] and of the parts of
    [src/utils/event.utils.ts] it is used with, followed by the properties
    of the specification that were checked against it; then of further
    functions of [date.utils.ts] and [event.utils.ts] and of the state
    updates of the hooks [useEventManager] and [useCalendar], with
    properties read off the code.

    Modelling conventions.
    - A JavaScript [Date] is its time value: an integer number of
      milliseconds, read in one fixed local frame (no daylight-saving
      jumps), so that local midnight is a multiple of 86 400 000.
    - The functions imported from date-fns are modelled from their
      documented behaviour (date-fns 3 and later): they are total on valid
      dates, and [areIntervalsOverlapping] orders the two ends of each
      interval before comparing.
    - [detectEventConflicts] and [generateAlternativeTimeSlots] call each
      other.  The embedding carries the remaining call depth; [None] is the
      [RangeError] raised by the engine when the call stack is exhausted.
    - Pixel positions and layout percentages are exact rationals, of which
      the JavaScript numbers are the roundings.
    - A JavaScript string is the sequence of its bytes in UTF-8; its
      [length] is counted in UTF-16 code units ([codeUnits]) and white
      space is that of ECMAScript.
    - A [Map] keyed by [toDateString()] is a list of entries in insertion
      order, keyed by the local midnight of the day. *)

From Stdlib Require Import ZArith List String Ascii Bool Lia.
From Stdlib Require Import Permutation Sorted DecimalString QArith.
Import ListNotations.
Open Scope Z_scope.

(* ================================================================== *)
(** ** date-fns *)
(* ================================================================== *)

Module DateFns.

Definition Date := Z.

Definition MS_PER_MINUTE : Z := 60000.
Definition MS_PER_HOUR : Z := 3600000.
Definition MS_PER_DAY : Z := 86400000.

(** [startOfDay(date)]: local midnight of the day of [date]. *)
Definition startOfDay (d : Date) : Date := d - d mod MS_PER_DAY.

(** [endOfDay(date)]: 23:59:59.999 of the day of [date]. *)
Definition endOfDay (d : Date) : Date := startOfDay d + MS_PER_DAY - 1.

(** [date.setHours(h, 0, 0, 0)]: the same day at [h]:00:00.000. *)
Definition setHours (d : Date) (h : Z) : Date := startOfDay d + h * MS_PER_HOUR.

Definition getHours (d : Date) : Z := (d mod MS_PER_DAY) / MS_PER_HOUR.
Definition getMinutes (d : Date) : Z := (d mod MS_PER_HOUR) / MS_PER_MINUTE.

(** [getDay]: 0 is Sunday; day 0 of the time line (1 January 1970) was a
    Thursday. *)
Definition getDay (d : Date) : Z := (d / MS_PER_DAY + 4) mod 7.

Definition addMinutes (d : Date) (amount : Z) : Date := d + amount * MS_PER_MINUTE.
Definition addDays (d : Date) (amount : Z) : Date := d + amount * MS_PER_DAY.

(** [differenceInMinutes(later, earlier)]: whole minutes, truncated towards
    zero. *)
Definition differenceInMinutes (later earlier : Date) : Z :=
  Z.quot (later - earlier) MS_PER_MINUTE.

Definition isSameDay (a b : Date) : bool := startOfDay a =? startOfDay b.

(** [areIntervalsOverlapping(left, right, { inclusive: false })]. *)
Definition areIntervalsOverlapping (ls le rs re : Date) : bool :=
  (Z.min ls le <? Z.max rs re) && (Z.min rs re <? Z.max ls le).

(** [startOfWeek(date, { weekStartsOn })]. *)
Definition startOfWeek (d : Date) (weekStartsOn : Z) : Date :=
  let day := getDay d in
  let diff := (if day <? weekStartsOn then 7 else 0) + day - weekStartsOn in
  startOfDay (addDays d (- diff)).

(** [endOfWeek(date, { weekStartsOn })]. *)
Definition endOfWeek (d : Date) (weekStartsOn : Z) : Date :=
  let day := getDay d in
  let diff := (if day <? weekStartsOn then -7 else 0) + 6 - (day - weekStartsOn) in
  endOfDay (addDays d diff).

(** The loop of [eachDayOfInterval]: push the current day while it is not
    after the end; [n] bounds the number of iterations. *)
Fixpoint eachDayLoop (n : nat) (currentDate endTime : Date) : list Date :=
  match n with
  | O => []
  | S n' =>
      if currentDate <=? endTime
      then currentDate :: eachDayLoop n' (startOfDay (addDays currentDate 1)) endTime
      else []
  end.

(** [eachDayOfInterval({ start, end })] for [start <= end]. *)
Definition eachDayOfInterval (start end_ : Date) : list Date :=
  let first := startOfDay start in
  eachDayLoop (Z.to_nat ((end_ - first) / MS_PER_DAY + 1)) first end_.

Definition decimal (n : Z) : string := NilZero.string_of_uint (N.to_uint (Z.to_N n)).

(** [format(date, 'h:mm a')]: 12-hour clock, two-digit minutes, AM or PM. *)
Definition format_h_mm_a (d : Date) : string :=
  let hours := getHours d in
  let h12 := if hours mod 12 =? 0 then 12 else hours mod 12 in
  let minutes := getMinutes d in
  let pad := if minutes <? 10 then "0"%string else EmptyString in
  let meridiem := if hours <? 12 then "AM"%string else "PM"%string in
  (decimal h12 ++ ":" ++ pad ++ decimal minutes ++ " " ++ meridiem)%string.

End DateFns.

Import DateFns.

(* ================================================================== *)
(** ** Data model *)
(* ================================================================== *)

(** [Omit<CalendarEvent, 'id'>]. *)
Record EventFields : Type := mkFields {
  title : string;
  description : option string;
  startDate : Date;
  endDate : Date;
  color : string;
  category : string
}.

(** [CalendarEvent]. *)
Record CalendarEvent : Type := mkEvent {
  id : string;
  fields :> EventFields
}.

Record ConflictInfo : Type := mkConflictInfo {
  hasConflict : bool;
  conflictingEvents : list CalendarEvent;
  conflictMessage : string;
  suggestedTimes : list Date
}.

Inductive TimeOfDay : Type := morning | afternoon | evening.

Record FreeTimeSlot : Type := mkSlot {
  slotStart : Date;
  slotEnd : Date;
  duration : Z;
  slotType : TimeOfDay
}.

Record FreeTimeFinderResult : Type := mkResult {
  longestFreeBlock : option FreeTimeSlot;
  nextAvailableHour : option FreeTimeSlot;
  recurringWeeklyPattern : list FreeTimeSlot;
  allFreeSlots : list FreeTimeSlot
}.

(* ================================================================== *)
(** ** conflict.utils.ts: conflicts and alternative slots *)
(* ================================================================== *)

Definition quote : string := String (ascii_of_nat 34) EmptyString.

(** The en dash between the two times of a range (U+2013, in UTF-8). *)
Definition enDash : string :=
  String (ascii_of_nat 226) (String (ascii_of_nat 128)
    (String (ascii_of_nat 147) EmptyString)).

(** [excludeEventId && event.id === excludeEventId]: an absent or empty
    [excludeEventId] is falsy and excludes nothing. *)
Definition isExcluded (excludeEventId : option string) (event : CalendarEvent) : bool :=
  match excludeEventId with
  | Some x => negb (x =? EmptyString)%string && (id event =? x)%string
  | None => false
  end.

(** The predicate given to [existingEvents.filter]. *)
Definition conflictsWith (newEvent : EventFields) (excludeEventId : option string)
    (event : CalendarEvent) : bool :=
  if isExcluded excludeEventId event then false
  else areIntervalsOverlapping (startDate newEvent) (endDate newEvent)
         (startDate event) (endDate event).

Definition timeRange (e : CalendarEvent) : string :=
  (format_h_mm_a (startDate e) ++ enDash ++ format_h_mm_a (endDate e))%string.

Definition singleConflictMessage (first : CalendarEvent) : string :=
  ("You already have " ++ quote ++ title first ++ quote ++ " from "
     ++ timeRange first)%string.

Definition multiConflictMessage (count : nat) (first : CalendarEvent) : string :=
  ("You have " ++ decimal (Z.of_nat count) ++ " conflicting events starting with "
     ++ quote ++ title first ++ quote ++ " at " ++ timeRange first)%string.

Definition buildConflictMessage (conflicting : list CalendarEvent) : string :=
  match conflicting with
  | [] => EmptyString
  | firstConflict :: _ =>
      if (List.length conflicting =? 1)%nat
      then singleConflictMessage firstConflict
      else multiConflictMessage (List.length conflicting) firstConflict
  end.

Definition businessStartOf (d : Date) : Date := setHours (startOfDay d) 8.
Definition businessEndOf (d : Date) : Date := setHours (startOfDay d) 18.

(** The body of [generateAlternativeTimeSlots], over the conflict detector
    it calls back. *)
Section AlternativeSlots.

Variable detect :
  EventFields -> list CalendarEvent -> option string -> option ConflictInfo.
Variable newEvent : EventFields.
Variable existingEvents : list CalendarEvent.
Variable excludeEventId : option string.

Definition eventDurationOf : Z :=
  differenceInMinutes (endDate newEvent) (startDate newEvent).

Definition testEventAt (currentSlot slotEnd : Date) : EventFields :=
  {| title := title newEvent; description := description newEvent;
     startDate := currentSlot; endDate := slotEnd;
     color := color newEvent; category := category newEvent |}.

(** The [while (currentSlot < businessEnd)] loop.  [n] bounds the number
    of iterations; the loop variable advances by 30 minutes, so the
    guard fails after 20 of them (see [scanSlots_guard_exit]). *)
Fixpoint scanSlots (n : nat) (currentSlot : Date) (suggestions : list Date)
    : option (list Date) :=
  let businessEnd := businessEndOf (startDate newEvent) in
  match n with
  | O => Some suggestions
  | S n' =>
      if currentSlot <? businessEnd then
        let slotEnd := addMinutes currentSlot eventDurationOf in
        if slotEnd <=? businessEnd then
          match detect (testEventAt currentSlot slotEnd) existingEvents
                  excludeEventId with
          | None => None
          | Some conflicts =>
              if negb (hasConflict conflicts) then
                let suggestions' := suggestions ++ [currentSlot] in
                if (3 <=? List.length suggestions')%nat then Some suggestions'
                else scanSlots n' (addMinutes currentSlot 30) suggestions'
              else scanSlots n' (addMinutes currentSlot 30) suggestions
          end
        else scanSlots n' (addMinutes currentSlot 30) suggestions
      else Some suggestions
  end.

Definition scanBound : nat := 20.

Definition generateWith : option (list Date) :=
  scanSlots scanBound (businessStartOf (startDate newEvent)) [].

End AlternativeSlots.

(** [detectEventConflicts(newEvent, existingEvents, excludeEventId)], with
    [depth] calls left on the stack. *)
Fixpoint detectEventConflicts (depth : nat) (newEvent : EventFields)
    (existingEvents : list CalendarEvent) (excludeEventId : option string)
    : option ConflictInfo :=
  match depth with
  | O => None
  | S depth' =>
      let conflicting := filter (conflictsWith newEvent excludeEventId) existingEvents in
      let has := (0 <? List.length conflicting)%nat in
      let message := if has then buildConflictMessage conflicting else EmptyString in
      match (if has
             then generateWith (detectEventConflicts depth') newEvent
                    existingEvents excludeEventId
             else Some []) with
      | None => None
      | Some suggested =>
          Some {| hasConflict := has; conflictingEvents := conflicting;
                  conflictMessage := message; suggestedTimes := suggested |}
      end
  end.

(** [generateAlternativeTimeSlots(newEvent, existingEvents, excludeEventId)],
    with [depth] calls left on the stack for the detector it calls. *)
Definition generateAlternativeTimeSlots (depth : nat) (newEvent : EventFields)
    (existingEvents : list CalendarEvent) (excludeEventId : option string)
    : option (list Date) :=
  generateWith (detectEventConflicts depth) newEvent existingEvents excludeEventId.

(* ================================================================== *)
(** ** conflict.utils.ts: free time *)
(* ================================================================== *)

Definition getTimeOfDayType (time : Date) : TimeOfDay :=
  let hour := getHours time in
  if hour <? 12 then morning
  else if hour <? 17 then afternoon
  else evening.

(** [[...events].sort((a, b) => a.startDate.getTime() - b.startDate.getTime())]:
    the sort is stable, so its result is that of a stable insertion sort. *)
Fixpoint insertByStart (e : CalendarEvent) (l : list CalendarEvent)
    : list CalendarEvent :=
  match l with
  | [] => [e]
  | x :: rest =>
      if startDate e <=? startDate x then e :: l
      else x :: insertByStart e rest
  end.

Definition sortEventsByStartTime (events : list CalendarEvent) : list CalendarEvent :=
  fold_right insertByStart [] events.

Section FreeTime.

Variable businessStart businessEnd : Date.
Variable minDuration : Z.

(** [eventStart] and [eventEnd] of the loop body. *)
Definition clampedStart (event : CalendarEvent) : Date :=
  if startDate event <? businessStart then businessStart else startDate event.

Definition clampedEnd (event : CalendarEvent) : Date :=
  if businessEnd <? endDate event then businessEnd else endDate event.

(** [if (from < to) { duration = ...; if (duration >= minDuration) push }]. *)
Definition pushGap (from to : Date) (freeSlots : list FreeTimeSlot)
    : list FreeTimeSlot :=
  if from <? to then
    let duration := differenceInMinutes to from in
    if minDuration <=? duration
    then freeSlots ++ [mkSlot from to duration (getTimeOfDayType from)]
    else freeSlots
  else freeSlots.

(** One iteration of [for (const event of dayEvents)], on the pair
    [(freeSlots, currentTime)]. *)
Definition gapStep (st : list FreeTimeSlot * Date) (event : CalendarEvent)
    : list FreeTimeSlot * Date :=
  let '(freeSlots, currentTime) := st in
  let eventStart := clampedStart event in
  let eventEnd := clampedEnd event in
  (pushGap currentTime eventStart freeSlots,
   if currentTime <? eventEnd then eventEnd else currentTime).

Definition collectFreeSlots (dayEvents : list CalendarEvent) : list FreeTimeSlot :=
  let '(freeSlots, currentTime) := fold_left gapStep dayEvents ([], businessStart) in
  pushGap currentTime businessEnd freeSlots.

End FreeTime.

Section FreeTimeRecursion.

Variable businessStart businessEnd : Date.
Variable minDuration : Z.

Definition nextCursor (currentTime : Date) (event : CalendarEvent) : Date :=
if currentTime <? clampedEnd businessEnd event
then clampedEnd businessEnd event else currentTime.

(** The slots pushed from the cursor [currentTime] on, written by
  recursion on the events still to visit. *)
Fixpoint gapsFrom (currentTime : Date) (dayEvents : list CalendarEvent)
  : list FreeTimeSlot :=
match dayEvents with
| [] => pushGap minDuration currentTime businessEnd []
| event :: rest =>
    pushGap minDuration currentTime (clampedStart businessStart event) []
    ++ gapsFrom (nextCursor currentTime event) rest
end.

End FreeTimeRecursion.

(** The reducer of [freeSlots.reduce(..., null)]. *)
Definition longerOf (longest : option FreeTimeSlot) (current : FreeTimeSlot)
    : option FreeTimeSlot :=
  match longest with
  | None => Some current
  | Some l => if duration l <? duration current then Some current else Some l
  end.

Record TimeSlotProbe : Type := mkProbe {
  probeStart : Z;
  probeEnd : Z;
  probeLabel : string
}.

Definition timeSlots : list TimeSlotProbe :=
  [ mkProbe 9 10 "9-10 AM"; mkProbe 10 11 "10-11 AM"; mkProbe 11 12 "11 AM-12 PM";
    mkProbe 14 15 "2-3 PM"; mkProbe 15 16 "3-4 PM"; mkProbe 16 17 "4-5 PM" ].

(** [events.some(event => areIntervalsOverlapping(slot, event))]. *)
Definition probeHasConflict (events : list CalendarEvent) (slotStart slotEnd : Date)
    : bool :=
  existsb (fun event : CalendarEvent =>
    areIntervalsOverlapping slotStart slotEnd (startDate event) (endDate event)) events.

(** One iteration of [for (const day of weekDays)], on the pair
    [(availableDays, sampleSlot)]. *)
Definition weekDayStep (events : list CalendarEvent) (timeSlot : TimeSlotProbe)
    (st : nat * option FreeTimeSlot) (day : Date) : nat * option FreeTimeSlot :=
  let '(availableDays, sampleSlot) := st in
  let slotStart := setHours day (probeStart timeSlot) in
  let slotEnd := setHours day (probeEnd timeSlot) in
  if negb (probeHasConflict events slotStart slotEnd) then
    (S availableDays,
     match sampleSlot with
     | None => Some (mkSlot slotStart slotEnd 60 (getTimeOfDayType slotStart))
     | Some s => Some s
     end)
  else (availableDays, sampleSlot).

(** One iteration of [for (const timeSlot of timeSlots)]. *)
Definition probeStep (events : list CalendarEvent) (weekDays : list Date)
    (recurringSlots : list FreeTimeSlot) (timeSlot : TimeSlotProbe)
    : list FreeTimeSlot :=
  let '(availableDays, sampleSlot) :=
    fold_left (weekDayStep events timeSlot) weekDays (O, None) in
  match sampleSlot with
  | Some s => if (4 <=? availableDays)%nat then recurringSlots ++ [s] else recurringSlots
  | None => recurringSlots
  end.

Definition weekDaysOf (referenceDate : Date) : list Date :=
  eachDayOfInterval (startOfWeek referenceDate 1) (endOfWeek referenceDate 1).

Definition findRecurringWeeklyPattern (events : list CalendarEvent)
    (referenceDate : Date) : list FreeTimeSlot :=
  fold_left (probeStep events (weekDaysOf referenceDate)) timeSlots [].

Definition findFreeTimeSlots (events : list CalendarEvent) (targetDate : Date)
    (minDuration : Z) : FreeTimeFinderResult :=
  let dayStart := startOfDay targetDate in
  let businessStart := setHours dayStart 8 in
  let businessEnd := setHours dayStart 18 in
  let dayEvents :=
    sortEventsByStartTime
      (filter (fun event : CalendarEvent => isSameDay (startDate event) targetDate) events) in
  let freeSlots := collectFreeSlots businessStart businessEnd minDuration dayEvents in
  {| longestFreeBlock := fold_left longerOf freeSlots None;
     nextAvailableHour := find (fun slot => 60 <=? duration slot) freeSlots;
     recurringWeeklyPattern := findRecurringWeeklyPattern events targetDate;
     allFreeSlots := freeSlots |}.

(** The default value of the [minDuration] parameter. *)
Definition defaultMinDuration : Z := 60.

(* ================================================================== *)
(** ** event.utils.ts: layout and validation *)
(* ================================================================== *)

Record LayoutEvent : Type := mkLayout {
  layoutEvent : CalendarEvent;
  width : Q;
  left : Q
}.

Fixpoint lastOf (column : list CalendarEvent) : option CalendarEvent :=
  match column with
  | [] => None
  | [e] => Some e
  | _ :: rest => lastOf rest
  end.

(** [!lastEventInColumn || event.startDate >= lastEventInColumn.endDate]. *)
Definition fitsColumn (event : CalendarEvent) (column : list CalendarEvent) : bool :=
  match lastOf column with
  | None => true
  | Some lastEventInColumn => endDate lastEventInColumn <=? startDate event
  end.

(** The [for] loop over the existing columns: the event goes to the first
    column it fits in; [None] when [placed] stays false. *)
Fixpoint placeInColumn (event : CalendarEvent) (columns : list (list CalendarEvent))
    : option (list (list CalendarEvent)) :=
  match columns with
  | [] => None
  | column :: rest =>
      if fitsColumn event column then Some ((column ++ [event]) :: rest)
      else option_map (cons column) (placeInColumn event rest)
  end.

Definition placeEvent (columns : list (list CalendarEvent)) (event : CalendarEvent)
    : list (list CalendarEvent) :=
  match placeInColumn event columns with
  | Some columns' => columns'
  | None => columns ++ [[event]]
  end.

Definition layoutColumns (events : list CalendarEvent) : list (list CalendarEvent) :=
  fold_left placeEvent (sortEventsByStartTime events) [].

Definition ofNat (n : nat) : Q := inject_Z (Z.of_nat n).

(** [columns.forEach((column, columnIndex) => column.forEach(event => push))].
    JavaScript numbers are doubles; [width] and [left] are kept here as
    the exact quotients the doubles are rounded from. *)
Fixpoint layoutFrom (total : nat) (columnIndex : nat)
    (columns : list (list CalendarEvent)) : list LayoutEvent :=
  match columns with
  | [] => []
  | column :: rest =>
      map (fun event =>
        {| layoutEvent := event;
           width := (100 / ofNat total)%Q;
           left := ((ofNat columnIndex * 100) / ofNat total)%Q |}) column
      ++ layoutFrom total (S columnIndex) rest
  end.

Definition calculateEventLayout (events : list CalendarEvent) : list LayoutEvent :=
  let columns := layoutColumns events in
  layoutFrom (List.length columns) O columns.

(** [Partial<CalendarEvent>]. *)
Record PartialEvent : Type := mkPartial {
  pId : option string;
  pTitle : option string;
  pDescription : option string;
  pStartDate : option Date;
  pEndDate : option Date;
  pColor : option string;
  pCategory : option string
}.

(** A string is kept as its bytes in UTF-8, as the literals of this file
    are.  The [length] of a JavaScript string counts UTF-16 code units: a
    byte that continues a character counts for none, a byte that opens a
    character of four bytes for the two units of its surrogate pair, and
    every other byte for one. *)
Definition codeUnitsOf (c : ascii) : nat :=
  let n := nat_of_ascii c in
  if ((128 <=? n) && (n <=? 191))%nat then 0%nat
  else if (240 <=? n)%nat then 2%nat else 1%nat.

Fixpoint codeUnits (s : string) : nat :=
  match s with
  | String c rest => (codeUnitsOf c + codeUnits rest)%nat
  | EmptyString => 0%nat
  end.

(** The white space that [trim] and [parseInt] strip, which is the
    [WhiteSpace] and the [LineTerminator] of ECMAScript, by its number of
    bytes.  One byte: TAB, LF, VT, FF, CR and SP. *)
Definition isWhiteSpace (c : ascii) : bool :=
  let n := nat_of_ascii c in
  ((9 <=? n) && (n <=? 13) || (n =? 32))%nat.

(** Two bytes: U+00A0. *)
Definition isWhiteSpace2 (a b : ascii) : bool :=
  ((nat_of_ascii a =? 194) && (nat_of_ascii b =? 160))%nat.

(** Three bytes: U+1680, U+2000 to U+200A, U+2028, U+2029, U+202F, U+205F,
    U+3000 and U+FEFF. *)
Definition isWhiteSpace3 (a b c : ascii) : bool :=
  let x := nat_of_ascii a in
  let y := nat_of_ascii b in
  let z := nat_of_ascii c in
  ((x =? 225) && (y =? 154) && (z =? 128)
   || (x =? 226) && (y =? 128)
      && ((128 <=? z) && (z <=? 138) || (z =? 168) || (z =? 169) || (z =? 175))
   || (x =? 226) && (y =? 129) && (z =? 159)
   || (x =? 227) && (y =? 128) && (z =? 128)
   || (x =? 239) && (y =? 187) && (z =? 191))%nat.

(** Dropping, from the start of the string, the characters that [w1],
    [w2] and [w3] recognise by their one, two or three bytes. *)
Fixpoint stripStart (w1 : ascii -> bool) (w2 : ascii -> ascii -> bool)
    (w3 : ascii -> ascii -> ascii -> bool) (s : string) {struct s} : string :=
  match s with
  | String a rest1 =>
      if w1 a then stripStart w1 w2 w3 rest1
      else match rest1 with
           | String b rest2 =>
               if w2 a b then stripStart w1 w2 w3 rest2
               else match rest2 with
                    | String c rest3 =>
                        if w3 a b c then stripStart w1 w2 w3 rest3 else s
                    | EmptyString => s
                    end
           | EmptyString => s
           end
  | EmptyString => EmptyString
  end.

Definition trimStart (s : string) : string :=
  stripStart isWhiteSpace isWhiteSpace2 isWhiteSpace3 s.

Fixpoint revString (s acc : string) : string :=
  match s with
  | String c rest => revString rest (String c acc)
  | EmptyString => acc
  end.

(** [trimStart] on a string read from its end, where the bytes of a
    character come last first. *)
Definition trimStartReversed (s : string) : string :=
  stripStart isWhiteSpace (fun a b => isWhiteSpace2 b a)
    (fun a b c => isWhiteSpace3 c b a) s.

Definition trimEnd (s : string) : string :=
  revString (trimStartReversed (revString s EmptyString)) EmptyString.

(** [String.prototype.trim]. *)
Definition trim (s : string) : string := trimEnd (trimStart s).

Definition pushIf (cond : bool) (message : string) (errors : list string)
    : list string :=
  if cond then errors ++ [message] else errors.

Definition validateEvent (event : PartialEvent) : list string :=
  let errors := [] in
  let errors :=
    pushIf (match pTitle event with
            | Some t => (trim t =? EmptyString)%string
            | None => true
            end) "Title is required" errors in
  let errors :=
    pushIf (match pTitle event with
            | Some t => (100 <? codeUnits t)%nat
            | None => false
            end) "Title must be 100 characters or less" errors in
  let errors :=
    pushIf (match pDescription event with
            | Some d => (500 <? codeUnits d)%nat
            | None => false
            end) "Description must be 500 characters or less" errors in
  let errors :=
    pushIf (match pStartDate event with Some _ => false | None => true end)
      "Start date is required" errors in
  let errors :=
    pushIf (match pEndDate event with Some _ => false | None => true end)
      "End date is required" errors in
  let errors :=
    pushIf (match pStartDate event, pEndDate event with
            | Some s, Some e => e <=? s
            | _, _ => false
            end) "End date must be after start date" errors in
  errors.

(** The candidate of [detectEventConflicts] as the form data given to
    [validateEvent]. *)
Definition asPartial (e : EventFields) : PartialEvent :=
  {| pId := None; pTitle := Some (title e); pDescription := description e;
     pStartDate := Some (startDate e); pEndDate := Some (endDate e);
     pColor := Some (color e); pCategory := Some (category e) |}.

(* ================================================================== *)
(** ** Notions used to state the properties *)
(* ================================================================== *)

(** The [ConflictInfo] built when [generateAlternativeTimeSlots] is not
    called or has returned [suggested]. *)
Definition conflictInfoOf (newEvent : EventFields)
    (existingEvents : list CalendarEvent) (excludeEventId : option string)
    (suggested : list Date) : ConflictInfo :=
  let conflicting := filter (conflictsWith newEvent excludeEventId) existingEvents in
  let has := (0 <? List.length conflicting)%nat in
  {| hasConflict := has; conflictingEvents := conflicting;
     conflictMessage := if has then buildConflictMessage conflicting else EmptyString;
     suggestedTimes := suggested |}.

Definition probeIsFree (newEvent : EventFields)
    (existingEvents : list CalendarEvent) (excludeEventId : option string) : bool :=
  negb (0 <? List.length (filter (conflictsWith newEvent excludeEventId) existingEvents))%nat.

(** The detector as the scan needs it when no call depth is counted: a free
    probe is reported free, a probe in conflict does not return, because
    computing its suggestions runs the same scan again. *)
Definition detectOnce (newEvent : EventFields) (existingEvents : list CalendarEvent)
    (excludeEventId : option string) : option ConflictInfo :=
  if probeIsFree newEvent existingEvents excludeEventId
  then Some (conflictInfoOf newEvent existingEvents excludeEventId [])
  else None.

(** The scan on its own: [None] when it reaches a probe in conflict. *)
Definition scanOnce (newEvent : EventFields) (existingEvents : list CalendarEvent)
    (excludeEventId : option string) : option (list Date) :=
  generateWith detectOnce newEvent existingEvents excludeEventId.

(** Two candidates drive the same scan when they agree on everything but
    the position of their start inside the day. *)
Definition sameScan (a b : EventFields) : Prop :=
  startOfDay (startDate a) = startOfDay (startDate b) /\
  eventDurationOf a = eventDurationOf b /\
  title a = title b /\ description a = description b /\
  color a = color b /\ category a = category b.

Definition THIRTY_MINUTES : Z := 30 * MS_PER_MINUTE.

(** What is expected of a suggested time [t]: it is one of the 20 grid
    points of the business window of the candidate's day, the candidate's
    whole minutes fit before 18:00, and the probe at [t] has no conflict. *)
Definition goodSuggestion (newEvent : EventFields) (evs : list CalendarEvent)
    (excl : option string) (t : Date) : Prop :=
  (exists k, 0 <= k < 20 /\
     t = businessStartOf (startDate newEvent) + k * THIRTY_MINUTES) /\
  addMinutes t (eventDurationOf newEvent) <= businessEndOf (startDate newEvent) /\
  probeIsFree (testEventAt newEvent t (addMinutes t (eventDurationOf newEvent)))
    evs excl = true.

(** The message names the event [e] together with the number of
    conflicts. *)
Definition messageNames (r : ConflictInfo) (e : CalendarEvent) : Prop :=
  conflictMessage r = multiConflictMessage (List.length (conflictingEvents r)) e.

(** As the specification words it: with two or more conflicts, the
    message names a conflicting event with the earliest start. *)
Definition namesEarliestConflict (r : ConflictInfo) : Prop :=
  exists e, In e (conflictingEvents r) /\
    Forall (fun e' : CalendarEvent => startDate e <= startDate e') (conflictingEvents r) /\
    messageNames r e.

Definition byStart (a b : CalendarEvent) : Prop := startDate a <= startDate b.

(** The strict overlap rule of the specification. *)
Definition overlaps (a b : CalendarEvent) : Prop :=
  startDate a < endDate b /\ startDate b < endDate a.

Definition startsNoLater (a b : FreeTimeSlot) : Prop := slotStart a <= slotStart b.

(** Following the specification: the six hourly probes, each by the hour
    it starts at and the hour it ends at. *)
Definition hourlyProbes : list (Z * Z) :=
  [(9, 10); (10, 11); (11, 12); (14, 15); (15, 16); (16, 17)].

(** Following the specification: the probe from [h1]:00 to [h2]:00 of the
    day that starts at [day] is conflict-free when no event overlaps it
    under the strict rule, [probe.start < event.end] and
    [event.start < probe.end]. *)
Definition probeFree (events : list CalendarEvent) (h1 h2 : Z) (day : Date) : bool :=
  forallb (fun e : CalendarEvent =>
             negb ((day + h1 * MS_PER_HOUR <? endDate e)
                   && (startDate e <? day + h2 * MS_PER_HOUR))) events.

(** Following the specification: the time of day of an hour. *)
Definition timeOfDayOf (hour : Z) : TimeOfDay :=
  if hour <? 12 then morning else if hour <? 17 then afternoon else evening.

(** Following the specification: a probe has a slot when it is
    conflict-free on at least 4 days of the week, and the slot is the
    probe on the earliest such day. *)
Definition weeklySlot (events : list CalendarEvent) (week : list Date)
    (probe : Z * Z) : list FreeTimeSlot :=
  let '(h1, h2) := probe in
  let freeDays := filter (probeFree events h1 h2) week in
  match freeDays with
  | day :: _ =>
      if (4 <=? List.length freeDays)%nat
      then [mkSlot (day + h1 * MS_PER_HOUR) (day + h2 * MS_PER_HOUR) 60
              (timeOfDayOf h1)]
      else []
  | [] => []
  end.

(** The slot of probe [p] on the day starting at [day]. *)
Definition probeSlot (p : TimeSlotProbe) (day : Date) : FreeTimeSlot :=
  mkSlot (setHours day (probeStart p)) (setHours day (probeEnd p)) 60
    (getTimeOfDayType (setHours day (probeStart p))).

(** Following the specification: the days, among [days], on which probe
    [p] conflicts with no event. *)
Definition conflictFreeDays (events : list CalendarEvent) (days : list Date)
    (p : TimeSlotProbe) : list Date :=
  filter (fun day =>
    negb (probeHasConflict events (setHours day (probeStart p))
            (setHours day (probeEnd p)))) days.

(** Following the specification: a probe qualifies when it is free on at
    least 4 of the days, and is then represented by its slot on the first
    free day. *)
Definition patternOf (events : list CalendarEvent) (days : list Date)
    (p : TimeSlotProbe) : list FreeTimeSlot :=
  if (4 <=? List.length (conflictFreeDays events days p))%nat
  then match conflictFreeDays events days p with
       | day :: _ => [probeSlot p day]
       | [] => []
       end
  else [].

(** The Monday, at midnight, of the week of [referenceDate]. *)
Definition mondayOf (referenceDate : Date) : Date :=
  startOfDay referenceDate - ((getDay referenceDate + 6) mod 7) * MS_PER_DAY.

Definition mondayToSunday (referenceDate : Date) : list Date :=
  map (fun i => mondayOf referenceDate + i * MS_PER_DAY) [0; 1; 2; 3; 4; 5; 6].

Definition endsAfterStart (e : CalendarEvent) : Prop := startDate e <= endDate e.

Definition inSlot (t : Date) (s : FreeTimeSlot) : Prop :=
  slotStart s <= t < slotEnd s.

Definition slotBefore (a b : FreeTimeSlot) : Prop := slotEnd a <= slotStart b.

Section BusinessWindow.

Variable businessStart businessEnd : Date.
Variable minDuration : Z.

(** The event, clamped to the business window, holds the instant [t]. *)
Definition inEvent (t : Date) (e : CalendarEvent) : Prop :=
  clampedStart businessStart e <= t < clampedEnd businessEnd e.

(** The event does not end before it starts and does not start after the
    end of the business window. *)
Definition wellPlaced (e : CalendarEvent) : Prop :=
  startDate e <= endDate e /\ startDate e <= businessEnd.

(** [t] lies in a gap between events (or the ends of the window) that no
    event meets and that is shorter than [minDuration] minutes. *)
Definition inShortGap (dayEvents : list CalendarEvent) (t : Date) : Prop :=
  exists a b,
    a <= t < b /\ businessStart <= a /\ b <= businessEnd /\
    differenceInMinutes b a < minDuration /\
    (a = businessStart \/ exists e, In e dayEvents /\ clampedEnd businessEnd e = a) /\
    (b = businessEnd \/ exists e, In e dayEvents /\ clampedStart businessStart e = b) /\
    forall u e, a <= u < b -> In e dayEvents -> ~ inEvent u e.

Definition goodSlot (c : Date) (s : FreeTimeSlot) : Prop :=
  c <= slotStart s /\ slotStart s < slotEnd s /\ slotEnd s <= businessEnd /\
  minDuration <= duration s /\
  duration s = differenceInMinutes (slotEnd s) (slotStart s).

End BusinessWindow.

(** The number of free slots and of clamped events of the day that hold
    the instant [t]. *)
Definition coverCount (events : list CalendarEvent) (targetDate : Date)
    (minDuration : Z) (t : Date) : nat :=
  let businessStart := businessStartOf targetDate in
  let businessEnd := businessEndOf targetDate in
  List.length
    (filter (fun s => (slotStart s <=? t) && (t <? slotEnd s))
       (allFreeSlots (findFreeTimeSlots events targetDate minDuration)))
  + List.length
      (filter (fun e : CalendarEvent =>
                 isSameDay (startDate e) targetDate &&
                 (clampedStart businessStart e <=? t) &&
                 (t <? clampedEnd businessEnd e)) events).

(** As the specification words it: the slots do not overlap, lie in the
    business window, and together with the clamped events hold every
    instant of the window exactly once. *)
Definition partitionsBusinessWindow (events : list CalendarEvent)
    (targetDate : Date) (minDuration : Z) : Prop :=
  let businessStart := businessStartOf targetDate in
  let businessEnd := businessEndOf targetDate in
  let slots := allFreeSlots (findFreeTimeSlots events targetDate minDuration) in
  ForallOrdPairs (fun a b => slotEnd a <= slotStart b \/ slotEnd b <= slotStart a) slots /\
  Forall (fun s => businessStart <= slotStart s /\ slotEnd s <= businessEnd) slots /\
  forall t, businessStart <= t < businessEnd ->
    coverCount events targetDate minDuration t = 1%nat.

(* ================================================================== *)
(** ** Concrete scenarios *)
(* ================================================================== *)

Module Scenario.

(** [atTime day h m]: [h]:[m] on the day numbered [day]. *)
Definition atTime (day h m : Z) : Date :=
  day * MS_PER_DAY + h * MS_PER_HOUR + m * MS_PER_MINUTE.

(** Friday 4 October 2024. *)
Definition friday : Z := 20000.

Definition event (i t : string) (s e : Date) : CalendarEvent :=
  mkEvent i (mkFields t None s e "#3b82f6" "Other").

Definition candidate (t : string) (s e : Date) : EventFields :=
  mkFields t None s e "#3b82f6" "Other".

(** The scenario of the specification: a stand-up from 09:00 to 10:00 and
    a client call from 09:30 to 10:30. *)
Definition standup : CalendarEvent :=
  event "1" "Standup" (atTime friday 9 0) (atTime friday 10 0).
Definition clientCall : EventFields :=
  candidate "Client Call" (atTime friday 9 30) (atTime friday 10 30).

(** Two events around 12:30, listed latest first, and a candidate that
    overlaps both. *)
Definition lateFirst : list CalendarEvent :=
  [ event "b" "B" (atTime friday 12 30) (atTime friday 13 0);
    event "a" "A" (atTime friday 12 0) (atTime friday 12 30) ].
Definition noonCandidate : EventFields :=
  candidate "X" (atTime friday 12 15) (atTime friday 12 45).

(** The scenario of the specification for free time: a single event from
    12:00 to 13:30. *)
Definition lunch : CalendarEvent :=
  event "1" "Lunch" (atTime friday 12 0) (atTime friday 13 30).

(** The scenario of the specification for the layout: three events that
    overlap one another, starting at 10:00, 10:30 and 10:45. *)
Definition threeOverlapping : list CalendarEvent :=
  [ event "1" "First" (atTime friday 10 0) (atTime friday 11 0);
    event "2" "Second" (atTime friday 10 30) (atTime friday 11 30);
    event "3" "Third" (atTime friday 10 45) (atTime friday 11 15) ].

(** An event from 08:30 to the end of the business window. *)
Definition workshop : CalendarEvent :=
  event "1" "Workshop" (atTime friday 8 30) (atTime friday 18 0).

(** An entry that ends an hour before it starts, and a meeting with the
    same start. *)
Definition inverted : CalendarEvent :=
  event "1" "Inverted" (atTime friday 10 0) (atTime friday 9 0).
Definition meeting : CalendarEvent :=
  event "2" "Meeting" (atTime friday 10 0) (atTime friday 11 0).

(** An event over the whole week of that Friday, Monday to Monday: it is
    in conflict with every weekly probe and does not start on the Friday. *)
Definition weekLong : CalendarEvent :=
  event "0" "Conference" (atTime (friday - 4) 0 0) (atTime (friday + 3) 0 0).

Definition midnight : Date := atTime friday 0 0.

End Scenario.

(* ================================================================== *)
(** ** date.utils.ts *)
(* ================================================================== *)

(** date-fns [isBefore], [isAfter] and [isWithinInterval]; the latter
    orders the two ends of the interval before comparing. *)
Definition isBefore (a b : Date) : bool := a <? b.
Definition isAfter (a b : Date) : bool := b <? a.
Definition isWithinInterval (d start end_ : Date) : bool :=
  (Z.min start end_ <=? d) && (d <=? Z.max start end_).

Definition getWeekDays (date : Date) : list Date :=
  eachDayOfInterval (startOfWeek date 0) (endOfWeek date 0).

Definition isEventInDateRange (event : EventFields) (rangeStart rangeEnd : Date)
    : bool :=
  isWithinInterval (startDate event) rangeStart rangeEnd
  || isWithinInterval (endDate event) rangeStart rangeEnd
  || (isBefore (startDate event) rangeStart && isAfter (endDate event) rangeEnd).

(** [clampDate(date, min?, max?)]; a [Date] object is always truthy. *)
Definition clampDate (date : Date) (min max : option Date) : Date :=
  match min with
  | Some lo => if isBefore date lo then lo else
      match max with
      | Some hi => if isAfter date hi then hi else date
      | None => date
      end
  | None =>
      match max with
      | Some hi => if isAfter date hi then hi else date
      | None => date
      end
  end.

Record Position : Type := mkPosition { top : Q; height : Q }.

(** [getEventPosition(startDate, endDate, dayStart, slotHeight,
    intervalMinutes)]; the quotients are kept exact. *)
Definition getEventPosition (start end_ dayStart : Date)
    (slotHeight intervalMinutes : Q) : Position :=
  let dayStartTime := startOfDay dayStart in
  let dayEndTime := endOfDay dayStart in
  let eventStart := if isBefore start dayStartTime then dayStartTime else start in
  let eventEnd := if isAfter end_ dayEndTime then dayEndTime else end_ in
  let startMinutes := differenceInMinutes eventStart dayStartTime in
  let durationMinutes := differenceInMinutes eventEnd eventStart in
  let scaled := ((inject_Z durationMinutes / intervalMinutes) * slotHeight)%Q in
  {| top := ((inject_Z startMinutes / intervalMinutes) * slotHeight)%Q;
     height := if Qle_bool 20 scaled then scaled else 20%Q |}.

(** [String.prototype.split] on a single character. *)
Fixpoint splitOn (sep : ascii) (s : string) : list string :=
  match s with
  | EmptyString => [EmptyString]
  | String c rest =>
      if Ascii.eqb c sep then EmptyString :: splitOn sep rest
      else match splitOn sep rest with
           | first :: others => String c first :: others
           | [] => [String c EmptyString]
           end
  end.

Definition digitValue (c : ascii) : option Z :=
  let n := nat_of_ascii c in
  if ((48 <=? n) && (n <=? 57))%nat then Some (Z.of_nat (n - 48)) else None.

(** The digits read by [parseInt], most significant first; [seen] tells
    whether a digit was read. *)
Fixpoint readDigits (s : string) (acc : Z) (seen : bool) : option Z :=
  match s with
  | EmptyString => if seen then Some acc else None
  | String c rest =>
      match digitValue c with
      | Some d => readDigits rest (10 * acc + d) true
      | None => if seen then Some acc else None
      end
  end.

(** [parseInt(s, 10)]: leading white space, an optional sign, then the
    longest run of digits; [None] is [NaN]. *)
Definition parseInt10 (s : string) : option Z :=
  match trimStart s with
  | String "-" rest => option_map Z.opp (readDigits rest 0 false)
  | String "+" rest => readDigits rest 0 false
  | other => readDigits other 0 false
  end.

(** [x || '0'] on a split part: an absent or empty part is falsy. *)
Definition partOrZero (part : option string) : string :=
  match part with
  | Some (String c rest) => String c rest
  | _ => "0"%string
  end.

(** [createDateFromTimeString(date, timeString)]; [None] is the invalid
    date that [setHours] leaves when given [NaN]. *)
Definition createDateFromTimeString (date : Date) (timeString : string)
    : option Date :=
  let timeParts := splitOn ":" timeString in
  match parseInt10 (partOrZero (nth_error timeParts 0)),
        parseInt10 (partOrZero (nth_error timeParts 1)) with
  | Some hours, Some minutes =>
      Some (startOfDay date + hours * MS_PER_HOUR + minutes * MS_PER_MINUTE)
  | _, _ => None
  end.

Definition twoDigits (n : Z) : string :=
  let pad := if n <? 10 then "0"%string else EmptyString in
  (pad ++ decimal n)%string.

(** [format(date, 'HH:mm')]. *)
Definition format_HH_mm (d : Date) : string :=
  (twoDigits (getHours d) ++ ":" ++ twoDigits (getMinutes d))%string.

(** [getTimeSlots(intervalMinutes)], for an interval that divides 60, where
    the bound [24 * (60 / intervalMinutes)] of the loop is a whole number;
    [now] is the time of the call. *)
Definition getTimeSlots (now : Date) (intervalMinutes : Z) : list string :=
  let startTime := startOfDay now in
  map (fun i => format_HH_mm (addMinutes startTime (i * intervalMinutes)))
      (map Z.of_nat (seq 0 (Z.to_nat (24 * (60 / intervalMinutes))))).

(* ================================================================== *)
(** ** event.utils.ts: filters and event construction *)
(* ================================================================== *)

Definition filterEventsByDateRange (events : list CalendarEvent)
    (rangeStart rangeEnd : Date) : list CalendarEvent :=
  filter (fun event : CalendarEvent => isEventInDateRange event rangeStart rangeEnd)
    events.

Definition filterEventsByDate (events : list CalendarEvent) (date : Date)
    : list CalendarEvent :=
  filterEventsByDateRange events (startOfDay date) (endOfDay date).

Definition getOverlappingEvents (events : list CalendarEvent)
    (targetEvent : CalendarEvent) : list CalendarEvent :=
  filter (fun event : CalendarEvent =>
    if (id event =? id targetEvent)%string then false
    else
      ((startDate event <=? startDate targetEvent)
         && (startDate targetEvent <? endDate event))
      || ((startDate event <? endDate targetEvent)
            && (endDate targetEvent <=? endDate event))
      || ((startDate targetEvent <=? startDate event)
            && (endDate event <=? endDate targetEvent))) events.

(** [x || fallback] on strings: the empty string is falsy. *)
Definition orElse (x fallback : string) : string :=
  match x with
  | EmptyString => fallback
  | _ => x
  end.

(** [createEvent(data)]; [generated] is the value of [generateEventId()],
    used when [data.id] is absent or empty. *)
Definition createEvent (generated : string) (dataId : option string)
    (data : EventFields) : CalendarEvent :=
  {| id := match dataId with Some i => orElse i generated | None => generated end;
     fields :=
       {| title := trim (title data);
          description := option_map trim (description data);
          startDate := startDate data;
          endDate := endDate data;
          color := orElse (color data) "#3b82f6";
          category := orElse (category data) "Other" |} |}.

Definition overrideWith {A} (update : option A) (current : A) : A :=
  match update with
  | Some v => v
  | None => current
  end.

(** [updateEvent(event, updates)]. *)
Definition updateEvent (event : CalendarEvent) (updates : PartialEvent)
    : CalendarEvent :=
  {| id := overrideWith (pId updates) (id event);
     fields :=
       {| title := match pTitle updates with
                   | Some t => orElse (trim t) (title event)
                   | None => title event
                   end;
          description := match pDescription updates with
                         | Some d => Some (trim d)
                         | None => description event
                         end;
          startDate := overrideWith (pStartDate updates) (startDate event);
          endDate := overrideWith (pEndDate updates) (endDate event);
          color := overrideWith (pColor updates) (color event);
          category := overrideWith (pCategory updates) (category event) |} |}.

(** [{ ...currentEvent, ...updates }], as given to [validateEvent]. *)
Definition mergeUpdates (event : CalendarEvent) (updates : PartialEvent)
    : PartialEvent :=
  {| pId := Some (overrideWith (pId updates) (id event));
     pTitle := Some (overrideWith (pTitle updates) (title event));
     pDescription := match pDescription updates with
                     | Some d => Some d
                     | None => description event
                     end;
     pStartDate := Some (overrideWith (pStartDate updates) (startDate event));
     pEndDate := Some (overrideWith (pEndDate updates) (endDate event));
     pColor := Some (overrideWith (pColor updates) (color event));
     pCategory := Some (overrideWith (pCategory updates) (category event)) |}.

(** A [Map] in its insertion order.  The key [toDateString()] of a date
    names its local day; it is kept as the midnight of that day. *)
Definition DayMap : Type := list (Date * list CalendarEvent).

Definition toDateString (d : Date) : Date := startOfDay d.

Fixpoint mapGet (key : Date) (m : DayMap) : option (list CalendarEvent) :=
  match m with
  | [] => None
  | (k, v) :: rest => if k =? key then Some v else mapGet key rest
  end.

Fixpoint mapSet (key : Date) (value : list CalendarEvent) (m : DayMap) : DayMap :=
  match m with
  | [] => [(key, value)]
  | (k, v) :: rest =>
      if k =? key then (k, value) :: rest else (k, v) :: mapSet key value rest
  end.

(** One iteration of the first [forEach] of [groupEventsByDate]. *)
Definition groupStep (grouped : DayMap) (event : CalendarEvent) : DayMap :=
  let dateKey := toDateString (startDate event) in
  let existing := match mapGet dateKey grouped with
                  | Some dayEvents => dayEvents
                  | None => []
                  end in
  mapSet dateKey (existing ++ [event]) grouped.

Definition groupEventsByDate (events : list CalendarEvent) : DayMap :=
  map (fun entry => (fst entry, sortEventsByStartTime (snd entry)))
      (fold_left groupStep events []).

Definition isAllDayEvent (event : CalendarEvent) : bool :=
  (getHours (startDate event) =? 0) && (getMinutes (startDate event) =? 0)
  && (getHours (endDate event) =? 23) && (getMinutes (endDate event) =? 59).

(* ================================================================== *)
(** ** conflict.utils.ts: severity *)
(* ================================================================== *)

Inductive Severity : Type := low | medium | high.

Definition getConflictSeverity (conflictInfo : ConflictInfo) : Severity :=
  if negb (hasConflict conflictInfo) then low
  else
    let conflictCount := List.length (conflictingEvents conflictInfo) in
    if (3 <=? conflictCount)%nat then high
    else if (2 <=? conflictCount)%nat then medium
    else low.

(* ================================================================== *)
(** ** useEventManager.ts: the state updates *)
(* ================================================================== *)

(** [errors.join(', ')]. *)
Definition joinErrors (errors : list string) : string := String.concat ", " errors.

(** [addEvent(eventData)] on the events held: the error thrown, or the new
    list of events with the event created. *)
Definition addEvent (generated : string) (events : list CalendarEvent)
    (eventData : EventFields) : string + (list CalendarEvent * CalendarEvent) :=
  let errors := validateEvent (asPartial eventData) in
  if (0 <? List.length errors)%nat then inl (joinErrors errors)
  else
    let newEvent := createEvent generated None eventData in
    inr (events ++ [newEvent], newEvent).

Fixpoint findIndex {A} (f : A -> bool) (l : list A) : option nat :=
  match l with
  | [] => None
  | x :: rest => if f x then Some O else option_map S (findIndex f rest)
  end.

(** [newEvents[index] = value] on a copy, for an index inside the list. *)
Fixpoint replaceAt {A} (index : nat) (value : A) (l : list A) : list A :=
  match l, index with
  | [], _ => []
  | _ :: rest, O => value :: rest
  | x :: rest, S i => x :: replaceAt i value rest
  end.

(** The state updater of [updateEventById(id, updates)]: the error thrown,
    or the next list of events. *)
Definition updateEventById (eventId : string) (updates : PartialEvent)
    (prev : list CalendarEvent) : string + list CalendarEvent :=
  match findIndex (fun e : CalendarEvent => (id e =? eventId)%string) prev with
  | None => inr prev
  | Some eventIndex =>
      match nth_error prev eventIndex with
      | None => inr prev
      | Some currentEvent =>
          let errors := validateEvent (mergeUpdates currentEvent updates) in
          if (0 <? List.length errors)%nat then inl (joinErrors errors)
          else inr (replaceAt eventIndex (updateEvent currentEvent updates) prev)
      end
  end.

(** The state updater of [deleteEvent(id)]. *)
Definition deleteEvent (eventId : string) (prev : list CalendarEvent)
    : list CalendarEvent :=
  filter (fun e : CalendarEvent => negb (id e =? eventId)%string) prev.

(** [getEventsGroupedByDate(startDate, endDate)] on the events held. *)
Definition getEventsGroupedByDate (events : list CalendarEvent)
    (rangeStart rangeEnd : Date) : DayMap :=
  groupEventsByDate (filterEventsByDateRange events rangeStart rangeEnd).

(* ================================================================== *)
(** ** useCalendar.ts: keyboard focus *)
(* ================================================================== *)

Inductive Direction : Type := Up | Down | Left | Right.

Record Cell : Type := mkCell { row : Z; col : Z }.

(** The state update of [moveFocus], on the [focusedCell] of the state. *)
Definition moveFocus (direction : Direction) (focusedCell : option Cell)
    : option Cell :=
  match focusedCell with
  | None => None
  | Some cell =>
      Some match direction with
           | Up => {| row := Z.max 0 (row cell - 1); col := col cell |}
           | Down => {| row := Z.min 5 (row cell + 1); col := col cell |}
           | Left => {| row := row cell; col := Z.max 0 (col cell - 1) |}
           | Right => {| row := row cell; col := Z.min 6 (col cell + 1) |}
           end
  end.

(* ================================================================== *)
(** ** Notions used to state further properties *)
(* ================================================================== *)

(** The string of the bytes given. *)
Definition utf8 (l : list nat) : string :=
  fold_right (fun n s => String (ascii_of_nat n) s) EmptyString l.

(** The white-space characters of ECMAScript, each in UTF-8: TAB, LF, VT,
    FF, CR, SP, U+00A0, U+1680, U+2000 to U+200A, U+2028, U+2029, U+202F,
    U+205F, U+3000 and U+FEFF. *)
Definition whiteSpaceCharacters : list string :=
  map utf8
    [ [9]; [10]; [11]; [12]; [13]; [32]; [194; 160]; [225; 154; 128];
      [226; 128; 128]; [226; 128; 129]; [226; 128; 130]; [226; 128; 131];
      [226; 128; 132]; [226; 128; 133]; [226; 128; 134]; [226; 128; 135];
      [226; 128; 136]; [226; 128; 137]; [226; 128; 138];
      [226; 128; 168]; [226; 128; 169]; [226; 128; 175]; [226; 129; 159];
      [227; 128; 128]; [239; 187; 191] ]%nat.

(** A string made of white-space characters only. *)
Inductive blank : string -> Prop :=
| blank_empty : blank EmptyString
| blank_more (p s : string) :
    In p whiteSpaceCharacters -> blank s -> blank (p ++ s).

(** The form data that [validateEvent] lets through: a title that is not
    blank and has at most 100 code units, a description, if any, of at
    most 500, and a start before the end. *)
Definition acceptable (event : PartialEvent) : Prop :=
  (exists t, pTitle event = Some t /\ ~ blank t /\ (codeUnits t <= 100)%nat) /\
  (forall d, pDescription event = Some d -> (codeUnits d <= 500)%nat) /\
  (exists s e, pStartDate event = Some s /\ pEndDate event = Some e /\ s < e).

(** An event as held by the event manager passes [validateEvent]. *)
Definition storedValid (e : CalendarEvent) : Prop :=
  validateEvent (asPartial e) = [].

(** The Sunday, at midnight, on or before [date]. *)
Definition sundayOf (date : Date) : Date :=
  startOfDay date - getDay date * MS_PER_DAY.

Definition startsBeforeEnd (e : CalendarEvent) : Prop := startDate e < endDate e.

(** In a column, every event ends by the start of the events after it. *)
Definition endsBeforeNext (a b : CalendarEvent) : Prop := endDate a <= startDate b.

(** The event runs at the instant [t]. *)
Definition runsAt (t : Date) (e : CalendarEvent) : bool :=
  (startDate e <=? t) && (t <? endDate e).

(** The number of events, among [events], that run at the instant [t]. *)
Definition simultaneous (t : Date) (events : list CalendarEvent) : nat :=
  List.length (filter (runsAt t) events).

(** The whole business window of the day of [targetDate] as one slot. *)
Definition wholeWindow (targetDate : Date) : FreeTimeSlot :=
  mkSlot (businessStartOf targetDate) (businessEndOf targetDate) 600 morning.

(** The hour and the minute that [createDateFromTimeString] reads from a
    time string. *)
Definition readsAs (timeString : string) (hours minutes : Z) : bool :=
  let timeParts := splitOn ":" timeString in
  match parseInt10 (partOrZero (nth_error timeParts 0)),
        parseInt10 (partOrZero (nth_error timeParts 1)) with
  | Some h, Some m => (h =? hours) && (m =? minutes)
  | _, _ => false
  end.

Definition clockString (hours minutes : Z) : string :=
  (twoDigits hours ++ ":" ++ twoDigits minutes)%string.

(** The cells of the month grid: 6 rows of 7 columns. *)
Definition onGrid (cell : Cell) : Prop := 0 <= row cell <= 5 /\ 0 <= col cell <= 6.

(** The events of a list that start on the day whose midnight is [day]. *)
Definition startingOn (day : Date) (events : list CalendarEvent)
    : list CalendarEvent :=
  filter (fun e : CalendarEvent => toDateString (startDate e) =? day) events.

(** What the first loop of [groupEventsByDate] holds after the events [l]. *)
Definition grouped_so_far (m : DayMap) (l : list CalendarEvent) : Prop :=
  NoDup (map fst m) /\
  (forall day dayEvents, In (day, dayEvents) m ->
     dayEvents <> [] /\ dayEvents = startingOn day l) /\
  (forall e, In e l -> In (toDateString (startDate e)) (map fst m)).

(* ================================================================== *)
(** ** Further scenarios *)
(* ================================================================== *)

Module Examples.

Import Scenario.

(** The events held: the stand-up and a meeting from 10:00 to 11:00. *)
Definition held : list CalendarEvent := [standup; meeting].

(** A review from 10:00 to 11:00, between the stand-up and lunch. *)
Definition review : EventFields :=
  candidate "Review" (atTime friday 10 0) (atTime friday 11 0).

(** A candidate from 07:00 to 18:30: no probe of its length fits the
    business window. *)
Definition allDayLong : EventFields :=
  candidate "Offsite" (atTime friday 7 0) (atTime friday 18 30).

(** An event of the Wednesday two weeks before. *)
Definition earlier : CalendarEvent :=
  event "9" "Earlier" (atTime (friday - 16) 9 0) (atTime (friday - 16) 10 0).

Definition saturday : Date := atTime (friday + 1) 0 0.

(** An entry that ends before it starts, from 10:00 back to 09:30, and a
    call from 09:15 to 09:45. *)
Definition backwards : CalendarEvent :=
  event "7" "Backwards" (atTime friday 10 0) (atTime friday 9 30).
Definition quarterPast : EventFields :=
  candidate "Call" (atTime friday 9 15) (atTime friday 9 45).

(** An entry of the Monday of that week, from 10:00 back to 09:00. *)
Definition backwardsMonday : CalendarEvent :=
  event "8" "Backwards" (atTime (friday - 4) 10 0) (atTime (friday - 4) 9 0).

End Examples.

(* ================================================================== *)
(** ** Facts about the date functions *)
(* ================================================================== *)

Lemma startOfDay_le (d : Date) : startOfDay d <= d < startOfDay d + MS_PER_DAY.
Proof.
  unfold startOfDay, MS_PER_DAY.
  pose proof (Z.mod_pos_bound d 86400000 ltac:(lia)). lia.
Qed.

Lemma startOfDay_within (m d : Date) :
  m mod MS_PER_DAY = 0 -> m <= d < m + MS_PER_DAY -> startOfDay d = m.
Proof.
  unfold startOfDay, MS_PER_DAY. intros Hm Hd.
  pose proof (Z.mod_pos_bound d 86400000 ltac:(lia)) as Hb.
  pose proof (Z.div_mod d 86400000 ltac:(lia)) as Hq.
  pose proof (Z.div_mod m 86400000 ltac:(lia)) as Hq'.
  rewrite Hm in Hq'.
  assert (d / 86400000 = m / 86400000) by nia.
  lia.
Qed.

Lemma startOfDay_mod (d : Date) : startOfDay d mod MS_PER_DAY = 0.
Proof.
  unfold startOfDay, MS_PER_DAY.
  rewrite Zminus_mod, Z.mod_mod, Z.sub_diag by lia. reflexivity.
Qed.

Lemma startOfDay_idem (d : Date) : startOfDay (startOfDay d) = startOfDay d.
Proof.
  apply startOfDay_within; [apply startOfDay_mod|].
  unfold MS_PER_DAY. lia.
Qed.

(** On intervals given in order, [areIntervalsOverlapping] is the strict
    overlap test [a.start < b.end && b.start < a.end]. *)
Lemma areIntervalsOverlapping_ordered (ls le rs re : Date) :
  ls <= le -> rs <= re ->
  areIntervalsOverlapping ls le rs re = (ls <? re) && (rs <? le).
Proof.
  intros H1 H2. unfold areIntervalsOverlapping.
  rewrite (Z.min_l ls le), (Z.max_r rs re), (Z.min_l rs re), (Z.max_r ls le) by lia.
  reflexivity.
Qed.

Lemma areIntervalsOverlapping_sym (ls le rs re : Date) :
  areIntervalsOverlapping ls le rs re = areIntervalsOverlapping rs re ls le.
Proof. unfold areIntervalsOverlapping. apply andb_comm. Qed.

(* ================================================================== *)
(** ** The conflict detector *)
(* ================================================================== *)

Lemma detect_unfold depth newEvent existingEvents excludeEventId :
  detectEventConflicts (S depth) newEvent existingEvents excludeEventId =
  if probeIsFree newEvent existingEvents excludeEventId
  then Some (conflictInfoOf newEvent existingEvents excludeEventId [])
  else option_map (conflictInfoOf newEvent existingEvents excludeEventId)
         (generateAlternativeTimeSlots depth newEvent existingEvents excludeEventId).
Proof.
  unfold probeIsFree, conflictInfoOf, generateAlternativeTimeSlots. simpl.
  destruct (0 <? _)%nat; simpl; [|reflexivity].
  destruct (generateWith _ _ _ _); reflexivity.
Qed.

Lemma detect_inv depth newEvent existingEvents excludeEventId r :
  detectEventConflicts depth newEvent existingEvents excludeEventId = Some r ->
  exists suggested,
    r = conflictInfoOf newEvent existingEvents excludeEventId suggested /\
    (hasConflict r = false -> suggested = []).
Proof.
  destruct depth as [|depth]; [discriminate|].
  rewrite detect_unfold. unfold probeIsFree.
  destruct (0 <? _)%nat eqn:Hhas; simpl.
  - destruct (generateAlternativeTimeSlots _ _ _ _) as [l|]; [|discriminate].
    simpl. intros [= <-]. exists l. split; [reflexivity|].
    unfold conflictInfoOf; simpl. rewrite Hhas. discriminate.
  - intros [= <-]. exists []. split; reflexivity.
Qed.

(* ================================================================== *)
(** ** The alternative-slot scan and the call depth *)
(* ================================================================== *)

Lemma sameScan_businessEnd a b :
  sameScan a b -> businessEndOf (startDate a) = businessEndOf (startDate b).
Proof.
  intros (H & _). unfold businessEndOf, setHours.
  rewrite !startOfDay_idem, H. reflexivity.
Qed.

Lemma sameScan_businessStart a b :
  sameScan a b -> businessStartOf (startDate a) = businessStartOf (startDate b).
Proof.
  intros (H & _). unfold businessStartOf, setHours.
  rewrite !startOfDay_idem, H. reflexivity.
Qed.

Lemma sameScan_testEvent a b cur slotEnd_ :
  sameScan a b -> testEventAt a cur slotEnd_ = testEventAt b cur slotEnd_.
Proof.
  intros (_ & _ & Ht & Hd & Hc & Hg). unfold testEventAt.
  rewrite Ht, Hd, Hc, Hg. reflexivity.
Qed.

Lemma scanSlots_sameScan detect a b evs excl :
  sameScan a b ->
  forall n cur sugg,
    scanSlots detect a evs excl n cur sugg = scanSlots detect b evs excl n cur sugg.
Proof.
  intros Hab. induction n as [|n IH]; intros cur sugg; cbn [scanSlots]; [reflexivity|].
  rewrite (sameScan_businessEnd _ _ Hab).
  destruct Hab as (Hday & Hdur & Hrest). rewrite Hdur.
  rewrite (sameScan_testEvent a b) by (repeat split; tauto).
  destruct (cur <? _); [|reflexivity].
  destruct (_ <=? _); [|apply IH].
  destruct (detect _ _ _) as [c|]; [|reflexivity].
  destruct (negb _); [|apply IH].
  destruct (3 <=? _)%nat; [reflexivity|apply IH].
Qed.

Lemma generateWith_sameScan detect a b evs excl :
  sameScan a b -> generateWith detect a evs excl = generateWith detect b evs excl.
Proof.
  intros Hab. unfold generateWith.
  rewrite (sameScan_businessStart _ _ Hab). apply scanSlots_sameScan, Hab.
Qed.

Lemma differenceInMinutes_addMinutes (d n : Z) :
  differenceInMinutes (addMinutes d n) d = n.
Proof.
  unfold differenceInMinutes, addMinutes, MS_PER_MINUTE.
  replace (d + n * 60000 - d) with (n * 60000) by lia.
  apply Z.quot_mul. lia.
Qed.

(** A probe taken inside the business window of the candidate's day drives
    the same scan as the candidate. *)
Lemma testEvent_sameScan newEvent cur :
  businessStartOf (startDate newEvent) <= cur ->
  cur < businessEndOf (startDate newEvent) ->
  sameScan (testEventAt newEvent cur (addMinutes cur (eventDurationOf newEvent)))
           newEvent.
Proof.
  intros Hlo Hhi. unfold sameScan, testEventAt; simpl.
  repeat split; try reflexivity.
  - apply startOfDay_within; [apply startOfDay_mod|].
    unfold businessStartOf, businessEndOf, setHours, MS_PER_HOUR, MS_PER_DAY in *.
    rewrite startOfDay_idem in *. lia.
  - unfold eventDurationOf at 1. simpl. apply differenceInMinutes_addMinutes.
Qed.

Section ScanDepth.

Variable existingEvents : list CalendarEvent.
Variable excludeEventId : option string.

(** When the scan on its own returns, the scan at any positive call
    depth returns the same list. *)
Lemma scan_returns depth newEvent :
  forall n cur sugg r,
    scanSlots detectOnce newEvent existingEvents excludeEventId n cur sugg = Some r ->
    scanSlots (detectEventConflicts (S depth)) newEvent existingEvents
      excludeEventId n cur sugg = Some r.
Proof.
  induction n as [|n IH]; intros cur sugg r; cbn [scanSlots]; [tauto|].
  destruct (cur <? _); [|tauto].
  destruct (_ <=? _); [|apply IH].
  rewrite detect_unfold. unfold detectOnce.
  destruct (probeIsFree _ _ _) eqn:Hfree; [|discriminate].
  destruct (negb _); [|apply IH].
  destruct (3 <=? _)%nat; [tauto|apply IH].
Qed.

(** When the scan on its own reaches a probe in conflict, the scan with
    no call depth left fails at its first probe. *)
Lemma scan_exhausted_0 newEvent :
  forall n cur sugg,
    scanSlots detectOnce newEvent existingEvents excludeEventId n cur sugg = None ->
    scanSlots (detectEventConflicts 0) newEvent existingEvents
      excludeEventId n cur sugg = None.
Proof.
  induction n as [|n IH]; intros cur sugg; cbn [scanSlots]; [discriminate|].
  destruct (cur <? _); [|discriminate].
  destruct (_ <=? _); [reflexivity|apply IH].
Qed.

Lemma scanOnce_eq newEvent :
  scanOnce newEvent existingEvents excludeEventId =
  scanSlots detectOnce newEvent existingEvents excludeEventId scanBound
    (businessStartOf (startDate newEvent)) [].
Proof. reflexivity. Qed.

Lemma generate_eq depth newEvent :
  generateAlternativeTimeSlots depth newEvent existingEvents excludeEventId =
  scanSlots (detectEventConflicts depth) newEvent existingEvents excludeEventId
    scanBound (businessStartOf (startDate newEvent)) [].
Proof. reflexivity. Qed.

(** A probe in conflict starts the same scan one call deeper. *)
Lemma scan_exhausted_step depth newEvent :
  (forall e, scanOnce e existingEvents excludeEventId = None ->
     generateAlternativeTimeSlots depth e existingEvents excludeEventId = None) ->
  scanOnce newEvent existingEvents excludeEventId = None ->
  forall n cur sugg,
    businessStartOf (startDate newEvent) <= cur ->
    scanSlots detectOnce newEvent existingEvents excludeEventId n cur sugg = None ->
    scanSlots (detectEventConflicts (S depth)) newEvent existingEvents
      excludeEventId n cur sugg = None.
Proof.
  intros IHd Hgen.
  induction n as [|n IH]; intros cur sugg; cbn [scanSlots]; [discriminate|].
  destruct (cur <? _) eqn:Hguard; [|discriminate].
  intros Hlo Hscan.
  assert (Hnext : businessStartOf (startDate newEvent) <= addMinutes cur 30)
    by (unfold addMinutes, MS_PER_MINUTE; lia).
  destruct (_ <=? _); [|apply IH; assumption].
  rewrite detect_unfold. unfold detectOnce in Hscan.
  destruct (probeIsFree _ _ _) eqn:Hfree.
  - destruct (negb _); [|apply IH; assumption].
    destruct (3 <=? _)%nat; [discriminate|apply IH; assumption].
  - rewrite IHd; [reflexivity|].
    rewrite scanOnce_eq in *.
    rewrite (scanSlots_sameScan _ _ newEvent), (sameScan_businessStart _ newEvent).
    + exact Hgen.
    + apply testEvent_sameScan; [assumption|]. apply Z.ltb_lt, Hguard.
    + apply testEvent_sameScan; [assumption|]. apply Z.ltb_lt, Hguard.
Qed.

(** When the scan on its own reaches a probe in conflict, the scan fails
    at every call depth. *)
Lemma scan_exhausted depth :
  forall newEvent,
    scanOnce newEvent existingEvents excludeEventId = None ->
    generateAlternativeTimeSlots depth newEvent existingEvents excludeEventId = None.
Proof.
  induction depth as [|depth IHd]; intros newEvent Hgen.
  - rewrite generate_eq. apply scan_exhausted_0.
    rewrite <- scanOnce_eq. exact Hgen.
  - rewrite generate_eq. apply (scan_exhausted_step depth newEvent IHd Hgen); [lia|].
    rewrite <- scanOnce_eq. exact Hgen.
Qed.

(** At a positive call depth the scan does what it does on its own. *)
Lemma generate_scanOnce depth newEvent :
  generateAlternativeTimeSlots (S depth) newEvent existingEvents excludeEventId =
  scanOnce newEvent existingEvents excludeEventId.
Proof.
  destruct (scanOnce newEvent existingEvents excludeEventId) as [r|] eqn:Hgen.
  - rewrite generate_eq. apply scan_returns.
    rewrite <- scanOnce_eq. exact Hgen.
  - apply scan_exhausted, Hgen.
Qed.

End ScanDepth.

Lemma StronglySorted_snoc (l : list Z) (x : Z) :
  StronglySorted Z.lt l -> Forall (fun y => y < x) l ->
  StronglySorted Z.lt (l ++ [x]).
Proof.
  induction 1 as [|a l Hl IH Ha]; intros Hx; simpl.
  - constructor; constructor.
  - inversion Hx; subst. constructor; [apply IH; assumption|].
    apply Forall_app; split; [assumption|]. constructor; [assumption|constructor].
Qed.

Lemma scanSlots_sound newEvent evs excl :
  forall n cur sugg r k,
    0 <= k -> cur = businessStartOf (startDate newEvent) + k * THIRTY_MINUTES ->
    Forall (goodSuggestion newEvent evs excl) sugg ->
    Forall (fun t => t < cur) sugg ->
    StronglySorted Z.lt sugg ->
    (List.length sugg < 3)%nat ->
    scanSlots detectOnce newEvent evs excl n cur sugg = Some r ->
    Forall (goodSuggestion newEvent evs excl) r /\
    StronglySorted Z.lt r /\ (List.length r <= 3)%nat.
Proof.
  induction n as [|n IH]; intros cur sugg r k Hk Hcur Hgood Hlt Hsort Hlen;
    cbn [scanSlots].
  - intros [= <-]. repeat split; try assumption. lia.
  - assert (Hnext : addMinutes cur 30
                    = businessStartOf (startDate newEvent) + (k + 1) * THIRTY_MINUTES)
      by (unfold addMinutes, THIRTY_MINUTES, MS_PER_MINUTE in *; lia).
    assert (Hlt' : Forall (fun t => t < addMinutes cur 30) sugg).
    { eapply Forall_impl; [|exact Hlt]. unfold addMinutes, MS_PER_MINUTE.
      simpl. intros; lia. }
    destruct (cur <? _) eqn:Hguard.
    2:{ intros [= <-]. repeat split; try assumption. lia. }
    apply Z.ltb_lt in Hguard.
    destruct (_ <=? _) eqn:Hfit.
    2:{ apply (IH _ _ _ (k + 1)); try assumption; lia. }
    apply Z.leb_le in Hfit.
    unfold detectOnce.
    destruct (probeIsFree _ _ _) eqn:Hfree; [|discriminate].
    unfold conflictInfoOf at 1. cbn [hasConflict].
    unfold probeIsFree in Hfree. apply negb_true_iff in Hfree. rewrite Hfree.
    cbn [negb].
    assert (Hgood' : Forall (goodSuggestion newEvent evs excl) (sugg ++ [cur])).
    { apply Forall_app; split; [assumption|]. constructor; [|constructor].
      repeat split; try assumption.
      - exists k. split; [|assumption].
        unfold businessEndOf, businessStartOf, setHours, THIRTY_MINUTES,
          MS_PER_HOUR, MS_PER_MINUTE in *. lia.
      - unfold probeIsFree. rewrite Hfree. reflexivity. }
    assert (Hsort' : StronglySorted Z.lt (sugg ++ [cur]))
      by (apply StronglySorted_snoc; assumption).
    destruct (3 <=? _)%nat eqn:Hfull.
    + intros [= <-]. repeat split; try assumption.
      rewrite length_app. simpl. lia.
    + apply Nat.leb_gt in Hfull.
      apply (IH _ _ _ (k + 1)); try assumption; try lia.
      apply Forall_app; split; [assumption|]. constructor; [|constructor].
      unfold addMinutes, MS_PER_MINUTE. lia.
Qed.

(** Whenever [generateAlternativeTimeSlots] returns, it returns at most
    three times, in strictly increasing order, each on the 30-minute grid
    of the business window, each leaving room for the candidate's whole
    minutes before 18:00, and each free of conflicts. *)
Lemma generate_sound depth newEvent evs excl r :
  generateAlternativeTimeSlots (S depth) newEvent evs excl = Some r ->
  (List.length r <= 3)%nat /\ StronglySorted Z.lt r /\
  Forall (goodSuggestion newEvent evs excl) r.
Proof.
  rewrite generate_scanOnce, scanOnce_eq. intros H.
  apply (scanSlots_sound _ _ _ _ _ _ _ 0) in H;
    [tauto | lia | simpl; lia | constructor | constructor | constructor
    | simpl; lia].
Qed.

(** With two calls or more left on the stack, [detectEventConflicts]
    answers a candidate without conflict at once, and a candidate in
    conflict exactly when the scan of its day returns. *)
Lemma detect_scanOnce depth newEvent existingEvents excludeEventId :
  detectEventConflicts (S (S depth)) newEvent existingEvents excludeEventId =
  if probeIsFree newEvent existingEvents excludeEventId
  then Some (conflictInfoOf newEvent existingEvents excludeEventId [])
  else option_map (conflictInfoOf newEvent existingEvents excludeEventId)
         (scanOnce newEvent existingEvents excludeEventId).
Proof. rewrite detect_unfold, generate_scanOnce. reflexivity. Qed.

(** The bound on the iterations of the scan is never what ends it: after
    20 steps of 30 minutes from 08:00 the guard [currentSlot < businessEnd]
    is false, so a larger bound changes nothing. *)
Lemma scanSlots_guard_exit detect newEvent evs excl : forall n extra cur sugg,
  businessEndOf (startDate newEvent) <= cur + Z.of_nat n * THIRTY_MINUTES ->
  scanSlots detect newEvent evs excl (n + extra) cur sugg =
  scanSlots detect newEvent evs excl n cur sugg.
Proof.
  induction n as [|n IH]; intros extra cur sugg Hend.
  - simpl in Hend. rewrite Nat.add_0_l. cbn [scanSlots].
    destruct extra as [|extra]; cbn [scanSlots]; [reflexivity|].
    apply Z.ltb_ge in Hend. rewrite Z.add_0_r in Hend. rewrite Hend. reflexivity.
  - assert (Hnext : businessEndOf (startDate newEvent)
                    <= addMinutes cur 30 + Z.of_nat n * THIRTY_MINUTES)
      by (unfold addMinutes, THIRTY_MINUTES, MS_PER_MINUTE in *; lia).
    change (S n + extra)%nat with (S (n + extra)). cbn [scanSlots].
    rewrite !(IH _ _ _ Hnext). reflexivity.
Qed.

Lemma generateWith_any_bound detect newEvent evs excl extra :
  scanSlots detect newEvent evs excl (scanBound + extra)
    (businessStartOf (startDate newEvent)) [] =
  generateWith detect newEvent evs excl.
Proof.
  unfold generateWith. apply scanSlots_guard_exit.
  unfold scanBound, businessEndOf, businessStartOf, setHours, THIRTY_MINUTES,
    MS_PER_HOUR, MS_PER_MINUTE. lia.
Qed.

(* ================================================================== *)
(** ** Properties of the conflict detector *)
(* ================================================================== *)

Lemma find_filter {A} (f : A -> bool) (l : list A) :
  find f l = hd_error (filter f l).
Proof.
  induction l as [|a l IH]; simpl; [reflexivity|].
  destruct (f a); [reflexivity|exact IH].
Qed.

Lemma StronglySorted_filter {A} (R : A -> A -> Prop) (l : list A) (f : A -> bool) :
  StronglySorted R l -> StronglySorted R (filter f l).
Proof.
  induction 1 as [|a l Hl IH Ha]; simpl; [constructor|].
  destruct (f a); [|exact IH]. constructor; [exact IH|].
  rewrite Forall_forall in *. intros x Hx. apply filter_In in Hx. apply Ha, Hx.
Qed.

Lemma StronglySorted_app_r {A} (R : A -> A -> Prop) (l1 l2 : list A) :
  StronglySorted R (l1 ++ l2) -> StronglySorted R l2.
Proof.
  induction l1 as [|a l1 IH]; simpl; [tauto|].
  intros H. inversion H; subst. apply IH. assumption.
Qed.

Lemma isExcluded_spec (x : string) (e : CalendarEvent) :
  x <> EmptyString -> (isExcluded (Some x) e = true <-> id e = x).
Proof.
  intros Hx. unfold isExcluded.
  destruct (String.eqb_spec x EmptyString) as [|_]; [contradiction|]. simpl.
  apply String.eqb_eq.
Qed.

(** A candidate that no event overlaps is answered at once, whatever the
    call depth left. *)
Lemma detect_free depth newEvent existingEvents excludeEventId :
  filter (conflictsWith newEvent excludeEventId) existingEvents = [] ->
  detectEventConflicts (S depth) newEvent existingEvents excludeEventId =
  Some {| hasConflict := false; conflictingEvents := [];
          conflictMessage := EmptyString; suggestedTimes := [] |}.
Proof.
  intros H. rewrite detect_unfold. unfold probeIsFree, conflictInfoOf.
  rewrite H. reflexivity.
Qed.

(** C9: every [ConflictInfo] returned by [detectEventConflicts] has
    [hasConflict] true exactly when [conflictingEvents] is not empty, and
    when [hasConflict] is false its [suggestedTimes] are empty and its
    [conflictMessage] is the empty string. *)
Theorem conflict_info_consistent depth newEvent existingEvents excludeEventId r :
  detectEventConflicts depth newEvent existingEvents excludeEventId = Some r ->
  (hasConflict r = true <-> conflictingEvents r <> []) /\
  (hasConflict r = false ->
     suggestedTimes r = [] /\ conflictMessage r = EmptyString).
Proof.
  intros H. destruct (detect_inv _ _ _ _ _ H) as (suggested & -> & Hs).
  unfold conflictInfoOf in *. cbn [hasConflict conflictingEvents suggestedTimes
    conflictMessage] in *.
  destruct (filter _ _) as [|c cs]; simpl in *.
  - split; [split; [discriminate|congruence]|]. intros _. split; [auto|reflexivity].
  - split; [split; [discriminate|reflexivity]|discriminate].
Qed.

Lemma conflict_info_consistent_witness :
  exists r,
    detectEventConflicts 2 Scenario.noonCandidate Scenario.lateFirst None = Some r /\
    hasConflict r = true /\
    (hasConflict r = true <-> conflictingEvents r <> []) /\
    (hasConflict r = false ->
       suggestedTimes r = [] /\ conflictMessage r = EmptyString).
Proof.
  eexists. split; [vm_compute; reflexivity|]. split; [reflexivity|].
  apply (conflict_info_consistent 2 Scenario.noonCandidate Scenario.lateFirst None).
  vm_compute. reflexivity.
Defined.




(** C4 fails: with the later event listed first, the message names it,
    not the earlier one. *)
Lemma message_names_first_listed_not_earliest :
  exists r,
    detectEventConflicts 2 Scenario.noonCandidate Scenario.lateFirst None = Some r /\
    (2 <= List.length (conflictingEvents r))%nat /\
    ~ namesEarliestConflict r.
Proof.
  eexists. split; [vm_compute; reflexivity|]. split; [simpl; lia|].
  intros (e & Hin & Hmin & Hmsg).
  cbn [conflictingEvents] in Hin, Hmin.
  destruct Hin as [<-|[<-|[]]].
  - inversion Hmin as [|? ? _ Hrest]; subst.
    inversion Hrest as [|? ? Hle _]; subst.
    vm_compute in Hle. apply Hle. reflexivity.
  - vm_compute in Hmsg. discriminate Hmsg.
Qed.

(** C4, amended: with two or more conflicts, the message names the first
    event of [existingEvents], in the order given, that conflicts with the
    candidate, together with the number of conflicts; that event starts
    earliest among the conflicting ones when [existingEvents] is given in
    order of start time. *)
Theorem message_names_first_listed depth newEvent existingEvents excludeEventId r :
  detectEventConflicts depth newEvent existingEvents excludeEventId = Some r ->
  (2 <= List.length (conflictingEvents r))%nat ->
  exists first,
    find (conflictsWith newEvent excludeEventId) existingEvents = Some first /\
    messageNames r first /\
    (StronglySorted byStart existingEvents -> namesEarliestConflict r).
Proof.
  intros H Hlen. destruct (detect_inv _ _ _ _ _ H) as (suggested & -> & _).
  unfold messageNames, namesEarliestConflict, conflictInfoOf in *.
  cbn [conflictingEvents conflictMessage] in *.
  rewrite find_filter.
  pose proof (fun Hs => StronglySorted_filter byStart existingEvents
                (conflictsWith newEvent excludeEventId) Hs) as Hsorted.
  destruct (filter _ _) as [|first [|second rest]]; simpl in Hlen; try lia.
  exists first. cbn -[multiConflictMessage]. split; [reflexivity|].
  split; [reflexivity|].
  intros Hs. specialize (Hsorted Hs). exists first.
  split; [left; reflexivity|]. split; [|reflexivity].
  inversion Hsorted as [|? ? _ Hall]; subst.
  constructor; [lia|exact Hall].
Qed.

Lemma message_names_first_listed_witness :
  exists r first,
    detectEventConflicts 2 Scenario.noonCandidate Scenario.lateFirst None = Some r /\
    find (conflictsWith Scenario.noonCandidate None) Scenario.lateFirst = Some first /\
    title first = "B"%string /\
    messageNames r first.
Proof.
  eexists.
  destruct (message_names_first_listed 2 Scenario.noonCandidate Scenario.lateFirst
              None _ ltac:(vm_compute; reflexivity) ltac:(simpl; lia))
    as (first & Hfind & Hmsg & _).
  exists first. split; [reflexivity|]. split; [exact Hfind|].
  split; [|exact Hmsg].
  vm_compute in Hfind. injection Hfind as <-. reflexivity.
Defined.




(** C2, on the scenario of the specification (stand-up 09:00-10:00, client
    call 09:30-10:30): the probe at 08:30 is in conflict, detecting that
    conflict asks for the suggestions of the probe, which scans the same
    window again, and so on: at no call depth does
    [generateAlternativeTimeSlots] return. *)
Theorem suggestions_never_returned depth :
  generateAlternativeTimeSlots depth Scenario.clientCall [Scenario.standup] None = None /\
  detectEventConflicts depth Scenario.clientCall [Scenario.standup] None = None.
Proof.
  assert (Hgen : forall d,
    generateAlternativeTimeSlots d Scenario.clientCall [Scenario.standup] None = None).
  { intros d. apply scan_exhausted. vm_compute. reflexivity. }
  split; [apply Hgen|].
  destruct depth as [|depth]; [reflexivity|].
  rewrite detect_unfold, Hgen. vm_compute. reflexivity.
Qed.

(* ================================================================== *)
(** ** The free-time walk *)
(* ================================================================== *)

Section FreeTimeWalk.

Variable businessStart businessEnd : Date.
Variable minDuration : Z.

Lemma pushGap_app from to acc :
  pushGap minDuration from to acc = acc ++ pushGap minDuration from to [].
Proof.
  unfold pushGap. destruct (from <? to); [|symmetry; apply app_nil_r].
  destruct (minDuration <=? _); [reflexivity|symmetry; apply app_nil_r].
Qed.

Lemma fold_gapStep dayEvents : forall acc currentTime,
  (let '(freeSlots, cur) :=
     fold_left (gapStep businessStart businessEnd minDuration) dayEvents
       (acc, currentTime) in
   pushGap minDuration cur businessEnd freeSlots) =
  acc ++ gapsFrom businessStart businessEnd minDuration currentTime dayEvents.
Proof.
  induction dayEvents as [|e l IH]; intros acc c; simpl.
  - apply pushGap_app.
  - fold (nextCursor businessEnd c e). rewrite IH, (pushGap_app c), app_assoc. reflexivity.
Qed.

Lemma collectFreeSlots_gapsFrom dayEvents :
  collectFreeSlots businessStart businessEnd minDuration dayEvents =
  gapsFrom businessStart businessEnd minDuration businessStart dayEvents.
Proof. unfold collectFreeSlots. apply (fold_gapStep dayEvents [] businessStart). Qed.

Lemma pushGap_inv from to s :
  In s (pushGap minDuration from to []) ->
  s = mkSlot from to (differenceInMinutes to from) (getTimeOfDayType from) /\
  from < to /\ minDuration <= differenceInMinutes to from.
Proof.
  unfold pushGap. destruct (from <? to) eqn:H1; [|intros []].
  destruct (minDuration <=? _) eqn:H2; [|intros []].
  intros [<-|[]]. apply Z.ltb_lt in H1. apply Z.leb_le in H2. auto.
Qed.

Lemma nextCursor_ge c e : c <= nextCursor businessEnd c e.
Proof. unfold nextCursor. destruct (c <? _) eqn:H; [apply Z.ltb_lt in H|]; lia. Qed.

Lemma nextCursor_max c e : nextCursor businessEnd c e = Z.max c (clampedEnd businessEnd e).
Proof. unfold nextCursor. destruct (c <? _) eqn:H; [apply Z.ltb_lt in H|apply Z.ltb_ge in H]; lia. Qed.

(** Slots start at or after the cursor they were pushed from. *)
Lemma gapsFrom_start_ge dayEvents : forall c,
  Forall (fun s => c <= slotStart s) (gapsFrom businessStart businessEnd minDuration c dayEvents).
Proof.
  induction dayEvents as [|e l IH]; intros c; simpl.
  - apply Forall_forall. intros s Hs. apply pushGap_inv in Hs as (-> & _). simpl. lia.
  - apply Forall_app. split.
    + apply Forall_forall. intros s Hs. apply pushGap_inv in Hs as (-> & _). simpl. lia.
    + eapply Forall_impl; [|apply IH]. simpl. intros s Hs.
      pose proof (nextCursor_ge c e). lia.
Qed.

(** The slots are pushed in the order of their starts. *)
Lemma gapsFrom_chronological dayEvents : forall c,
  StronglySorted startsNoLater (gapsFrom businessStart businessEnd minDuration c dayEvents).
Proof.
  induction dayEvents as [|e l IH]; intros c; simpl.
  - unfold pushGap. destruct (c <? _); [|constructor].
    destruct (_ <=? _); repeat constructor.
  - unfold pushGap at 1. destruct (c <? _); [|apply IH].
    destruct (_ <=? _); [|apply IH]. simpl. constructor; [apply IH|].
    eapply Forall_impl; [|apply gapsFrom_start_ge]. unfold startsNoLater. simpl.
    intros s Hs. pose proof (nextCursor_ge c e). lia.
Qed.

End FreeTimeWalk.

(** [reduce] keeps the first slot of the greatest duration. *)
Lemma longerOf_fold (l : list FreeTimeSlot) : forall a,
  exists b, fold_left longerOf l (Some a) = Some b /\
    ((b = a /\ Forall (fun s => duration s <= duration a) l) \/
     (exists before after, l = before ++ b :: after /\
        duration a < duration b /\
        Forall (fun s => duration s < duration b) before /\
        Forall (fun s => duration s <= duration b) after)).
Proof.
  induction l as [|x l IH]; intros a; simpl.
  - exists a. split; [reflexivity|]. left. split; [reflexivity|constructor].
  - destruct (duration a <? duration x) eqn:Hlt.
    + apply Z.ltb_lt in Hlt. destruct (IH x) as (b & Hb & [[-> Hall]|Hex]).
      * exists x. split; [exact Hb|]. right. exists [], l.
        split; [reflexivity|]. split; [exact Hlt|]. split; [constructor|exact Hall].
      * destruct Hex as (before & after & -> & Hd & Hbef & Haft).
        exists b. split; [exact Hb|]. right. exists (x :: before), after.
        split; [reflexivity|]. split; [lia|]. split; [|exact Haft].
        constructor; [lia|exact Hbef].
    + apply Z.ltb_ge in Hlt. destruct (IH a) as (b & Hb & [[-> Hall]|Hex]).
      * exists a. split; [exact Hb|]. left. split; [reflexivity|].
        constructor; [lia|exact Hall].
      * destruct Hex as (before & after & -> & Hd & Hbef & Haft).
        exists b. split; [exact Hb|]. right. exists (x :: before), after.
        split; [reflexivity|]. split; [exact Hd|]. split; [|exact Haft].
        constructor; [lia|exact Hbef].
Qed.

Lemma longest_first_maximum (l : list FreeTimeSlot) :
  match fold_left longerOf l None with
  | None => l = []
  | Some b =>
      exists before after, l = before ++ b :: after /\
        Forall (fun s => duration s < duration b) before /\
        Forall (fun s => duration s <= duration b) after
  end.
Proof.
  destruct l as [|x l]; simpl; [reflexivity|].
  destruct (longerOf_fold l x) as (b & -> & [[-> Hall]|Hex]).
  - exists [], l. split; [reflexivity|]. split; [constructor|exact Hall].
  - destruct Hex as (before & after & -> & Hd & Hbef & Haft).
    exists (x :: before), after. split; [reflexivity|]. split; [|exact Haft].
    constructor; [exact Hd|exact Hbef].
Qed.

(** C7: [longestFreeBlock] is [null] exactly when [allFreeSlots] is empty;
    otherwise it is a slot of [allFreeSlots] of the greatest duration, the
    first such slot in the list, and, the list being in chronological
    order, no slot of the same duration starts before it. *)
Theorem longest_block_first_maximum events targetDate minDuration :
  let result := findFreeTimeSlots events targetDate minDuration in
  StronglySorted startsNoLater (allFreeSlots result) /\
  match longestFreeBlock result with
  | None => allFreeSlots result = []
  | Some block =>
      In block (allFreeSlots result) /\
      (forall s, In s (allFreeSlots result) -> duration s <= duration block) /\
      (forall s, In s (allFreeSlots result) -> duration s = duration block ->
         slotStart block <= slotStart s) /\
      (exists before after,
         allFreeSlots result = before ++ block :: after /\
         Forall (fun s => duration s < duration block) before)
  end.
Proof.
  unfold findFreeTimeSlots. cbn [allFreeSlots longestFreeBlock].
  rewrite collectFreeSlots_gapsFrom.
  match goal with |- context [gapsFrom ?a ?b ?c ?d ?e] =>
    pose proof (gapsFrom_chronological a b c e d) as Hsorted;
    generalize dependent (gapsFrom a b c d e) end.
  intros slots Hsorted. split; [exact Hsorted|].
  pose proof (longest_first_maximum slots) as H.
  destruct (fold_left longerOf slots None) as [b|]; [|exact H].
  destruct H as (before & after & -> & Hbef & Haft).
  rewrite Forall_forall in Hbef, Haft.
  split; [apply in_elt|]. split; [|split].
  - intros s Hs. apply in_app_or in Hs as [Hs|[<-|Hs]];
      [specialize (Hbef _ Hs)|..|specialize (Haft _ Hs)]; lia.
  - intros s Hs Heq. apply in_app_or in Hs as [Hs|[<-|Hs]].
    + specialize (Hbef _ Hs). lia.
    + lia.
    + apply StronglySorted_app_r in Hsorted as Hr.
      inversion Hr as [|? ? _ Hall]; subst.
      rewrite Forall_forall in Hall. apply Hall, Hs.
  - exists before, after. split; [reflexivity|]. apply Forall_forall, Hbef.
Qed.

(* ================================================================== *)
(** ** The weekly pattern *)
(* ================================================================== *)

Lemma startOfDay_addDays (d k : Z) :
  startOfDay (addDays d k) = startOfDay d + k * MS_PER_DAY.
Proof.
  unfold startOfDay, addDays, MS_PER_DAY.
  rewrite Z_mod_plus_full. lia.
Qed.

Lemma getDay_range (d : Date) : 0 <= getDay d < 7.
Proof. unfold getDay. apply Z.mod_pos_bound. lia. Qed.

Lemma startOfWeek_monday (d : Date) : startOfWeek d 1 = mondayOf d.
Proof.
  unfold startOfWeek, mondayOf. rewrite startOfDay_addDays.
  pose proof (getDay_range d) as Hr.
  destruct (getDay d <? 1) eqn:Hd; [apply Z.ltb_lt in Hd|apply Z.ltb_ge in Hd].
  - replace (getDay d) with 0 by lia. reflexivity.
  - replace ((getDay d + 6) mod 7) with (getDay d - 1); [unfold MS_PER_DAY; lia|].
    apply (Z.mod_unique _ _ 1); lia.
Qed.

Lemma endOfWeek_sunday (d : Date) :
  endOfWeek d 1 = mondayOf d + 7 * MS_PER_DAY - 1.
Proof.
  unfold endOfWeek, endOfDay, mondayOf. rewrite startOfDay_addDays.
  pose proof (getDay_range d) as Hr.
  destruct (getDay d <? 1) eqn:Hd; [apply Z.ltb_lt in Hd|apply Z.ltb_ge in Hd].
  - replace (getDay d) with 0 by lia. change ((0 + 6) mod 7) with 6.
    unfold MS_PER_DAY; lia.
  - replace ((getDay d + 6) mod 7) with (getDay d - 1); [unfold MS_PER_DAY; lia|].
    apply (Z.mod_unique _ _ 1); lia.
Qed.

Lemma mondayOf_mod (d : Date) : mondayOf d mod MS_PER_DAY = 0.
Proof.
  unfold mondayOf. rewrite <- Z.add_opp_r, <- Z.mul_opp_l.
  unfold MS_PER_DAY. rewrite Z_mod_plus_full. apply startOfDay_mod.
Qed.

Lemma startOfDay_fixed (m : Date) : m mod MS_PER_DAY = 0 -> startOfDay m = m.
Proof. intros H. unfold startOfDay. rewrite H. lia. Qed.

(** [weekDays] are the seven days from Monday to Sunday. *)
Lemma weekDaysOf_mondayToSunday (referenceDate : Date) :
  weekDaysOf referenceDate = mondayToSunday referenceDate.
Proof.
  unfold weekDaysOf, mondayToSunday, eachDayOfInterval.
  rewrite startOfWeek_monday, endOfWeek_sunday.
  pose proof (mondayOf_mod referenceDate) as Hm.
  rewrite (startOfDay_fixed _ Hm).
  generalize dependent (mondayOf referenceDate). intros m Hm.
  replace ((m + 7 * MS_PER_DAY - 1 - m) / MS_PER_DAY + 1) with 7.
  2:{ unfold MS_PER_DAY. replace (m + 7 * 86400000 - 1 - m) with 604799999 by lia.
      reflexivity. }
  assert (Hstep : forall i, startOfDay (addDays (m + i * MS_PER_DAY) 1)
                            = m + (i + 1) * MS_PER_DAY).
  { intros i. rewrite startOfDay_addDays. rewrite startOfDay_fixed; [lia|].
    unfold MS_PER_DAY in *. rewrite Z_mod_plus_full. exact Hm. }
  assert (Hle : forall i, 0 <= i <= 6 ->
            (m + i * MS_PER_DAY <=? m + 7 * MS_PER_DAY - 1) = true).
  { intros i Hi. apply Z.leb_le. unfold MS_PER_DAY. lia. }
  change (Z.to_nat 7) with 7%nat. cbn [map].
  replace m with (m + 0 * MS_PER_DAY) at 1 by lia.
  cbn [eachDayLoop].
  repeat (rewrite Hle by lia; rewrite Hstep; cbn [Z.add Pos.add Pos.succ]).
  rewrite Hle by lia. reflexivity.
Qed.

Lemma getHours_setHours (day h : Z) :
  day mod MS_PER_DAY = 0 -> 0 <= h < 24 -> getHours (setHours day h) = h.
Proof.
  intros Hday Hh. unfold getHours, setHours.
  rewrite (startOfDay_fixed _ Hday).
  unfold MS_PER_DAY, MS_PER_HOUR in *.
  rewrite Zplus_mod, Hday, Z.add_0_l, Z.mod_mod by lia.
  rewrite Z.mod_small by lia. apply Z.div_mul. lia.
Qed.

Lemma weekDayStep_fold events p days : forall n sample,
  fold_left (weekDayStep events p) days (n, sample) =
  ((n + List.length (conflictFreeDays events days p))%nat,
   match sample with
   | Some s => Some s
   | None => option_map (probeSlot p) (hd_error (conflictFreeDays events days p))
   end).
Proof.
  induction days as [|day days IH]; intros n sample; simpl.
  - rewrite Nat.add_0_r. destruct sample; reflexivity.
  - destruct (negb _); simpl.
    + rewrite IH. f_equal; [lia|]. destruct sample; reflexivity.
    + apply IH.
Qed.

Lemma probeStep_patternOf events days acc p :
  probeStep events days acc p = acc ++ patternOf events days p.
Proof.
  unfold probeStep, patternOf. rewrite weekDayStep_fold. cbn [Nat.add].
  destruct (conflictFreeDays events days p) as [|day rest];
    cbn [hd_error option_map].
  - destruct (4 <=? _)%nat; symmetry; apply app_nil_r.
  - destruct (4 <=? _)%nat; [reflexivity|symmetry; apply app_nil_r].
Qed.

Lemma fold_probeStep events days probes : forall acc,
  fold_left (probeStep events days) probes acc =
  acc ++ flat_map (patternOf events days) probes.
Proof.
  induction probes as [|p probes IH]; intros acc; simpl.
  - symmetry. apply app_nil_r.
  - rewrite IH, probeStep_patternOf, app_assoc. reflexivity.
Qed.

Lemma patternOf_inv events days p s :
  In s (patternOf events days p) ->
  (4 <= List.length (conflictFreeDays events days p))%nat /\
  exists day rest, conflictFreeDays events days p = day :: rest /\ s = probeSlot p day.
Proof.
  unfold patternOf. destruct (4 <=? _)%nat eqn:H4; [|intros []].
  apply Nat.leb_le in H4. split; [exact H4|].
  destruct (conflictFreeDays events days p) as [|day rest]; [destruct H|].
  destruct H as [<-|[]]. exists day, rest. split; reflexivity.
Qed.

Lemma mondayToSunday_mod referenceDate day :
  In day (mondayToSunday referenceDate) -> day mod MS_PER_DAY = 0.
Proof.
  unfold mondayToSunday. intros H. apply in_map_iff in H as (i & <- & _).
  pose proof (mondayOf_mod referenceDate) as Hm.
  unfold MS_PER_DAY in *. rewrite Z_mod_plus_full. exact Hm.
Qed.

Lemma timeSlots_hours p :
  In p timeSlots -> 0 <= probeStart p < 24.
Proof.
  unfold timeSlots. simpl. intros H.
  repeat (destruct H as [<-|H]; [simpl; lia|]). destruct H.
Qed.

Lemma timeSlots_distinct p q :
  In p timeSlots -> In q timeSlots -> probeStart p = probeStart q -> p = q.
Proof.
  unfold timeSlots. simpl. intros Hp Hq.
  repeat (destruct Hp as [<-|Hp]);
    try (destruct Hp);
    repeat (destruct Hq as [<-|Hq]); try (destruct Hq);
    simpl; intros H; try reflexivity; discriminate H.
Qed.

(** The two nested loops, probe by probe, in the terms of the code. *)
Lemma weekly_pattern_loops events referenceDate :
  let week := mondayToSunday referenceDate in
  let result := findRecurringWeeklyPattern events referenceDate in
  weekDaysOf referenceDate = week /\
  getDay (mondayOf referenceDate) = 1 /\
  mondayOf referenceDate <= referenceDate < mondayOf referenceDate + 7 * MS_PER_DAY /\
  result = flat_map (patternOf events week) timeSlots /\
  forall p, In p timeSlots ->
    ((exists s, In s result /\ getHours (slotStart s) = probeStart p) <->
     (4 <= List.length (conflictFreeDays events week p))%nat).
Proof.
  intros week result.
  assert (Hres : result = flat_map (patternOf events week) timeSlots).
  { unfold result, findRecurringWeeklyPattern.
    rewrite weekDaysOf_mondayToSunday. apply (fold_probeStep events week timeSlots []). }
  split; [apply weekDaysOf_mondayToSunday|].
  split; [|split; [|split; [exact Hres|]]].
  - unfold mondayOf, getDay, startOfDay, MS_PER_DAY.
    pose proof (getDay_range referenceDate) as Hr. unfold getDay, MS_PER_DAY in Hr.
    Z.div_mod_to_equations. lia.
  - unfold mondayOf.
    pose proof (startOfDay_le referenceDate) as Hs.
    pose proof (Z.mod_pos_bound (getDay referenceDate + 6) 7 ltac:(lia)) as Hr.
    unfold MS_PER_DAY in *. split; [lia|].
    assert (getDay referenceDate = (referenceDate / 86400000 + 4) mod 7) by reflexivity.
    lia.
  - intros p Hp. rewrite Hres. split.
    + intros (s & Hs & Hhour). apply in_flat_map in Hs as (q & Hq & Hs).
      apply patternOf_inv in Hs as (H4 & day & rest & Hfree & ->).
      assert (Hday : In day week).
      { assert (Hin : In day (conflictFreeDays events week q))
          by (rewrite Hfree; left; reflexivity).
        apply filter_In in Hin. tauto. }
      simpl in Hhour. rewrite getHours_setHours in Hhour;
        [|apply (mondayToSunday_mod referenceDate), Hday|apply timeSlots_hours, Hq].
      rewrite (timeSlots_distinct p q Hp Hq (eq_sym Hhour)). exact H4.
    + intros H4. unfold patternOf at 1.
      destruct (conflictFreeDays events week p) as [|day rest] eqn:Hfree;
        [simpl in H4; lia|].
      exists (probeSlot p day). split.
      * apply in_flat_map. exists p. split; [exact Hp|].
        unfold patternOf. rewrite Hfree. apply Nat.leb_le in H4. rewrite H4.
        left. reflexivity.
      * simpl. apply getHours_setHours; [|apply timeSlots_hours, Hp].
        apply (mondayToSunday_mod referenceDate).
        assert (Hin : In day (conflictFreeDays events week p))
          by (rewrite Hfree; left; reflexivity).
        apply filter_In in Hin. tauto.
Qed.

Lemma forallb_negb_existsb {A} (f : A -> bool) (l : list A) :
  negb (existsb f l) = forallb (fun x => negb (f x)) l.
Proof.
  induction l as [|x l IH]; [reflexivity|]. simpl.
  rewrite negb_orb, IH. reflexivity.
Qed.

Lemma forallb_ext_in {A} (f g : A -> bool) (l : list A) :
  (forall x, In x l -> f x = g x) -> forallb f l = forallb g l.
Proof.
  induction l as [|x l IH]; intros H; [reflexivity|]. simpl.
  rewrite (H x) by (left; reflexivity). f_equal.
  apply IH. intros y Hy. apply H. right. exact Hy.
Qed.

Lemma flat_map_map {A B C} (f : A -> B) (g : B -> list C) (l : list A) :
  flat_map g (map f l) = flat_map (fun x => g (f x)) l.
Proof.
  induction l as [|x l IH]; [reflexivity|]. simpl. rewrite IH. reflexivity.
Qed.

Lemma flat_map_ext_on {A B} (f g : A -> list B) (l : list A) :
  (forall x, In x l -> f x = g x) -> flat_map f l = flat_map g l.
Proof.
  induction l as [|x l IH]; intros H; [reflexivity|]. simpl.
  rewrite (H x) by (left; reflexivity). f_equal.
  apply IH. intros y Hy. apply H. right. exact Hy.
Qed.

Lemma timeSlots_ordered p :
  In p timeSlots -> 0 <= probeStart p < 24 /\ probeStart p <= probeEnd p.
Proof.
  unfold timeSlots. simpl. intros H.
  repeat (destruct H as [<-|H]; [simpl; lia|]). destruct H.
Qed.

(** On a day that starts at midnight, for events that do not end before
    they start, the test of the code is the strict rule. *)
Lemma probeHasConflict_strict events p day :
  Forall endsAfterStart events -> In p timeSlots -> day mod MS_PER_DAY = 0 ->
  negb (probeHasConflict events (setHours day (probeStart p))
          (setHours day (probeEnd p)))
  = probeFree events (probeStart p) (probeEnd p) day.
Proof.
  intros Hvalid Hp Hday. unfold probeHasConflict, probeFree.
  rewrite forallb_negb_existsb. apply forallb_ext_in. intros e He.
  rewrite Forall_forall in Hvalid. specialize (Hvalid e He).
  destruct (timeSlots_ordered p Hp) as [_ Hle].
  unfold setHours. rewrite (startOfDay_fixed _ Hday).
  rewrite areIntervalsOverlapping_ordered;
    [reflexivity|unfold MS_PER_HOUR; lia|exact Hvalid].
Qed.

Lemma conflictFreeDays_strict events referenceDate p :
  Forall endsAfterStart events -> In p timeSlots ->
  conflictFreeDays events (mondayToSunday referenceDate) p
  = filter (probeFree events (probeStart p) (probeEnd p))
      (mondayToSunday referenceDate).
Proof.
  intros Hvalid Hp. unfold conflictFreeDays. apply filter_ext_in. intros day Hday.
  apply probeHasConflict_strict; [exact Hvalid|exact Hp|].
  apply (mondayToSunday_mod referenceDate), Hday.
Qed.

Lemma patternOf_weeklySlot events referenceDate p :
  Forall endsAfterStart events -> In p timeSlots ->
  patternOf events (mondayToSunday referenceDate) p
  = weeklySlot events (mondayToSunday referenceDate) (probeStart p, probeEnd p).
Proof.
  intros Hvalid Hp. unfold patternOf, weeklySlot.
  rewrite (conflictFreeDays_strict events referenceDate p Hvalid Hp).
  destruct (filter _ (mondayToSunday referenceDate)) as [|day rest] eqn:Hfree;
    [destruct (4 <=? _)%nat; reflexivity|].
  destruct (4 <=? _)%nat; [|reflexivity].
  assert (Hday : day mod MS_PER_DAY = 0).
  { apply (mondayToSunday_mod referenceDate).
    assert (Hin : In day (day :: rest)) by (left; reflexivity).
    rewrite <- Hfree in Hin. apply filter_In in Hin. tauto. }
  destruct (timeSlots_ordered p Hp) as [Hhour _].
  unfold probeSlot, getTimeOfDayType, timeOfDayOf.
  rewrite (getHours_setHours day (probeStart p) Hday Hhour).
  unfold setHours. rewrite (startOfDay_fixed _ Hday). reflexivity.
Qed.




(* ================================================================== *)
(** ** The event layout *)
(* ================================================================== *)

Lemma layoutFrom_inv total columns : forall columnIndex le,
  In le (layoutFrom total columnIndex columns) ->
  width le = (100 / ofNat total)%Q /\
  exists k column,
    nth_error columns k = Some column /\ In (layoutEvent le) column /\
    left le = ((ofNat (columnIndex + k) * 100) / ofNat total)%Q.
Proof.
  induction columns as [|column rest IH]; intros idx le; simpl; [intros []|].
  intros H. apply in_app_or in H as [H|H].
  - apply in_map_iff in H as (e & <- & He). simpl. split; [reflexivity|].
    exists O, column. rewrite Nat.add_0_r. repeat split; auto.
  - apply IH in H as (Hw & k & col & Hnth & Hin & Hleft). split; [exact Hw|].
    exists (S k), col. simpl. repeat split; auto.
    rewrite Hleft. replace (idx + S k)%nat with (S idx + k)%nat by lia. reflexivity.
Qed.

Lemma percent_bounds (k total : nat) :
  (k < total)%nat ->
  (0 <= (ofNat k * 100) / ofNat total)%Q /\ ((ofNat k * 100) / ofNat total <= 100)%Q.
Proof.
  intros Hk.
  assert (Hpos : (0 < ofNat total)%Q).
  { unfold ofNat, Qlt, inject_Z. simpl. lia. }
  split.
  - apply Qle_shift_div_l; [exact Hpos|].
    clear Hpos. unfold Qle, Qmult, ofNat, inject_Z. cbn [Qnum Qden Pos.mul]. lia.
  - apply Qle_shift_div_r; [exact Hpos|].
    clear Hpos. unfold Qle, Qmult, ofNat, inject_Z. cbn [Qnum Qden Pos.mul]. lia.
Qed.

Lemma width_bounds (total : nat) :
  (0 < total)%nat ->
  (0 <= 100 / ofNat total)%Q /\ (100 / ofNat total <= 100)%Q.
Proof.
  intros Hk.
  assert (Hpos : (0 < ofNat total)%Q).
  { unfold ofNat, Qlt, inject_Z. simpl. lia. }
  split.
  - apply Qle_shift_div_l; [exact Hpos|].
    clear Hpos. unfold Qle, Qmult, ofNat, inject_Z. cbn [Qnum Qden Pos.mul]. lia.
  - apply Qle_shift_div_r; [exact Hpos|].
    clear Hpos. unfold Qle, Qmult, ofNat, inject_Z. cbn [Qnum Qden Pos.mul]. lia.
Qed.

(** Three events that overlap one another get a column each. *)
Lemma three_overlapping_columns (a b c : CalendarEvent) :
  overlaps a b -> overlaps a c -> overlaps b c ->
  List.length (layoutColumns [a; b; c]) = 3%nat.
Proof.
  unfold overlaps. intros [Hab Hba] [Hac Hca] [Hbc Hcb].
  unfold layoutColumns, sortEventsByStartTime. cbn [fold_right insertByStart].
  destruct (startDate b <=? startDate c);
    cbn [insertByStart];
    destruct (startDate a <=? startDate b);
    cbn [insertByStart];
    try destruct (startDate a <=? startDate c);
    cbn [insertByStart fold_left];
    unfold placeEvent; cbn [placeInColumn fitsColumn lastOf app option_map];
    repeat match goal with
      | |- context [endDate ?x <=? startDate ?y] =>
          replace (endDate x <=? startDate y) with false
            by (symmetry; apply Z.leb_gt; lia);
          cbn [placeInColumn fitsColumn lastOf app option_map]
      end;
    reflexivity.
Qed.

(** C3 fails as worded: a single event gets the width 100, a percentage,
    which is neither [1 / totalColumns] nor in [[0,1]]. *)
Lemma layout_width_is_percentage :
  exists le,
    In le (calculateEventLayout [Scenario.standup]) /\
    List.length (layoutColumns [Scenario.standup]) = 1%nat /\
    ~ (width le == 1 / ofNat (List.length (layoutColumns [Scenario.standup])))%Q /\
    ~ (width le <= 1)%Q.
Proof.
  eexists. split; [left; reflexivity|]. split; [reflexivity|].
  split; vm_compute; intros H; [discriminate H|apply H; reflexivity].
Qed.

(** C3, amended: every [LayoutEvent] has [width = 100 / totalColumns] and
    [left = columnIndex * 100 / totalColumns], percentages of the day
    column, where [columnIndex] is the column the event was placed in and
    [totalColumns] the final number of columns; both lie in [[0,100]]; for
    three events that overlap one another the width of each is [100 / 3]. *)
Theorem layout_percentages events le :
  In le (calculateEventLayout events) ->
  let columns := layoutColumns events in
  let totalColumns := List.length columns in
  width le = (100 / ofNat totalColumns)%Q /\
  (exists columnIndex column,
     (columnIndex < totalColumns)%nat /\
     nth_error columns columnIndex = Some column /\
     In (layoutEvent le) column /\
     left le = ((ofNat columnIndex * 100) / ofNat totalColumns)%Q) /\
  (0 <= width le <= 100)%Q /\ (0 <= left le <= 100)%Q /\
  (forall a b c, events = [a; b; c] ->
     overlaps a b -> overlaps a c -> overlaps b c ->
     width le = (100 / 3)%Q).
Proof.
  intros Hin columns totalColumns. unfold calculateEventLayout in Hin.
  apply layoutFrom_inv in Hin as (Hw & k & column & Hnth & Hcol & Hleft).
  fold columns in Hnth, Hw, Hleft. fold totalColumns in Hw, Hleft.
  assert (Hk : (k < totalColumns)%nat).
  { apply nth_error_Some. rewrite Hnth. discriminate. }
  split; [exact Hw|]. split; [|split; [|split]].
  - exists k, column. repeat split; auto.
  - rewrite Hw. apply width_bounds. lia.
  - rewrite Hleft. apply percent_bounds. exact Hk.
  - intros a b c -> Hab Hac Hbc. rewrite Hw. unfold totalColumns, columns.
    rewrite (three_overlapping_columns a b c Hab Hac Hbc). reflexivity.
Qed.

(* ================================================================== *)
(** ** Sorting by start time *)
(* ================================================================== *)

Lemma insertByStart_perm e l : Permutation (insertByStart e l) (e :: l).
Proof.
  induction l as [|x l IH]; simpl; [reflexivity|].
  destruct (startDate e <=? startDate x); [reflexivity|].
  rewrite IH. apply perm_swap.
Qed.

Lemma sortEventsByStartTime_perm events :
  Permutation (sortEventsByStartTime events) events.
Proof.
  induction events as [|e l IH]; simpl; [reflexivity|].
  rewrite insertByStart_perm. constructor. exact IH.
Qed.

Lemma insertByStart_sorted e l :
  StronglySorted byStart l -> StronglySorted byStart (insertByStart e l).
Proof.
  induction 1 as [|x l Hl IH Hx]; simpl; [repeat constructor|].
  destruct (startDate e <=? startDate x) eqn:Hle.
  - apply Z.leb_le in Hle. constructor; [constructor; assumption|].
    constructor; [exact Hle|].
    eapply Forall_impl; [|exact Hx]. unfold byStart. intros; lia.
  - apply Z.leb_gt in Hle. constructor; [exact IH|].
    rewrite Forall_forall in *. intros y Hy.
    apply (Permutation_in _ (insertByStart_perm e l)) in Hy as [<-|Hy];
      [unfold byStart; lia|apply Hx, Hy].
Qed.

Lemma sortEventsByStartTime_sorted events :
  StronglySorted byStart (sortEventsByStartTime events).
Proof.
  induction events as [|e l IH]; simpl; [constructor|].
  apply insertByStart_sorted, IH.
Qed.

Lemma StronglySorted_before {A} (R : A -> A -> Prop) (l1 l2 : list A) (a : A) :
  StronglySorted R (l1 ++ a :: l2) -> Forall (fun x => R x a) l1.
Proof.
  induction l1 as [|x l1 IH]; simpl; intros H; [constructor|].
  inversion H as [|? ? Hs Hall]; subst. constructor; [|apply IH, Hs].
  rewrite Forall_forall in Hall. apply Hall, in_elt.
Qed.

Lemma StronglySorted_remove {A} (R : A -> A -> Prop) (l1 l2 : list A) (a : A) :
  StronglySorted R (l1 ++ a :: l2) -> StronglySorted R (l1 ++ l2).
Proof.
  induction l1 as [|x l1 IH]; simpl; intros H.
  - inversion H; assumption.
  - inversion H as [|? ? Hs Hall]; subst. constructor; [apply IH, Hs|].
    rewrite Forall_forall in *. intros y Hy. apply Hall.
    apply in_app_or in Hy as [Hy|Hy]; apply in_or_app; [left|right; right]; exact Hy.
Qed.

Lemma existsb_perm {A} (f : A -> bool) (l1 l2 : list A) :
  Permutation l1 l2 -> existsb f l1 = existsb f l2.
Proof.
  induction 1 as [|x l1 l2 _ IH|x y l|l1 l2 l3 _ IH1 _ IH2]; simpl.
  - reflexivity.
  - rewrite IH. reflexivity.
  - destruct (f x), (f y); reflexivity.
  - congruence.
Qed.

Lemma filter_perm {A} (f : A -> bool) (l1 l2 : list A) :
  Permutation l1 l2 -> Permutation (filter f l1) (filter f l2).
Proof.
  induction 1 as [|x l1 l2 _ IH|x y l|l1 l2 l3 _ IH1 _ IH2]; simpl.
  - reflexivity.
  - destruct (f x); [constructor|]; exact IH.
  - destruct (f x), (f y); try reflexivity. apply perm_swap.
  - etransitivity; eassumption.
Qed.

(* ================================================================== *)
(** ** Free slots against the events of the day *)
(* ================================================================== *)

Section WalkFacts.

Variable businessStart businessEnd : Date.
Variable minDuration : Z.
Hypothesis business_hours : businessStart <= businessEnd.

Lemma clampedStart_ge e : businessStart <= clampedStart businessStart e.
Proof.
  unfold clampedStart. destruct (_ <? _) eqn:H; [|apply Z.ltb_ge in H]; lia.
Qed.

Lemma clampedStart_mono a b :
  byStart a b -> clampedStart businessStart a <= clampedStart businessStart b.
Proof.
  unfold byStart, clampedStart. intros H.
  destruct (startDate a <? _) eqn:Ha, (startDate b <? _) eqn:Hb;
    rewrite ?Z.ltb_lt, ?Z.ltb_ge in *; lia.
Qed.

Lemma clampedStart_le_end e :
  wellPlaced businessEnd e -> clampedStart businessStart e <= businessEnd.
Proof.
  unfold wellPlaced, clampedStart. intros [_ H].
  destruct (_ <? _); lia.
Qed.

Lemma clampedEnd_le e : clampedEnd businessEnd e <= businessEnd.
Proof.
  unfold clampedEnd. destruct (_ <? _) eqn:H; [|apply Z.ltb_ge in H]; lia.
Qed.

(** Past the window start, a well-placed event moves the cursor at least
    to its own clamped start. *)
Lemma nextCursor_reaches_start c e :
  businessStart <= c -> wellPlaced businessEnd e ->
  clampedStart businessStart e <= nextCursor businessEnd c e.
Proof.
  intros Hc [Hv Hb]. rewrite nextCursor_max.
  unfold clampedStart, clampedEnd.
  destruct (startDate e <? _) eqn:Hs, (businessEnd <? _) eqn:He;
    rewrite ?Z.ltb_lt, ?Z.ltb_ge in *; lia.
Qed.

Lemma pushGap_cases from to :
  pushGap minDuration from to [] = [] /\
    (to <= from \/ differenceInMinutes to from < minDuration) \/
  pushGap minDuration from to []
    = [mkSlot from to (differenceInMinutes to from) (getTimeOfDayType from)] /\
    from < to /\ minDuration <= differenceInMinutes to from.
Proof.
  unfold pushGap. destruct (from <? to) eqn:H1;
    [apply Z.ltb_lt in H1|apply Z.ltb_ge in H1; left; split; [reflexivity|lia]].
  destruct (minDuration <=? _) eqn:H2;
    [apply Z.leb_le in H2|apply Z.leb_gt in H2].
  - right. repeat split; assumption.
  - left. split; [reflexivity|right; assumption].
Qed.

(** The slots are well formed, lie in the window, and follow one another
    without overlap. *)
Lemma gapsFrom_slots dayEvents : forall c,
  businessStart <= c ->
  StronglySorted byStart dayEvents -> Forall (wellPlaced businessEnd) dayEvents ->
  StronglySorted slotBefore (gapsFrom businessStart businessEnd minDuration c dayEvents) /\
  Forall (goodSlot businessEnd minDuration c) (gapsFrom businessStart businessEnd minDuration c dayEvents).
Proof.
  induction dayEvents as [|e l IH]; intros c Hc Hsorted Hwp; simpl.
  - destruct (pushGap_cases c businessEnd) as [[-> _]|(-> & Hlt & Hmin)].
    + split; constructor.
    + split; [repeat constructor|]. constructor; [|constructor].
      unfold goodSlot. simpl. repeat split; try lia.
  - inversion Hsorted as [|? ? Hs Hall]; subst.
    inversion Hwp as [|? ? He Hl]; subst.
    pose proof (nextCursor_reaches_start c e Hc He) as Hreach.
    pose proof (nextCursor_ge businessEnd c e) as Hge.
    destruct (IH (nextCursor businessEnd c e) ltac:(lia) Hs Hl) as [IH1 IH2].
    assert (Hweaken : Forall (goodSlot businessEnd minDuration c)
              (gapsFrom businessStart businessEnd minDuration
                 (nextCursor businessEnd c e) l)).
    { eapply Forall_impl; [|exact IH2]. unfold goodSlot. intros s Hs'.
      repeat split; try tauto. lia. }
    destruct (pushGap_cases c (clampedStart businessStart e))
      as [[-> _]|(-> & Hlt & Hmin)]; simpl.
    + split; assumption.
    + split.
      * constructor; [exact IH1|].
        eapply Forall_impl; [|exact IH2]. unfold goodSlot, slotBefore. simpl.
        intros s Hs'. lia.
      * constructor; [|exact Hweaken].
        unfold goodSlot. simpl. pose proof (clampedStart_le_end e He).
        repeat split; try lia.
Qed.

(** No slot meets an event of the day. *)
Lemma gapsFrom_disjoint dayEvents : forall c s e t,
  StronglySorted byStart dayEvents ->
  In s (gapsFrom businessStart businessEnd minDuration c dayEvents) ->
  In e dayEvents -> inSlot t s -> ~ inEvent businessStart businessEnd t e.
Proof.
  induction dayEvents as [|x l IH]; intros c s e t Hsorted Hs He; [destruct He|].
  inversion Hsorted as [|? ? Hsl Hall]; subst. rewrite Forall_forall in Hall.
  simpl in Hs. unfold inSlot, inEvent. apply in_app_or in Hs as [Hs|Hs].
  - apply pushGap_inv in Hs as (-> & _). simpl.
    assert (clampedStart businessStart x <= clampedStart businessStart e).
    { destruct He as [<-|He]; [lia|]. apply clampedStart_mono, Hall, He. }
    lia.
  - destruct He as [<-|He]; [|apply (IH _ _ _ _ Hsl Hs He)].
    pose proof (gapsFrom_start_ge businessStart businessEnd minDuration l
                  (nextCursor businessEnd c x)) as Hge.
    rewrite Forall_forall in Hge. specialize (Hge _ Hs).
    rewrite nextCursor_max in Hge. lia.
Qed.

(** From the cursor on, every instant of the window is in a slot, in an
    event, or in a gap too short to be a slot. *)
Lemma gapsFrom_covers allEvents dayEvents : forall c,
  businessStart <= c ->
  StronglySorted byStart dayEvents -> Forall (wellPlaced businessEnd) dayEvents ->
  incl dayEvents allEvents ->
  (forall e, In e allEvents -> clampedEnd businessEnd e <= c \/ In e dayEvents) ->
  (c = businessStart \/ exists e, In e allEvents /\ clampedEnd businessEnd e = c) ->
  forall t, c <= t < businessEnd ->
    (exists s, In s (gapsFrom businessStart businessEnd minDuration c dayEvents)
               /\ inSlot t s) \/
    (exists e, In e allEvents /\ inEvent businessStart businessEnd t e) \/
    inShortGap businessStart businessEnd minDuration allEvents t.
Proof.
  induction dayEvents as [|e l IH]; intros c Hc Hsorted Hwp Hincl Hdone Hcur t Ht;
    simpl.
  - destruct (pushGap_cases c businessEnd) as [[-> Hshort]|(-> & Hlt & Hmin)].
    + right. right. exists c, businessEnd.
      split; [lia|]. split; [lia|]. split; [lia|]. split; [lia|].
      split; [exact Hcur|]. split; [left; reflexivity|].
      intros u e0 Hu He0. unfold inEvent.
      destruct (Hdone _ He0) as [Hend|[]]. lia.
    + left. eexists. split; [left; reflexivity|]. unfold inSlot. simpl. lia.
  - inversion Hsorted as [|? ? Hs Hall]; subst. rewrite Forall_forall in Hall.
    inversion Hwp as [|? ? He Hl]; subst.
    assert (Hein : In e allEvents) by (apply Hincl; left; reflexivity).
    pose proof (nextCursor_ge businessEnd c e) as Hge.
    destruct (Z_lt_le_dec t (clampedStart businessStart e)) as [Hbefore|Hafter].
    + destruct (pushGap_cases c (clampedStart businessStart e))
        as [[-> Hshort]|(-> & Hlt & Hmin)].
      * right. right. exists c, (clampedStart businessStart e).
        pose proof (clampedStart_le_end e He).
        split; [lia|]. split; [lia|]. split; [lia|]. split; [lia|].
        split; [exact Hcur|].
        split; [right; exists e; split; [exact Hein|reflexivity]|].
        intros u e0 Hu He0. unfold inEvent.
        destruct (Hdone _ He0) as [Hend|[<-|Hin]]; [lia|lia|].
        pose proof (clampedStart_mono e e0 (Hall _ Hin)). lia.
      * left. eexists. split; [left; reflexivity|]. unfold inSlot. simpl. lia.
    + destruct (Z_lt_le_dec t (clampedEnd businessEnd e)) as [Hin|Hpast].
      * right. left. exists e. split; [exact Hein|]. unfold inEvent. lia.
      * assert (Hnext : nextCursor businessEnd c e <= t)
          by (rewrite nextCursor_max; lia).
        destruct (IH (nextCursor businessEnd c e) ltac:(lia) Hs Hl) with (t := t)
          as [(s & Hs' & Hts)|Hrest].
        -- intros x Hx. apply Hincl. right. exact Hx.
        -- intros e0 He0. destruct (Hdone _ He0) as [Hend|[<-|Hin]];
             [left; lia|left; rewrite nextCursor_max; lia|right; exact Hin].
        -- rewrite nextCursor_max.
           destruct (Z.max_spec c (clampedEnd businessEnd e)) as [[_ ->]|[_ ->]];
             [right; exists e; split; [exact Hein|reflexivity]|exact Hcur].
        -- lia.
        -- left. exists s. split; [apply in_or_app; right; exact Hs'|exact Hts].
        -- right. exact Hrest.
Qed.

End WalkFacts.

Lemma business_window (d : Date) : businessStartOf d <= businessEndOf d.
Proof. unfold businessStartOf, businessEndOf, setHours, MS_PER_HOUR. lia. Qed.

Lemma findFreeTimeSlots_slots events targetDate minDuration :
  allFreeSlots (findFreeTimeSlots events targetDate minDuration) =
  gapsFrom (businessStartOf targetDate) (businessEndOf targetDate) minDuration
    (businessStartOf targetDate)
    (sortEventsByStartTime
       (filter (fun e : CalendarEvent => isSameDay (startDate e) targetDate) events)).
Proof.
  unfold findFreeTimeSlots. cbn [allFreeSlots]. apply collectFreeSlots_gapsFrom.
Qed.

Lemma inShortGap_same_events bs be minDuration l1 l2 t :
  (forall e, In e l1 -> In e l2) -> (forall e, In e l2 -> In e l1) ->
  inShortGap bs be minDuration l1 t -> inShortGap bs be minDuration l2 t.
Proof.
  intros H12 H21 (a & b & Ht & Ha & Hb & Hd & Hleft & Hright & Hfree).
  exists a, b. split; [exact Ht|]. split; [exact Ha|]. split; [exact Hb|].
  split; [exact Hd|]. split; [|split].
  - destruct Hleft as [->|(e & He & <-)]; [left; reflexivity|].
    right. exists e. split; [apply H12, He|reflexivity].
  - destruct Hright as [->|(e & He & <-)]; [left; reflexivity|].
    right. exists e. split; [apply H12, He|reflexivity].
  - intros u e Hu He. apply (Hfree u e Hu), H21, He.
Qed.

(** C1 fails: with one event from 08:30 to 18:00 and the default minimum
    of 60 minutes, the half hour from 08:00 is in no slot and in no
    event. *)
Lemma short_gap_left_uncovered :
  let events := [Scenario.workshop] in
  let day := Scenario.midnight in
  allFreeSlots (findFreeTimeSlots events day defaultMinDuration) = [] /\
  coverCount events day defaultMinDuration (Scenario.atTime Scenario.friday 8 0) = O /\
  ~ partitionsBusinessWindow events day defaultMinDuration.
Proof.
  split; [reflexivity|]. split; [reflexivity|].
  intros (_ & _ & H).
  specialize (H (Scenario.atTime Scenario.friday 8 0)
                ltac:(vm_compute; split; [discriminate|reflexivity])).
  vm_compute in H. discriminate H.
Qed.

(** C1, amended: when no event of the target day ends before it starts or
    starts after 18:00, the slots of [allFreeSlots] follow one another
    without overlap, each lies in the business window and lasts at least
    [minDuration] whole minutes, no slot meets a clamped event of the day,
    and every instant of the window is in a slot, in a clamped event of
    the day, or in a gap between events (or the ends of the window) that is
    shorter than [minDuration] minutes. *)
Theorem free_slots_fill_long_gaps events targetDate minDuration :
  let businessStart := businessStartOf targetDate in
  let businessEnd := businessEndOf targetDate in
  let dayEvents :=
    filter (fun e : CalendarEvent => isSameDay (startDate e) targetDate) events in
  let slots := allFreeSlots (findFreeTimeSlots events targetDate minDuration) in
  Forall (wellPlaced businessEnd) dayEvents ->
  StronglySorted slotBefore slots /\
  Forall (goodSlot businessEnd minDuration businessStart) slots /\
  (forall s e t, In s slots -> In e dayEvents -> inSlot t s ->
     ~ inEvent businessStart businessEnd t e) /\
  (forall t, businessStart <= t < businessEnd ->
     (exists s, In s slots /\ inSlot t s) \/
     (exists e, In e dayEvents /\ inEvent businessStart businessEnd t e) \/
     inShortGap businessStart businessEnd minDuration dayEvents t).
Proof.
  intros bs be dayEvents slots Hwp.
  unfold slots. rewrite findFreeTimeSlots_slots. fold bs be dayEvents.
  pose proof (sortEventsByStartTime_perm dayEvents) as Hperm.
  pose proof (sortEventsByStartTime_sorted dayEvents) as Hsorted.
  assert (Hwp' : Forall (wellPlaced be) (sortEventsByStartTime dayEvents)).
  { rewrite Forall_forall in *. intros e He. apply Hwp.
    apply (Permutation_in _ Hperm), He. }
  pose proof (business_window targetDate) as Hbh. fold bs be in Hbh.
  destruct (gapsFrom_slots bs be minDuration Hbh _ bs (Z.le_refl _) Hsorted Hwp')
    as [H1 H2].
  split; [exact H1|]. split; [exact H2|]. split.
  - intros s e t Hs He. apply (gapsFrom_disjoint bs be minDuration _ bs s e t Hsorted Hs).
    apply (Permutation_in _ (Permutation_sym Hperm)), He.
  - intros t Ht.
    destruct (gapsFrom_covers bs be minDuration Hbh
                (sortEventsByStartTime dayEvents) (sortEventsByStartTime dayEvents)
                bs (Z.le_refl _) Hsorted Hwp' (incl_refl _)
                (fun e He => or_intror He) (or_introl eq_refl) t Ht)
      as [Hslot|[(e & He & Hin)|Hgap]].
    + left. exact Hslot.
    + right. left. exists e. split; [|exact Hin].
      apply (Permutation_in _ Hperm), He.
    + right. right. revert Hgap. apply inShortGap_same_events; intros e He.
      * apply (Permutation_in _ Hperm), He.
      * apply (Permutation_in _ (Permutation_sym Hperm)), He.
Qed.

(* ================================================================== *)
(** ** Independence of the order of the events *)
(* ================================================================== *)

Section OrderIndependence.

Variable businessStart businessEnd : Date.
Variable minDuration : Z.

Let gaps := gapsFrom businessStart businessEnd minDuration.

Lemma pushGap_nil from to : to <= from -> pushGap minDuration from to [] = [].
Proof.
  intros H. unfold pushGap. apply Z.ltb_ge in H. rewrite H. reflexivity.
Qed.

(** Two events with the same start leave the same slots and the same
    cursor, whichever is visited first. *)
Lemma gaps_swap_equal_start c x y rest :
  businessStart <= c -> endsAfterStart x -> endsAfterStart y ->
  startDate x = startDate y ->
  gaps c (x :: y :: rest) = gaps c (y :: x :: rest).
Proof.
  unfold gaps, endsAfterStart. intros Hc Hx Hy Hxy. cbn [gapsFrom].
  assert (Hs : clampedStart businessStart x = clampedStart businessStart y)
    by (unfold clampedStart; rewrite Hxy; reflexivity).
  rewrite Hs, !nextCursor_max.
  replace (Z.max (Z.max c (clampedEnd businessEnd x)) (clampedEnd businessEnd y))
    with (Z.max (Z.max c (clampedEnd businessEnd y)) (clampedEnd businessEnd x))
    by lia.
  f_equal. f_equal.
  destruct (Z_lt_le_dec c (clampedStart businessStart y)) as [Hlt|Hge].
  - destruct (Z_lt_le_dec businessEnd (startDate y)) as [Hlate|Hin].
    + replace (clampedEnd businessEnd x) with businessEnd;
        [replace (clampedEnd businessEnd y) with businessEnd; [reflexivity|]|];
        unfold clampedEnd.
      * destruct (businessEnd <? endDate y) eqn:H; [reflexivity|].
        apply Z.ltb_ge in H. lia.
      * destruct (businessEnd <? endDate x) eqn:H; [reflexivity|].
        apply Z.ltb_ge in H. lia.
    + assert (Hsy : clampedStart businessStart y = startDate y).
      { revert Hlt. unfold clampedStart.
        destruct (startDate y <? businessStart); lia. }
      rewrite !pushGap_nil; [reflexivity| |]; unfold clampedEnd;
        destruct (businessEnd <? endDate x), (businessEnd <? endDate y); lia.
  - rewrite !pushGap_nil; [reflexivity|lia|lia].
Qed.

(** An event can be visited before the events of the same start that
    precede it. *)
Lemma gaps_move_to_front a before after : forall c,
  businessStart <= c -> endsAfterStart a ->
  Forall (fun x => endsAfterStart x /\ startDate x = startDate a) before ->
  gaps c (before ++ a :: after) = gaps c (a :: before ++ after).
Proof.
  induction before as [|x before IH]; intros c Hc Ha Hall; [reflexivity|].
  inversion Hall as [|? ? [Hx Hxa] Hrest]; subst.
  change (gaps c ((x :: before) ++ a :: after))
    with (pushGap minDuration c (clampedStart businessStart x) []
          ++ gaps (nextCursor businessEnd c x) (before ++ a :: after)).
  rewrite IH; [|pose proof (nextCursor_ge businessEnd c x); lia|exact Ha|exact Hrest].
  change (pushGap minDuration c (clampedStart businessStart x) []
          ++ gaps (nextCursor businessEnd c x) (a :: before ++ after))
    with (gaps c (x :: a :: before ++ after)).
  apply gaps_swap_equal_start; assumption.
Qed.

(** Two sorted arrangements of the same events leave the same slots. *)
Lemma gaps_sorted_perm l1 : forall l2 c,
  businessStart <= c ->
  Permutation l1 l2 -> Forall endsAfterStart l1 ->
  StronglySorted byStart l1 -> StronglySorted byStart l2 ->
  gaps c l1 = gaps c l2.
Proof.
  induction l1 as [|a l1 IH]; intros l2 c Hc Hperm Hvalid Hs1 Hs2.
  - apply Permutation_nil in Hperm. subst. reflexivity.
  - assert (Hin : In a l2) by (apply (Permutation_in _ Hperm); left; reflexivity).
    apply in_split in Hin as (before & after & ->).
    inversion Hs1 as [|? ? Hs1' Hmin]; subst.
    inversion Hvalid as [|? ? Ha Hvalid']; subst.
    assert (Hbefore : Forall (fun x => endsAfterStart x /\ startDate x = startDate a)
                        before).
    { pose proof (StronglySorted_before _ _ _ _ Hs2) as Hle.
      rewrite Forall_forall in *. intros x Hx. specialize (Hle _ Hx).
      assert (Hx2 : In x (a :: l1)).
      { apply (Permutation_in _ (Permutation_sym Hperm)), in_or_app. left. exact Hx. }
      split; [apply Hvalid, Hx2|].
      destruct Hx2 as [<-|Hx1]; [reflexivity|].
      specialize (Hmin _ Hx1). unfold byStart in *. lia. }
    rewrite gaps_move_to_front by assumption.
    unfold gaps. cbn [gapsFrom]. f_equal.
    apply IH.
    + pose proof (nextCursor_ge businessEnd c a). lia.
    + apply Permutation_cons_app_inv with a. exact Hperm.
    + exact Hvalid'.
    + exact Hs1'.
    + apply StronglySorted_remove with a. exact Hs2.
Qed.

End OrderIndependence.

Lemma weeklyPattern_perm events1 events2 referenceDate :
  Permutation events1 events2 ->
  findRecurringWeeklyPattern events1 referenceDate =
  findRecurringWeeklyPattern events2 referenceDate.
Proof.
  intros Hperm. unfold findRecurringWeeklyPattern.
  rewrite !fold_probeStep. cbn [app]. apply flat_map_ext. intros p.
  assert (Hfree : conflictFreeDays events1 (weekDaysOf referenceDate) p
                  = conflictFreeDays events2 (weekDaysOf referenceDate) p).
  { apply filter_ext. intros day. unfold probeHasConflict.
    rewrite (existsb_perm _ _ _ Hperm). reflexivity. }
  unfold patternOf. rewrite Hfree. reflexivity.
Qed.

(** C8, amended: two lists of events that are permutations of each other, none of
    whose events ends before it starts, give the same result on every
    target day and for every minimum duration: the same [allFreeSlots],
    [longestFreeBlock], [nextAvailableHour] and [recurringWeeklyPattern]. *)
Theorem free_time_independent_of_order events1 events2 targetDate minDuration :
  Permutation events1 events2 ->
  Forall endsAfterStart events1 ->
  findFreeTimeSlots events1 targetDate minDuration =
  findFreeTimeSlots events2 targetDate minDuration.
Proof.
  intros Hperm Hvalid.
  assert (Hslots :
    allFreeSlots (findFreeTimeSlots events1 targetDate minDuration) =
    allFreeSlots (findFreeTimeSlots events2 targetDate minDuration)).
  { rewrite !findFreeTimeSlots_slots.
    apply gaps_sorted_perm.
    - lia.
    - rewrite !sortEventsByStartTime_perm. apply filter_perm, Hperm.
    - rewrite Forall_forall in *. intros e He.
      apply (Permutation_in _ (sortEventsByStartTime_perm _)) in He.
      apply filter_In in He. apply Hvalid, He.
    - apply sortEventsByStartTime_sorted.
    - apply sortEventsByStartTime_sorted. }
  pose proof (weeklyPattern_perm _ _ targetDate Hperm) as Hweek.
  unfold findFreeTimeSlots in *. cbn [allFreeSlots] in Hslots.
  rewrite Hslots, Hweek. reflexivity.
Qed.

Lemma free_time_independent_of_order_witness :
  Permutation Scenario.lateFirst (rev Scenario.lateFirst) /\
  Forall endsAfterStart Scenario.lateFirst /\
  findFreeTimeSlots Scenario.lateFirst Scenario.midnight defaultMinDuration =
  findFreeTimeSlots (rev Scenario.lateFirst) Scenario.midnight defaultMinDuration.
Proof.
  assert (Hperm : Permutation Scenario.lateFirst (rev Scenario.lateFirst))
    by apply perm_swap.
  assert (Hvalid : Forall endsAfterStart Scenario.lateFirst)
    by (repeat constructor; vm_compute; discriminate).
  split; [exact Hperm|]. split; [exact Hvalid|].
  exact (free_time_independent_of_order _ _ Scenario.midnight defaultMinDuration
           Hperm Hvalid).
Defined.

(** C8 fails on an entry that ends before it starts: listed before a
    meeting of the same start it leaves the cursor at its own end, and the
    hour before the meeting is pushed as a second slot; listed after, it
    changes nothing. *)
Lemma order_matters_for_inverted_event :
  let inverted_first := [Scenario.weekLong; Scenario.inverted; Scenario.meeting] in
  let inverted_last := [Scenario.weekLong; Scenario.meeting; Scenario.inverted] in
  Permutation inverted_first inverted_last /\
  List.length (allFreeSlots (findFreeTimeSlots inverted_first Scenario.midnight
                               defaultMinDuration)) = 3%nat /\
  List.length (allFreeSlots (findFreeTimeSlots inverted_last Scenario.midnight
                               defaultMinDuration)) = 2%nat /\
  findFreeTimeSlots inverted_first Scenario.midnight defaultMinDuration <>
  findFreeTimeSlots inverted_last Scenario.midnight defaultMinDuration.
Proof.
  split; [constructor; apply perm_swap|]. split; [reflexivity|]. split; [reflexivity|].
  intros H. apply (f_equal (fun r => List.length (allFreeSlots r))) in H.
  vm_compute in H. discriminate H.
Qed.

Lemma free_slots_fill_long_gaps_witness :
  Forall (wellPlaced (businessEndOf Scenario.midnight))
    (filter (fun e : CalendarEvent => isSameDay (startDate e) Scenario.midnight)
       [Scenario.lunch]) /\
  StronglySorted slotBefore
    (allFreeSlots (findFreeTimeSlots [Scenario.lunch] Scenario.midnight
                     defaultMinDuration)) /\
  List.length (allFreeSlots (findFreeTimeSlots [Scenario.lunch] Scenario.midnight
                               defaultMinDuration)) = 2%nat.
Proof.
  assert (Hwp : Forall (wellPlaced (businessEndOf Scenario.midnight))
            (filter (fun e : CalendarEvent => isSameDay (startDate e) Scenario.midnight)
               [Scenario.lunch])).
  { assert (Hf : filter (fun e : CalendarEvent =>
                           isSameDay (startDate e) Scenario.midnight) [Scenario.lunch]
                 = [Scenario.lunch]) by reflexivity.
    rewrite Hf. constructor; [|constructor]. split; vm_compute; discriminate. }
  split; [exact Hwp|]. split; [|reflexivity].
  exact (proj1 (free_slots_fill_long_gaps [Scenario.lunch] Scenario.midnight
                  defaultMinDuration Hwp)).
Defined.

Lemma layout_percentages_witness :
  exists le,
    In le (calculateEventLayout Scenario.threeOverlapping) /\
    width le = (100 / 3)%Q /\ (0 <= left le <= 100)%Q.
Proof.
  eexists.
  assert (Hin : In (mkLayout (Scenario.event "2" "Second"
                                (Scenario.atTime Scenario.friday 10 30)
                                (Scenario.atTime Scenario.friday 11 30))
                      (100 # 3) (100 # 3))
                   (calculateEventLayout Scenario.threeOverlapping))
    by (right; left; reflexivity).
  split; [exact Hin|].
  destruct (layout_percentages _ _ Hin) as (_ & _ & _ & Hleft & Hthree).
  split; [|exact Hleft].
  apply (Hthree _ _ _ eq_refl); split; vm_compute; reflexivity.
Defined.

(** The scenarios of the specification for free time and layout. *)
Example lunch_day_free_slots :
  let result := findFreeTimeSlots [Scenario.lunch] Scenario.midnight defaultMinDuration in
  allFreeSlots result =
    [ mkSlot (Scenario.atTime Scenario.friday 8 0) (Scenario.atTime Scenario.friday 12 0)
        240 morning;
      mkSlot (Scenario.atTime Scenario.friday 13 30) (Scenario.atTime Scenario.friday 18 0)
        270 afternoon ] /\
  longestFreeBlock result =
    Some (mkSlot (Scenario.atTime Scenario.friday 13 30)
            (Scenario.atTime Scenario.friday 18 0) 270 afternoon).
Proof. split; reflexivity. Qed.

Example three_overlapping_layout :
  map (fun le => (width le, left le)) (calculateEventLayout Scenario.threeOverlapping) =
  [ ((100 # 3)%Q, (0 # 3)%Q); ((100 # 3)%Q, (100 # 3)%Q); ((100 # 3)%Q, (200 # 3)%Q) ].
Proof. reflexivity. Qed.

(** An event that starts after 18:00 pushes a slot that runs past the
    business window: its start is not clamped. *)
Example evening_event_slot_passes_window :
  allFreeSlots
    (findFreeTimeSlots
       [Scenario.event "1" "Dinner" (Scenario.atTime Scenario.friday 19 0)
          (Scenario.atTime Scenario.friday 20 0)]
       Scenario.midnight defaultMinDuration) =
  [ mkSlot (Scenario.atTime Scenario.friday 8 0) (Scenario.atTime Scenario.friday 19 0)
      660 morning ].
Proof. reflexivity. Qed.

(* ================================================================== *)
(** ** Trimming *)
(* ================================================================== *)

Lemma append_assoc (a b c : string) :
  ((a ++ b) ++ c)%string = (a ++ (b ++ c))%string.
Proof. induction a as [|x a IH]; simpl; [reflexivity|]. rewrite IH. reflexivity. Qed.

Lemma revString_app (s acc : string) :
  revString s acc = (revString s EmptyString ++ acc)%string.
Proof.
  revert acc. induction s as [|c s IH]; intros acc; simpl; [reflexivity|].
  rewrite IH, (IH (String c EmptyString)), append_assoc. reflexivity.
Qed.

Lemma append_empty_r (s : string) : (s ++ EmptyString)%string = s.
Proof. induction s as [|c s IH]; simpl; [reflexivity|]. rewrite IH. reflexivity. Qed.

Lemma revString_append (a b : string) :
  revString (a ++ b) EmptyString
  = (revString b EmptyString ++ revString a EmptyString)%string.
Proof.
  induction a as [|c a IH]; simpl.
  - symmetry. apply append_empty_r.
  - rewrite revString_app, IH, (revString_app a (String c EmptyString)).
    apply append_assoc.
Qed.

Lemma revString_involutive (s : string) :
  revString (revString s EmptyString) EmptyString = s.
Proof.
  induction s as [|c s IH]; simpl; [reflexivity|].
  rewrite (revString_app s (String c EmptyString)), revString_append, IH.
  reflexivity.
Qed.

Lemma length_append (a b : string) :
  String.length (a ++ b) = (String.length a + String.length b)%nat.
Proof. induction a as [|c a IH]; simpl; [reflexivity|]. rewrite IH. reflexivity. Qed.

Lemma length_revString (s : string) :
  String.length (revString s EmptyString) = String.length s.
Proof.
  induction s as [|c s IH]; simpl; [reflexivity|].
  rewrite (revString_app s (String c EmptyString)), length_append, IH. simpl. lia.
Qed.

Lemma codeUnits_append (a b : string) :
  codeUnits (a ++ b) = (codeUnits a + codeUnits b)%nat.
Proof. induction a as [|c a IH]; simpl; [reflexivity|]. rewrite IH. lia. Qed.

Lemma codeUnits_revString (s : string) :
  codeUnits (revString s EmptyString) = codeUnits s.
Proof.
  induction s as [|c s IH]; [reflexivity|]. simpl.
  rewrite (revString_app s (String c EmptyString)), codeUnits_append, IH. simpl. lia.
Qed.

Lemma revString_empty (s : string) : revString s EmptyString = EmptyString -> s = EmptyString.
Proof.
  intros H. rewrite <- (revString_involutive s), H. reflexivity.
Qed.

Lemma string_length_ind (P : string -> Prop) :
  (forall s, (forall t, (String.length t < String.length s)%nat -> P t) -> P s) ->
  forall s, P s.
Proof.
  intros step s. remember (String.length s) as n eqn:Hn. revert s Hn.
  induction n as [n IH] using lt_wf_ind. intros s ->.
  apply step. intros t Ht. exact (IH (String.length t) Ht t eq_refl).
Qed.

Section Strip.

Variable w1 : ascii -> bool.
Variable w2 : ascii -> ascii -> bool.
Variable w3 : ascii -> ascii -> ascii -> bool.

(** What is dropped is a prefix, made of the characters recognised. *)
Lemma strip_prefix_of (B : string -> Prop) :
  B EmptyString ->
  (forall a s, w1 a = true -> B s -> B (String a s)) ->
  (forall a b s, w2 a b = true -> B s -> B (String a (String b s))) ->
  (forall a b c s, w3 a b c = true -> B s -> B (String a (String b (String c s)))) ->
  forall s, exists w, B w /\ s = (w ++ stripStart w1 w2 w3 s)%string.
Proof.
  intros B0 B1 B2 B3 s. induction s as [s IH] using string_length_ind.
  destruct s as [|a rest1]; [exists EmptyString; split; [exact B0|reflexivity]|].
  cbn [stripStart]. destruct (w1 a) eqn:H1.
  { destruct (IH rest1 ltac:(simpl; lia)) as (w & Hw & Heq).
    exists (String a w). split; [apply B1; assumption|].
    simpl. rewrite <- Heq. reflexivity. }
  destruct rest1 as [|b rest2]; [exists EmptyString; split; [exact B0|reflexivity]|].
  destruct (w2 a b) eqn:H2.
  { destruct (IH rest2 ltac:(simpl; lia)) as (w & Hw & Heq).
    exists (String a (String b w)). split; [apply B2; assumption|].
    simpl. rewrite <- Heq. reflexivity. }
  destruct rest2 as [|c rest3]; [exists EmptyString; split; [exact B0|reflexivity]|].
  destruct (w3 a b c) eqn:H3.
  { destruct (IH rest3 ltac:(simpl; lia)) as (w & Hw & Heq).
    exists (String a (String b (String c w))). split; [apply B3; assumption|].
    simpl. rewrite <- Heq. reflexivity. }
  exists EmptyString. split; [exact B0|reflexivity].
Qed.

Lemma strip_prefix (s : string) : exists w, s = (w ++ stripStart w1 w2 w3 s)%string.
Proof.
  destruct (strip_prefix_of (fun _ => True)) with (s := s) as (w & _ & Hw); auto.
  exists w. exact Hw.
Qed.

Lemma strip_not_longer (s u : string) :
  stripStart w1 w2 w3 s = u -> (String.length u <= String.length s)%nat.
Proof.
  intros <-. destruct (strip_prefix s) as [w Hw].
  rewrite Hw at 2. rewrite length_append. lia.
Qed.

(** Stripping twice is stripping once. *)
Lemma strip_idempotent (s : string) : stripStart w1 w2 w3 (stripStart w1 w2 w3 s) = stripStart w1 w2 w3 s.
Proof.
  induction s as [s IH] using string_length_ind.
  destruct s as [|a rest1]; [reflexivity|].
  cbn [stripStart]. destruct (w1 a) eqn:H1; [apply IH; simpl; lia|].
  destruct rest1 as [|b rest2]; [cbn [stripStart]; rewrite H1; reflexivity|].
  destruct (w2 a b) eqn:H2; [apply IH; simpl; lia|].
  destruct rest2 as [|c rest3]; [cbn [stripStart]; rewrite H1, H2; reflexivity|].
  destruct (w3 a b c) eqn:H3; [apply IH; simpl; lia|].
  cbn [stripStart]. rewrite H1, H2, H3. reflexivity.
Qed.

(** A string that stripping leaves as it is has only such prefixes. *)
Lemma strip_closed (u v : string) :
  stripStart w1 w2 w3 (u ++ v) = (u ++ v)%string -> stripStart w1 w2 w3 u = u.
Proof.
  destruct u as [|a u1]; [reflexivity|].
  cbn [append stripStart]. destruct (w1 a) eqn:H1.
  { intros H. apply strip_not_longer in H. simpl in H. lia. }
  destruct u1 as [|b u2]; [reflexivity|].
  cbn [append]. destruct (w2 a b) eqn:H2.
  { intros H. apply strip_not_longer in H. simpl in H. lia. }
  destruct u2 as [|c u3]; [reflexivity|].
  cbn [append]. destruct (w3 a b c) eqn:H3; [|reflexivity].
  intros H. apply strip_not_longer in H. simpl in H. lia.
Qed.

End Strip.

Ltac bool_hyps :=
  repeat match goal with
  | H : (_ && _)%bool = true |- _ => apply andb_true_iff in H; destruct H
  | H : (_ || _)%bool = true |- _ => apply orb_true_iff in H; destruct H
  | H : (_ =? _)%nat = true |- _ => apply Nat.eqb_eq in H
  | H : (_ <=? _)%nat = true |- _ => apply Nat.leb_le in H
  end.

Lemma in_whiteSpaceCharacters (p : string) :
  existsb (String.eqb p) whiteSpaceCharacters = true -> In p whiteSpaceCharacters.
Proof.
  intros H. apply existsb_exists in H as (q & Hq & Heq).
  apply String.eqb_eq in Heq. subst q. exact Hq.
Qed.

Lemma isWhiteSpace_character (a : ascii) :
  isWhiteSpace a = true -> In (String a EmptyString) whiteSpaceCharacters.
Proof.
  intros H. rewrite <- (ascii_nat_embedding a).
  unfold isWhiteSpace in H. set (x := nat_of_ascii a) in *. clearbody x.
  apply orb_true_iff in H as [H|H].
  - apply andb_true_iff in H as [Hlo Hhi].
    apply Nat.leb_le in Hlo. apply Nat.leb_le in Hhi.
    assert (Hx : (x = 9 \/ x = 10 \/ x = 11 \/ x = 12 \/ x = 13)%nat) by lia.
    destruct Hx as [->|[->|[->|[->| ->]]]];
      apply in_whiteSpaceCharacters; vm_compute; reflexivity.
  - apply Nat.eqb_eq in H. subst x.
    apply in_whiteSpaceCharacters. vm_compute. reflexivity.
Qed.

Lemma isWhiteSpace2_character (a b : ascii) :
  isWhiteSpace2 a b = true ->
  In (String a (String b EmptyString)) whiteSpaceCharacters.
Proof.
  intros H. rewrite <- (ascii_nat_embedding a), <- (ascii_nat_embedding b).
  unfold isWhiteSpace2 in H. apply andb_true_iff in H as [Ha Hb].
  apply Nat.eqb_eq in Ha. apply Nat.eqb_eq in Hb. rewrite Ha, Hb.
  apply in_whiteSpaceCharacters. vm_compute. reflexivity.
Qed.

Lemma isWhiteSpace3_character (a b c : ascii) :
  isWhiteSpace3 a b c = true ->
  In (String a (String b (String c EmptyString))) whiteSpaceCharacters.
Proof.
  intros H. rewrite <- (ascii_nat_embedding a), <- (ascii_nat_embedding b),
    <- (ascii_nat_embedding c).
  unfold isWhiteSpace3 in H.
  set (x := nat_of_ascii a) in *. set (y := nat_of_ascii b) in *.
  set (z := nat_of_ascii c) in *. clearbody x y z.
  bool_hyps; subst;
    try (apply in_whiteSpaceCharacters; vm_compute; reflexivity).
  assert (Hcases : (z = 128 \/ z = 129 \/ z = 130 \/ z = 131 \/ z = 132 \/ z = 133
                    \/ z = 134 \/ z = 135 \/ z = 136 \/ z = 137 \/ z = 138)%nat)
    by lia.
  repeat (destruct Hcases as [->|Hcases];
          [apply in_whiteSpaceCharacters; vm_compute; reflexivity|]).
  subst z. apply in_whiteSpaceCharacters. vm_compute. reflexivity.
Qed.

Lemma blank_character (p : string) : In p whiteSpaceCharacters -> blank p.
Proof.
  intros H. rewrite <- (append_empty_r p). apply blank_more; [exact H|constructor].
Qed.

Lemma blank_append (u v : string) : blank u -> blank v -> blank (u ++ v).
Proof.
  intros Hu Hv. induction Hu as [|p s Hp _ IH]; [exact Hv|].
  rewrite append_assoc. apply blank_more; assumption.
Qed.

(** [trimStart] drops a blank prefix. *)
Lemma trimStart_prefix (s : string) :
  exists w, blank w /\ s = (w ++ trimStart s)%string.
Proof.
  unfold trimStart. apply strip_prefix_of.
  - constructor.
  - intros a u Ha Hu. apply (blank_more (String a EmptyString) u);
      [apply isWhiteSpace_character, Ha|exact Hu].
  - intros a b u Hab Hu. apply (blank_more (String a (String b EmptyString)) u);
      [apply isWhiteSpace2_character, Hab|exact Hu].
  - intros a b c u Habc Hu.
    apply (blank_more (String a (String b (String c EmptyString))) u);
      [apply isWhiteSpace3_character, Habc|exact Hu].
Qed.

(** [trimStartReversed] drops a prefix that, read from its end, is
    blank. *)
Lemma trimStartReversed_prefix (s : string) :
  exists w, blank (revString w EmptyString)
            /\ s = (w ++ trimStartReversed s)%string.
Proof.
  unfold trimStartReversed.
  apply (strip_prefix_of _ _ _ (fun w => blank (revString w EmptyString))).
  - constructor.
  - intros a u Ha Hu. cbn [revString].
    rewrite (revString_app u (String a EmptyString)).
    apply blank_append; [exact Hu|].
    apply blank_character, isWhiteSpace_character, Ha.
  - intros a b u Hab Hu. cbn [revString].
    rewrite (revString_app u (String b (String a EmptyString))).
    apply blank_append; [exact Hu|].
    apply blank_character, isWhiteSpace2_character, Hab.
  - intros a b c u Habc Hu. cbn [revString].
    rewrite (revString_app u (String c (String b (String a EmptyString)))).
    apply blank_append; [exact Hu|].
    apply blank_character, isWhiteSpace3_character, Habc.
Qed.

Lemma trimStart_character (p s : string) :
  In p whiteSpaceCharacters -> trimStart (p ++ s) = trimStart s.
Proof.
  unfold whiteSpaceCharacters. cbn [map]. intros H.
  repeat (destruct H as [<-|H]; [reflexivity|]). destruct H.
Qed.

Lemma trimStart_blank (s : string) : blank s -> trimStart s = EmptyString.
Proof.
  induction 1 as [|p s Hp _ IH]; [reflexivity|].
  rewrite trimStart_character by exact Hp. exact IH.
Qed.

(** [trim] leaves nothing exactly of a blank string. *)
Lemma trim_empty_iff (s : string) : trim s = EmptyString <-> blank s.
Proof.
  split.
  - unfold trim, trimEnd. intros H. apply revString_empty in H.
    destruct (trimStart_prefix s) as (w & Hw & Hs).
    destruct (trimStartReversed_prefix (revString (trimStart s) EmptyString))
      as (w' & Hw' & Hrev).
    rewrite H, append_empty_r in Hrev. rewrite <- Hrev, revString_involutive in Hw'.
    rewrite Hs. apply blank_append; assumption.
  - intros H. unfold trim. rewrite (trimStart_blank s H). reflexivity.
Qed.

(** Trimming twice is trimming once. *)
Lemma trim_idempotent (s : string) : trim (trim s) = trim s.
Proof.
  unfold trim, trimEnd.
  set (u := trimStart s).
  set (v := trimStartReversed (revString u EmptyString)).
  assert (Hclean : trimStart (revString v EmptyString) = revString v EmptyString).
  { destruct (strip_prefix isWhiteSpace (fun a b => isWhiteSpace2 b a)
                (fun a b c => isWhiteSpace3 c b a) (revString u EmptyString))
      as [w Hw].
    fold (trimStartReversed (revString u EmptyString)) in Hw. fold v in Hw.
    assert (Hu : u = (revString v EmptyString ++ revString w EmptyString)%string).
    { rewrite <- revString_append, <- Hw. symmetry. apply revString_involutive. }
    unfold trimStart. apply (strip_closed _ _ _ _ (revString w EmptyString)).
    rewrite <- Hu. unfold u, trimStart. apply strip_idempotent. }
  rewrite Hclean, revString_involutive.
  unfold v at 1, trimStartReversed. rewrite strip_idempotent. reflexivity.
Qed.

(** Trimming does not add code units. *)
Lemma trim_units (s : string) : (codeUnits (trim s) <= codeUnits s)%nat.
Proof.
  unfold trim, trimEnd. rewrite codeUnits_revString.
  destruct (strip_prefix isWhiteSpace isWhiteSpace2 isWhiteSpace3 s) as [w Hw].
  fold (trimStart s) in Hw.
  destruct (strip_prefix isWhiteSpace (fun a b => isWhiteSpace2 b a)
              (fun a b c => isWhiteSpace3 c b a)
              (revString (trimStart s) EmptyString)) as [w' Hw'].
  fold (trimStartReversed (revString (trimStart s) EmptyString)) in Hw'.
  assert (H1 : codeUnits s = (codeUnits w + codeUnits (trimStart s))%nat).
  { rewrite Hw at 1. apply codeUnits_append. }
  assert (H2 : codeUnits (trimStart s)
               = (codeUnits w' + codeUnits (trimStartReversed
                                             (revString (trimStart s) EmptyString)))%nat).
  { rewrite <- (codeUnits_revString (trimStart s)). rewrite Hw' at 1.
    apply codeUnits_append. }
  lia.
Qed.

Lemma not_blank_trim (s : string) : ~ blank s -> ~ blank (trim s).
Proof.
  intros Hs Hb. apply Hs. apply trim_empty_iff.
  rewrite <- trim_idempotent. apply trim_empty_iff, Hb.
Qed.

(* ================================================================== *)
(** ** Validation *)
(* ================================================================== *)

Lemma pushIf_nil cond message errors :
  pushIf cond message errors = [] <-> cond = false /\ errors = [].
Proof.
  unfold pushIf. destruct cond.
  - split; [|intros [H _]; discriminate H].
    intros H. apply app_eq_nil in H as [_ H]. discriminate H.
  - tauto.
Qed.

Lemma validateEvent_nil_iff (event : PartialEvent) :
  validateEvent event = [] <-> acceptable event.
Proof.
  unfold validateEvent, acceptable.
  rewrite !pushIf_nil.
  destruct event as [i [t|] [d|] [s|] [e|] c g]; cbn [pTitle pDescription pStartDate pEndDate].
  all: split;
    [ intros (Hd & He & Hs & Hdl & Htl & Ht & _);
      try discriminate; try tauto
    | intros ((t' & Ht & Hne & Hlen) & Hdesc & (s' & e' & Hs & He & Hlt));
      try discriminate ].
  all: try (injection Ht as <-); try (injection Hs as <-); try (injection He as <-).
  - split; [|split].
    + exists t. split; [reflexivity|]. split.
      * intros H. apply trim_empty_iff in H. rewrite H in Ht. discriminate Ht.
      * apply Nat.ltb_ge in Htl. exact Htl.
    + intros d' [= <-]. apply Nat.ltb_ge in Hdl. exact Hdl.
    + exists s, e. split; [reflexivity|]. split; [reflexivity|].
      apply Z.leb_gt in Hd. exact Hd.
  - repeat split; try reflexivity.
    + apply Z.leb_gt. exact Hlt.
    + apply Nat.ltb_ge. apply Hdesc. reflexivity.
    + apply Nat.ltb_ge. exact Hlen.
    + destruct (String.eqb_spec (trim t) EmptyString) as [E|_]; [|reflexivity].
      exfalso. apply Hne, trim_empty_iff, E.
  - split; [|split].
    + exists t. split; [reflexivity|]. split.
      * intros H. apply trim_empty_iff in H. rewrite H in Ht. discriminate Ht.
      * apply Nat.ltb_ge in Htl. exact Htl.
    + intros d' [=].
    + exists s, e. split; [reflexivity|]. split; [reflexivity|].
      apply Z.leb_gt in Hd. exact Hd.
  - repeat split; try reflexivity.
    + apply Z.leb_gt. exact Hlt.
    + apply Nat.ltb_ge. exact Hlen.
    + destruct (String.eqb_spec (trim t) EmptyString) as [E|_]; [|reflexivity].
      exfalso. apply Hne, trim_empty_iff, E.
Qed.

(** The two cases that tell code units from bytes and the white space of
    ECMAScript from that of one byte: a title that is a no-break space is
    refused as missing, and a title of 51 letters of two bytes each is not
    too long. *)
Lemma validateEvent_beyond_one_byte :
  let form (t : string) :=
    {| pId := None; pTitle := Some t; pDescription := None;
       pStartDate := Some 0; pEndDate := Some 1;
       pColor := None; pCategory := None |} in
  let eAcute := utf8 [195; 169]%nat in
  validateEvent (form (utf8 [194; 160]%nat)) = ["Title is required"%string] /\
  validateEvent
    (form (List.fold_right append EmptyString (List.repeat eAcute 51))) = [].
Proof. split; vm_compute; reflexivity. Qed.

(** [validateEvent] returns no error exactly for an event that has a title
    that is not made of white space only and has at most 100 UTF-16 code
    units, a description (if any) of at most 500 code units, a start and
    an end, and a start strictly before its end; an event without a title,
    a start or an end always gets an error. *)
Theorem validateEvent_accepts_iff (event : PartialEvent) :
  (validateEvent event = [] <-> acceptable event) /\
  (pTitle event = None \/ pStartDate event = None \/ pEndDate event = None ->
   validateEvent event <> []).
Proof.
  split; [apply validateEvent_nil_iff|].
  intros Hmissing Hnil. apply validateEvent_nil_iff in Hnil.
  destruct Hnil as ((t & Ht & _) & _ & (s & e & Hs & He & _)).
  destruct Hmissing as [H|[H|H]]; congruence.
Qed.

(* ================================================================== *)
(** ** The event manager *)
(* ================================================================== *)

Lemma acceptable_created generated dataId data :
  acceptable (asPartial data) ->
  acceptable (asPartial (createEvent generated dataId data)).
Proof.
  intros ((t & Ht & Hne & Hlen) & Hdesc & (s & e & Hs & He & Hlt)).
  cbn in Ht, Hs, He. injection Ht as <-. injection Hs as <-. injection He as <-.
  unfold acceptable, asPartial, createEvent.
  cbn [pTitle pDescription pStartDate pEndDate title description startDate endDate
       fields].
  split; [|split].
  - exists (trim (title data)). split; [reflexivity|]. split.
    + apply not_blank_trim, Hne.
    + pose proof (trim_units (title data)). lia.
  - intros d Hd. destruct (description data) as [d0|] eqn:Hd0; [|discriminate Hd].
    cbn in Hd. injection Hd as <-.
    pose proof (trim_units d0). specialize (Hdesc d0 Hd0). lia.
  - exists (startDate data), (endDate data). repeat split; assumption.
Qed.

Lemma createEvent_valid generated dataId data :
  validateEvent (asPartial data) = [] ->
  storedValid (createEvent generated dataId data).
Proof.
  intros H. apply validateEvent_nil_iff. apply acceptable_created.
  apply validateEvent_nil_iff, H.
Qed.

Lemma storedValid_dates (e : CalendarEvent) : storedValid e -> startDate e < endDate e.
Proof.
  intros H. apply validateEvent_nil_iff in H.
  destruct H as (_ & _ & (s & en & Hs & He & Hlt)).
  cbn in Hs, He. injection Hs as <-. injection He as <-. exact Hlt.
Qed.

Lemma updateEvent_valid current updates :
  validateEvent (mergeUpdates current updates) = [] ->
  storedValid (updateEvent current updates).
Proof.
  intros H. apply validateEvent_nil_iff in H. apply validateEvent_nil_iff.
  destruct H as ((t & Ht & Hne & Hlen) & Hdesc & (s & e & Hs & He & Hlt)).
  unfold mergeUpdates in *. cbn [pTitle pDescription pStartDate pEndDate] in *.
  injection Ht as <-. injection Hs as <-. injection He as <-.
  unfold acceptable, asPartial, updateEvent.
  cbn [pTitle pDescription pStartDate pEndDate title description startDate endDate
       fields].
  split; [|split].
  - destruct (pTitle updates) as [t|]; cbn [overrideWith] in *.
    + exists (trim t). split.
      * destruct (trim t) eqn:E; [|reflexivity].
        exfalso. apply Hne, trim_empty_iff, E.
      * split; [apply not_blank_trim, Hne|].
        pose proof (trim_units t). lia.
    + exists (title current). repeat split; assumption.
  - intros d Hd. destruct (pDescription updates) as [d0|].
    + injection Hd as <-. pose proof (trim_units d0).
      specialize (Hdesc d0 eq_refl). lia.
    + apply Hdesc, Hd.
  - eexists _, _. repeat split; try reflexivity. exact Hlt.
Qed.

(** Where [findIndex] stops: at the first element that satisfies the
    test. *)
Lemma findIndex_Some {A} (f : A -> bool) (l : list A) (i : nat) :
  findIndex f l = Some i ->
  exists before x after,
    l = before ++ x :: after /\ List.length before = i /\ f x = true /\
    Forall (fun y => f y = false) before.
Proof.
  revert i. induction l as [|a l IH]; intros i; simpl; [discriminate|].
  destruct (f a) eqn:Hfa.
  - intros [= <-]. exists [], a, l. repeat split; auto.
  - destruct (findIndex f l) as [j|]; [|discriminate].
    cbn. intros [= <-].
    destruct (IH j eq_refl) as (before & x & after & -> & Hlen & Hx & Hall).
    exists (a :: before), x, after. simpl. repeat split; auto.
Qed.

Lemma findIndex_None {A} (f : A -> bool) (l : list A) :
  findIndex f l = None -> Forall (fun y => f y = false) l.
Proof.
  induction l as [|a l IH]; simpl; [constructor|].
  destruct (f a) eqn:Hfa; [discriminate|].
  destruct (findIndex f l); [discriminate|]. intros _. constructor; auto.
Qed.

Lemma replaceAt_middle {A} (before after : list A) (x v : A) :
  replaceAt (List.length before) v (before ++ x :: after) = before ++ v :: after.
Proof. induction before as [|b before IH]; simpl; [reflexivity|]. rewrite IH. reflexivity. Qed.

Lemma nth_error_middle {A} (before after : list A) (x : A) :
  nth_error (before ++ x :: after) (List.length before) = Some x.
Proof. induction before as [|b before IH]; simpl; [reflexivity|exact IH]. Qed.

(** What [updateEventById] does to the list of events. *)
Lemma updateEventById_cases eventId updates prev :
  (Forall (fun e : CalendarEvent => id e <> eventId) prev /\
   updateEventById eventId updates prev = inr prev) \/
  (exists before current after,
     prev = before ++ current :: after /\
     Forall (fun e : CalendarEvent => id e <> eventId) before /\
     id current = eventId /\
     updateEventById eventId updates prev =
       if (0 <? List.length (validateEvent (mergeUpdates current updates)))%nat
       then inl (joinErrors (validateEvent (mergeUpdates current updates)))
       else inr (before ++ updateEvent current updates :: after)).
Proof.
  unfold updateEventById.
  destruct (findIndex _ prev) as [i|] eqn:Hfind.
  - right. apply findIndex_Some in Hfind
      as (before & current & after & -> & <- & Hid & Hbefore).
    exists before, current, after. split; [reflexivity|]. split.
    + eapply Forall_impl; [|exact Hbefore]. intros e He.
      apply String.eqb_neq, He.
    + split; [apply String.eqb_eq, Hid|].
      rewrite nth_error_middle, replaceAt_middle. reflexivity.
  - left. split; [|reflexivity]. apply findIndex_None in Hfind.
    eapply Forall_impl; [|exact Hfind]. intros e He. apply String.eqb_neq, He.
Qed.

(** [addEvent] throws exactly when [validateEvent] reports an error, with
    the errors joined by commas; otherwise it appends one event, created
    with the generated id and the dates given, that starts before it ends
    and itself passes [validateEvent]. *)
Theorem addEvent_outcome generated events eventData :
  match addEvent generated events eventData with
  | inl message =>
      validateEvent (asPartial eventData) <> [] /\
      message = joinErrors (validateEvent (asPartial eventData))
  | inr (next, created) =>
      validateEvent (asPartial eventData) = [] /\
      next = events ++ [created] /\
      id created = generated /\
      startDate created = startDate eventData /\
      endDate created = endDate eventData /\
      startDate created < endDate created /\
      storedValid created
  end.
Proof.
  unfold addEvent.
  destruct (validateEvent (asPartial eventData)) as [|err errs] eqn:Hv;
    cbn [List.length Nat.ltb Nat.leb].
  - assert (Hvalid : storedValid (createEvent generated None eventData))
      by (apply createEvent_valid, Hv).
    repeat split; try reflexivity; [|exact Hvalid].
    apply storedValid_dates in Hvalid. exact Hvalid.
  - split; [discriminate|reflexivity].
Qed.

(** [updateEventById] leaves the list as it is when no event has the id.
    Otherwise it takes the first event with that id: it throws, with the
    errors joined by commas, exactly when the event merged with the
    updates fails [validateEvent]; when the merged event passes, it
    replaces that event, and no other, by the updated one, which passes
    [validateEvent] too; the list keeps its length. *)
Theorem updateEventById_outcome eventId updates prev :
  match updateEventById eventId updates prev with
  | inl message =>
      exists before current after,
        prev = before ++ current :: after /\
        Forall (fun e : CalendarEvent => id e <> eventId) before /\
        id current = eventId /\
        validateEvent (mergeUpdates current updates) <> [] /\
        message = joinErrors (validateEvent (mergeUpdates current updates))
  | inr next =>
      List.length next = List.length prev /\
      ((Forall (fun e : CalendarEvent => id e <> eventId) prev /\ next = prev) \/
       (exists before current after,
          prev = before ++ current :: after /\
          Forall (fun e : CalendarEvent => id e <> eventId) before /\
          id current = eventId /\
          validateEvent (mergeUpdates current updates) = [] /\
          next = before ++ updateEvent current updates :: after /\
          storedValid (updateEvent current updates)))
  end.
Proof.
  destruct (updateEventById_cases eventId updates prev)
    as [[Hnone ->]|(before & current & after & -> & Hbefore & Hid & ->)].
  - split; [reflexivity|]. left. split; [exact Hnone|reflexivity].
  - destruct (validateEvent (mergeUpdates current updates)) as [|err errs] eqn:Hv;
      cbn [List.length Nat.ltb Nat.leb].
    + split; [rewrite !length_app; reflexivity|].
      right. exists before, current, after.
      repeat split; try assumption; try reflexivity.
      apply updateEvent_valid, Hv.
    + exists before, current, after.
      repeat split; try assumption; try reflexivity; rewrite Hv;
        [discriminate|reflexivity].
Qed.

(** The three state updates keep the events valid: when every event held
    passes [validateEvent], so does every event held after a successful
    [addEvent], a successful [updateEventById] or a [deleteEvent]; in
    particular every event held starts before it ends. *)
Theorem event_manager_keeps_events_valid events :
  Forall storedValid events ->
  (forall generated eventData next created,
     addEvent generated events eventData = inr (next, created) ->
     Forall storedValid next) /\
  (forall eventId updates next,
     updateEventById eventId updates events = inr next ->
     Forall storedValid next) /\
  (forall eventId, Forall storedValid (deleteEvent eventId events)) /\
  Forall (fun e : CalendarEvent => startDate e < endDate e) events.
Proof.
  intros Hvalid. split; [|split; [|split]].
  - intros generated eventData next created. unfold addEvent.
    destruct (validateEvent (asPartial eventData)) as [|err errs] eqn:Hv;
      cbn [List.length Nat.ltb Nat.leb]; [|discriminate].
    intros [= <- <-]. apply Forall_app. split; [exact Hvalid|].
    constructor; [|constructor]. apply createEvent_valid, Hv.
  - intros eventId updates next.
    destruct (updateEventById_cases eventId updates events)
      as [[_ ->]|(before & current & after & -> & _ & _ & ->)].
    + intros [= <-]. exact Hvalid.
    + destruct (validateEvent (mergeUpdates current updates)) as [|err errs] eqn:Hv;
        cbn [List.length Nat.ltb Nat.leb]; [|discriminate].
      intros [= <-]. apply Forall_app in Hvalid as [Hb Hrest].
      inversion Hrest as [|? ? _ Ha]; subst.
      apply Forall_app. split; [exact Hb|]. constructor; [|exact Ha].
      apply updateEvent_valid, Hv.
  - intros eventId. unfold deleteEvent. rewrite Forall_forall in *.
    intros e He. apply filter_In in He. apply Hvalid, He.
  - eapply Forall_impl; [|exact Hvalid]. apply storedValid_dates.
Qed.

Lemma event_manager_keeps_events_valid_witness :
  Forall storedValid Examples.held /\
  Forall storedValid (deleteEvent "1" Examples.held) /\
  Forall (fun e : CalendarEvent => startDate e < endDate e) Examples.held.
Proof.
  assert (H : Forall storedValid Examples.held).
  { repeat (constructor; [vm_compute; reflexivity|]). constructor. }
  split; [exact H|].
  destruct (event_manager_keeps_events_valid Examples.held H) as (_ & _ & Hd & Hlt).
  split; [apply Hd|exact Hlt].
Defined.

(* ================================================================== *)
(** ** Overlap tests *)
(* ================================================================== *)

Ltac compare_dates :=
  repeat match goal with
    | |- context [?a <=? ?b] => destruct (Z.leb_spec a b)
    | |- context [?a <? ?b] => destruct (Z.ltb_spec a b)
    end;
  cbn [andb orb negb]; try reflexivity; try lia.

Lemma conflictsWith_strict newEvent excludeEventId (event : CalendarEvent) :
  startDate newEvent <= endDate newEvent -> startDate event <= endDate event ->
  conflictsWith newEvent excludeEventId event =
  negb (isExcluded excludeEventId event)
  && (startDate newEvent <? endDate event) && (startDate event <? endDate newEvent).
Proof.
  intros Hn He. unfold conflictsWith.
  rewrite areIntervalsOverlapping_ordered by assumption.
  destruct (isExcluded _ _); [reflexivity|]. cbn [negb andb]. reflexivity.
Qed.

(** For events that start before they end, [getOverlappingEvents] applies
    the strict overlap rule of the conflict detector: it returns, in the
    order given, the events of another id that overlap the target, and
    these are the conflicting events that [detectEventConflicts] reports
    for the target when its own id is excluded. *)
Theorem getOverlappingEvents_agrees_with_detector events (target : CalendarEvent) :
  Forall (fun e : CalendarEvent => startDate e < endDate e) events ->
  startDate target < endDate target ->
  id target <> EmptyString ->
  getOverlappingEvents events target =
    filter (fun e : CalendarEvent =>
              negb (id e =? id target)%string
              && (startDate target <? endDate e) && (startDate e <? endDate target))
           events /\
  forall depth r,
    detectEventConflicts depth target events (Some (id target)) = Some r ->
    conflictingEvents r = getOverlappingEvents events target.
Proof.
  intros Hvalid Htarget Hid.
  assert (Hfilter : forall e : CalendarEvent, In e events ->
    (if (id e =? id target)%string then false
     else
       ((startDate e <=? startDate target) && (startDate target <? endDate e))
       || ((startDate e <? endDate target) && (endDate target <=? endDate e))
       || ((startDate target <=? startDate e) && (endDate e <=? endDate target)))
    = negb (id e =? id target)%string
      && (startDate target <? endDate e) && (startDate e <? endDate target)).
  { intros e He. rewrite Forall_forall in Hvalid. specialize (Hvalid e He).
    destruct (id e =? id target)%string; [reflexivity|]. cbn [negb andb].
    compare_dates. }
  split.
  - unfold getOverlappingEvents. apply filter_ext_in. exact Hfilter.
  - intros depth r Hr. apply detect_inv in Hr as (suggested & -> & _).
    unfold conflictInfoOf. cbn [conflictingEvents].
    unfold getOverlappingEvents. apply filter_ext_in. intros e He.
    rewrite (Hfilter e He).
    rewrite Forall_forall in Hvalid. specialize (Hvalid e He).
    rewrite conflictsWith_strict by lia.
    unfold isExcluded.
    destruct (String.eqb_spec (id target) EmptyString); [contradiction|].
    reflexivity.
Qed.

Lemma getOverlappingEvents_agrees_with_detector_witness :
  Forall (fun e : CalendarEvent => startDate e < endDate e) Scenario.threeOverlapping /\
  getOverlappingEvents Scenario.threeOverlapping Scenario.meeting =
    filter (fun e : CalendarEvent =>
              negb (id e =? id Scenario.meeting)%string
              && (startDate Scenario.meeting <? endDate e)
              && (startDate e <? endDate Scenario.meeting))
           Scenario.threeOverlapping.
Proof.
  assert (H : Forall (fun e : CalendarEvent => startDate e < endDate e)
                Scenario.threeOverlapping).
  { repeat (constructor; [vm_compute; reflexivity|]). constructor. }
  assert (Hlt : startDate Scenario.meeting < endDate Scenario.meeting).
  { vm_compute. reflexivity. }
  assert (Hid : id Scenario.meeting <> EmptyString).
  { vm_compute. discriminate. }
  split; [exact H|].
  destruct (getOverlappingEvents_agrees_with_detector Scenario.threeOverlapping
              Scenario.meeting H Hlt Hid) as [Hfilter _].
  exact Hfilter.
Defined.

(** Events that only touch the candidate do not conflict with it: when
    every existing event ends by the start of the candidate or starts at
    or after its end, [detectEventConflicts] returns the empty result,
    whatever the call depth left. *)
Theorem touching_events_do_not_conflict depth newEvent existingEvents excludeEventId :
  startDate newEvent <= endDate newEvent ->
  Forall (fun e : CalendarEvent =>
            startDate e <= endDate e /\
            (endDate e <= startDate newEvent \/ endDate newEvent <= startDate e))
         existingEvents ->
  detectEventConflicts (S depth) newEvent existingEvents excludeEventId =
  Some {| hasConflict := false; conflictingEvents := [];
          conflictMessage := EmptyString; suggestedTimes := [] |}.
Proof.
  intros Hn Hall. apply detect_free.
  induction Hall as [|e l [He Hside] _ IH]; [reflexivity|].
  simpl. rewrite conflictsWith_strict by assumption.
  assert (Hfalse : negb (isExcluded excludeEventId e)
                   && (startDate newEvent <? endDate e)
                   && (startDate e <? endDate newEvent) = false).
  { destruct (isExcluded _ _); [reflexivity|]. cbn [negb andb]. compare_dates. }
  rewrite Hfalse. exact IH.
Qed.

Lemma touching_events_do_not_conflict_witness :
  detectEventConflicts 1 Examples.review [Scenario.standup; Scenario.lunch] None =
  Some {| hasConflict := false; conflictingEvents := [];
          conflictMessage := EmptyString; suggestedTimes := [] |}.
Proof.
  assert (Hc : startDate Examples.review <= endDate Examples.review).
  { vm_compute. discriminate. }
  assert (H : Forall (fun e : CalendarEvent =>
                        startDate e <= endDate e /\
                        (endDate e <= startDate Examples.review \/
                         endDate Examples.review <= startDate e))
                [Scenario.standup; Scenario.lunch]).
  { constructor; [split; [|left]; vm_compute; discriminate|].
    constructor; [split; [|right]; vm_compute; discriminate|]. constructor. }
  exact (touching_events_do_not_conflict 0 Examples.review
           [Scenario.standup; Scenario.lunch] None Hc H).
Defined.

(** In a date range given in order, [isEventInDateRange] holds of an event
    that does not end before it starts exactly when the event starts by the
    end of the range and ends at or after its start: the two closed
    intervals meet. *)
Lemma isEventInDateRange_closed (event : EventFields) (rangeStart rangeEnd : Date) :
  rangeStart <= rangeEnd -> startDate event <= endDate event ->
  isEventInDateRange event rangeStart rangeEnd =
  (startDate event <=? rangeEnd) && (rangeStart <=? endDate event).
Proof.
  intros Hr He. unfold isEventInDateRange, isWithinInterval, isBefore, isAfter.
  rewrite (Z.min_l rangeStart rangeEnd), (Z.max_r rangeStart rangeEnd) by lia.
  compare_dates.
Qed.

(** For events that do not end before they start, [filterEventsByDate]
    keeps, in the order given, the events that start by 23:59:59.999 of the
    day and end at or after its midnight.  Every event that starts on the
    day is kept, and so is an event that ends exactly at the midnight that
    opens the day. *)
Theorem filterEventsByDate_closed_day events date :
  Forall endsAfterStart events ->
  filterEventsByDate events date =
    filter (fun e : CalendarEvent =>
              (startDate e <=? endOfDay date) && (startOfDay date <=? endDate e))
           events /\
  incl (filter (fun e : CalendarEvent => isSameDay (startDate e) date) events)
       (filterEventsByDate events date) /\
  (forall e : CalendarEvent, In e events -> endDate e = startOfDay date ->
     In e (filterEventsByDate events date)).
Proof.
  intros Hvalid. rewrite Forall_forall in Hvalid. unfold endsAfterStart in Hvalid.
  assert (Hday : startOfDay date <= endOfDay date)
    by (unfold endOfDay, MS_PER_DAY; lia).
  assert (Heq : filterEventsByDate events date =
    filter (fun e : CalendarEvent =>
              (startDate e <=? endOfDay date) && (startOfDay date <=? endDate e))
           events).
  { unfold filterEventsByDate, filterEventsByDateRange. apply filter_ext_in.
    intros e He. apply isEventInDateRange_closed; [exact Hday|apply Hvalid, He]. }
  split; [exact Heq|]. rewrite Heq. split.
  - intros e He. apply filter_In in He as [He Hsame]. apply filter_In.
    split; [exact He|]. specialize (Hvalid e He).
    unfold isSameDay in Hsame. apply Z.eqb_eq in Hsame.
    pose proof (startOfDay_le (startDate e)) as Hs. rewrite Hsame in Hs.
    unfold endOfDay. apply andb_true_intro. split; apply Z.leb_le; lia.
  - intros e He Hend. apply filter_In. split; [exact He|].
    specialize (Hvalid e He). unfold endOfDay, MS_PER_DAY in *.
    apply andb_true_intro. split; apply Z.leb_le; lia.
Qed.

Lemma filterEventsByDate_closed_day_witness :
  Forall endsAfterStart [Scenario.standup; Scenario.lunch] /\
  filterEventsByDate [Scenario.standup; Scenario.lunch] Scenario.midnight =
    filter (fun e : CalendarEvent =>
              (startDate e <=? endOfDay Scenario.midnight)
              && (startOfDay Scenario.midnight <=? endDate e))
           [Scenario.standup; Scenario.lunch].
Proof.
  assert (H : Forall endsAfterStart [Scenario.standup; Scenario.lunch]).
  { repeat (constructor; [vm_compute; discriminate|]). constructor. }
  split; [exact H|].
  destruct (filterEventsByDate_closed_day [Scenario.standup; Scenario.lunch]
              Scenario.midnight H) as [Hfilter _].
  exact Hfilter.
Defined.

(** With bounds in order, [clampDate] returns a date between them, the
    date itself when it already lies between them, and clamping again
    changes nothing. *)
Theorem clampDate_within (date lo hi : Date) :
  lo <= hi ->
  lo <= clampDate date (Some lo) (Some hi) <= hi /\
  (lo <= date <= hi -> clampDate date (Some lo) (Some hi) = date) /\
  clampDate (clampDate date (Some lo) (Some hi)) (Some lo) (Some hi)
  = clampDate date (Some lo) (Some hi).
Proof.
  intros Hb. unfold clampDate, isBefore, isAfter.
  destruct (Z.ltb_spec date lo) as [H1|H1].
  - destruct (Z.ltb_spec lo lo); [lia|]. destruct (Z.ltb_spec hi lo); [lia|].
    repeat split; lia.
  - destruct (Z.ltb_spec hi date) as [H2|H2].
    + destruct (Z.ltb_spec hi lo); [lia|]. destruct (Z.ltb_spec hi hi); [lia|].
      repeat split; lia.
    + destruct (Z.ltb_spec date lo); [lia|]. destruct (Z.ltb_spec hi date); [lia|].
      repeat split; lia.
Qed.

Lemma clampDate_within_witness :
  businessStartOf Scenario.midnight <= businessEndOf Scenario.midnight /\
  businessStartOf Scenario.midnight
    <= clampDate (Scenario.atTime Scenario.friday 7 0)
         (Some (businessStartOf Scenario.midnight))
         (Some (businessEndOf Scenario.midnight))
    <= businessEndOf Scenario.midnight.
Proof.
  assert (H : businessStartOf Scenario.midnight <= businessEndOf Scenario.midnight).
  { vm_compute. discriminate. }
  split; [exact H|].
  destruct (clampDate_within (Scenario.atTime Scenario.friday 7 0)
              (businessStartOf Scenario.midnight) (businessEndOf Scenario.midnight) H)
    as [Hwithin _].
  exact Hwithin.
Defined.

(* ================================================================== *)
(** ** The week shown *)
(* ================================================================== *)

Lemma eachDayOfInterval_week (m : Date) :
  m mod MS_PER_DAY = 0 ->
  eachDayOfInterval m (m + 7 * MS_PER_DAY - 1) =
  map (fun i => m + i * MS_PER_DAY) [0; 1; 2; 3; 4; 5; 6].
Proof.
  intros Hm. unfold eachDayOfInterval. rewrite (startOfDay_fixed _ Hm).
  replace ((m + 7 * MS_PER_DAY - 1 - m) / MS_PER_DAY + 1) with 7.
  2:{ unfold MS_PER_DAY. replace (m + 7 * 86400000 - 1 - m) with 604799999 by lia.
      reflexivity. }
  assert (Hstep : forall i, startOfDay (addDays (m + i * MS_PER_DAY) 1)
                            = m + (i + 1) * MS_PER_DAY).
  { intros i. rewrite startOfDay_addDays. rewrite startOfDay_fixed; [lia|].
    unfold MS_PER_DAY in *. rewrite Z_mod_plus_full. exact Hm. }
  assert (Hle : forall i, 0 <= i <= 6 ->
            (m + i * MS_PER_DAY <=? m + 7 * MS_PER_DAY - 1) = true).
  { intros i Hi. apply Z.leb_le. unfold MS_PER_DAY. lia. }
  change (Z.to_nat 7) with 7%nat. cbn [map].
  replace m with (m + 0 * MS_PER_DAY) at 1 by lia.
  cbn [eachDayLoop].
  repeat (rewrite Hle by lia; rewrite Hstep; cbn [Z.add Pos.add Pos.succ]).
  rewrite Hle by lia. reflexivity.
Qed.

Lemma sundayOf_mod (d : Date) : sundayOf d mod MS_PER_DAY = 0.
Proof.
  unfold sundayOf. rewrite <- Z.add_opp_r, <- Z.mul_opp_l.
  unfold MS_PER_DAY. rewrite Z_mod_plus_full. apply startOfDay_mod.
Qed.

(** [getWeekDays] returns seven consecutive days, from the Sunday on or
    before the date to the Saturday after it, and the date falls within
    them.  The week that [findRecurringWeeklyPattern] scans starts on the
    Monday of these days, except for a Sunday, where it starts six days
    earlier and has only that Sunday in common with the week shown. *)
Theorem getWeekDays_sunday_to_saturday (date : Date) :
  getWeekDays date
    = map (fun i => sundayOf date + i * MS_PER_DAY) [0; 1; 2; 3; 4; 5; 6] /\
  getDay (sundayOf date) = 0 /\
  sundayOf date <= date < sundayOf date + 7 * MS_PER_DAY /\
  (getDay date <> 0 -> mondayOf date = sundayOf date + MS_PER_DAY) /\
  (getDay date = 0 -> mondayOf date = sundayOf date - 6 * MS_PER_DAY).
Proof.
  pose proof (getDay_range date) as Hr.
  pose proof (startOfDay_le date) as Hs.
  split; [|split; [|split; [|split]]].
  - unfold getWeekDays.
    assert (Hstart : startOfWeek date 0 = sundayOf date).
    { unfold startOfWeek, sundayOf. rewrite startOfDay_addDays.
      destruct (getDay date <? 0) eqn:Hd; [apply Z.ltb_lt in Hd; lia|].
      unfold MS_PER_DAY. lia. }
    assert (Hend : endOfWeek date 0 = sundayOf date + 7 * MS_PER_DAY - 1).
    { unfold endOfWeek, endOfDay, sundayOf. rewrite startOfDay_addDays.
      destruct (getDay date <? 0) eqn:Hd; [apply Z.ltb_lt in Hd; lia|].
      unfold MS_PER_DAY. lia. }
    rewrite Hstart, Hend. apply eachDayOfInterval_week, sundayOf_mod.
  - unfold sundayOf, getDay, startOfDay, MS_PER_DAY.
    unfold getDay, MS_PER_DAY in Hr. Z.div_mod_to_equations. lia.
  - unfold sundayOf. unfold MS_PER_DAY in *. lia.
  - intros Hd. unfold mondayOf, sundayOf.
    replace ((getDay date + 6) mod 7) with (getDay date - 1);
      [unfold MS_PER_DAY; lia|].
    apply (Z.mod_unique _ _ 1); lia.
  - intros Hd. unfold mondayOf, sundayOf. rewrite Hd.
    change ((0 + 6) mod 7) with 6. unfold MS_PER_DAY. lia.
Qed.

(* ================================================================== *)
(** ** Columns of the layout *)
(* ================================================================== *)

Lemma lastOf_snoc (column : list CalendarEvent) (e : CalendarEvent) :
  lastOf (column ++ [e]) = Some e.
Proof.
  induction column as [|x column IH]; [reflexivity|].
  simpl. destruct (column ++ [e]) eqn:H; [destruct column; discriminate H|].
  exact IH.
Qed.

Lemma lastOf_Some (column : list CalendarEvent) (l : CalendarEvent) :
  lastOf column = Some l -> exists init, column = init ++ [l].
Proof.
  induction column as [|x column IH]; [discriminate|].
  simpl. destruct column as [|y column].
  - intros [= <-]. exists []. reflexivity.
  - intros H. destruct (IH H) as [init ->]. exists (x :: init). reflexivity.
Qed.

Lemma lastOf_None (column : list CalendarEvent) :
  lastOf column = None -> column = [].
Proof.
  induction column as [|x column IH]; [reflexivity|].
  simpl. destruct column as [|y column]; [discriminate|].
  intros H. specialize (IH H). discriminate IH.
Qed.

Lemma StronglySorted_snoc_rel {A} (R : A -> A -> Prop) (l : list A) (x : A) :
  StronglySorted R l -> Forall (fun y => R y x) l -> StronglySorted R (l ++ [x]).
Proof.
  induction 1 as [|a l Hl IH Ha]; intros Hx; simpl.
  - constructor; constructor.
  - inversion Hx; subst. constructor; [apply IH; assumption|].
    apply Forall_app; split; [assumption|]. constructor; [assumption|constructor].
Qed.

Lemma placeInColumn_Some (e : CalendarEvent) (columns : list (list CalendarEvent)) :
  forall columns', placeInColumn e columns = Some columns' ->
  exists before column after,
    columns = before ++ column :: after /\
    Forall (fun c => fitsColumn e c = false) before /\
    fitsColumn e column = true /\
    columns' = before ++ (column ++ [e]) :: after.
Proof.
  induction columns as [|c columns IH]; intros columns'; simpl; [discriminate|].
  destruct (fitsColumn e c) eqn:Hfit.
  - intros [= <-]. exists [], c, columns. repeat split; auto.
  - destruct (placeInColumn e columns) as [rest|]; [|discriminate].
    cbn. intros [= <-].
    destruct (IH rest eq_refl) as (before & column & after & -> & Hb & Hf & ->).
    exists (c :: before), column, after. repeat split; auto.
Qed.

Lemma placeInColumn_None (e : CalendarEvent) (columns : list (list CalendarEvent)) :
  placeInColumn e columns = None -> Forall (fun c => fitsColumn e c = false) columns.
Proof.
  induction columns as [|c columns IH]; simpl; [constructor|].
  destruct (fitsColumn e c) eqn:Hfit; [discriminate|].
  destruct (placeInColumn e columns); [discriminate|].
  intros _. constructor; auto.
Qed.

(** What [placeEvent] does to the columns: the event is added at the end
    of the first column it fits in, or, when it fits in none, as a new
    column after the others. *)
Lemma placeEvent_cases (columns : list (list CalendarEvent)) (e : CalendarEvent) :
  (exists before column after,
     columns = before ++ column :: after /\
     Forall (fun c => fitsColumn e c = false) before /\
     fitsColumn e column = true /\
     placeEvent columns e = before ++ (column ++ [e]) :: after) \/
  (Forall (fun c => fitsColumn e c = false) columns /\
   placeEvent columns e = columns ++ [[e]]).
Proof.
  unfold placeEvent. destruct (placeInColumn e columns) as [columns'|] eqn:H.
  - left. apply placeInColumn_Some in H
      as (before & column & after & -> & Hb & Hf & ->).
    exists before, column, after. repeat split; auto.
  - right. split; [apply placeInColumn_None, H|reflexivity].
Qed.

Lemma concat_middle {A} (before after : list (list A)) (c : list A) :
  List.concat (before ++ c :: after) = List.concat before ++ c ++ List.concat after.
Proof. rewrite concat_app. reflexivity. Qed.

Lemma placeEvent_perm columns e :
  Permutation (List.concat (placeEvent columns e)) (e :: List.concat columns).
Proof.
  destruct (placeEvent_cases columns e)
    as [(before & column & after & -> & _ & _ & ->)|[_ ->]].
  - rewrite !concat_middle. rewrite <- (app_assoc column [e]). simpl.
    symmetry. rewrite !app_assoc. apply Permutation_middle.
  - rewrite concat_app. simpl.
    symmetry. apply Permutation_cons_append.
Qed.

Lemma fold_placeEvent_perm l : forall columns,
  Permutation (List.concat (fold_left placeEvent l columns)) (List.concat columns ++ l).
Proof.
  induction l as [|e l IH]; intros columns; simpl.
  - rewrite app_nil_r. reflexivity.
  - rewrite IH, placeEvent_perm. simpl. apply Permutation_middle.
Qed.

Lemma layoutColumns_perm events : Permutation (List.concat (layoutColumns events)) events.
Proof.
  unfold layoutColumns. rewrite fold_placeEvent_perm. simpl.
  apply sortEventsByStartTime_perm.
Qed.

Lemma layoutFrom_events total columns : forall columnIndex,
  map layoutEvent (layoutFrom total columnIndex columns) = List.concat columns.
Proof.
  induction columns as [|c columns IH]; intros i; simpl; [reflexivity|].
  rewrite map_app, IH, map_map. simpl. rewrite map_id. reflexivity.
Qed.

Lemma placeEvent_nonempty columns e :
  Forall (fun c => c <> []) columns -> Forall (fun c => c <> []) (placeEvent columns e).
Proof.
  intros H. destruct (placeEvent_cases columns e)
    as [(before & column & after & -> & _ & _ & ->)|[_ ->]].
  - apply Forall_app in H as [Hb Hrest]. inversion Hrest; subst.
    apply Forall_app. split; [assumption|]. constructor; [|assumption].
    destruct column; discriminate.
  - apply Forall_app. split; [assumption|]. constructor; [discriminate|constructor].
Qed.

Lemma fold_placeEvent_nonempty l : forall columns,
  Forall (fun c => c <> []) columns ->
  Forall (fun c => c <> []) (fold_left placeEvent l columns).
Proof.
  induction l as [|e l IH]; intros columns H; simpl; [exact H|].
  apply IH, placeEvent_nonempty, H.
Qed.

Lemma length_concat_nonempty {A} (columns : list (list A)) :
  Forall (fun c => c <> []) columns ->
  (List.length columns <= List.length (List.concat columns))%nat.
Proof.
  induction 1 as [|c columns Hc _ IH]; simpl; [lia|].
  rewrite length_app. destruct c; [contradiction|]. simpl. lia.
Qed.

(** Every event is laid out exactly once: the events of the result are
    those given, up to order; no column is empty, so there are never more
    columns than events. *)
Theorem layout_places_each_event_once events :
  Permutation (map layoutEvent (calculateEventLayout events)) events /\
  List.length (calculateEventLayout events) = List.length events /\
  Forall (fun column => column <> []) (layoutColumns events) /\
  (List.length (layoutColumns events) <= List.length events)%nat.
Proof.
  assert (Hperm : Permutation (map layoutEvent (calculateEventLayout events)) events).
  { unfold calculateEventLayout. rewrite layoutFrom_events. apply layoutColumns_perm. }
  assert (Hne : Forall (fun column => column <> []) (layoutColumns events))
    by (apply fold_placeEvent_nonempty; constructor).
  split; [exact Hperm|]. split; [|split; [exact Hne|]].
  - rewrite <- (Permutation_length Hperm), length_map. reflexivity.
  - rewrite <- (Permutation_length (layoutColumns_perm events)).
    apply length_concat_nonempty, Hne.
Qed.

Lemma placeEvent_chained columns e :
  endsAfterStart e ->
  Forall (StronglySorted endsBeforeNext) columns ->
  Forall endsAfterStart (List.concat columns) ->
  Forall (StronglySorted endsBeforeNext) (placeEvent columns e).
Proof.
  intros He Hch Hvalid.
  destruct (placeEvent_cases columns e)
    as [(before & column & after & -> & _ & Hfit & ->)|[_ ->]].
  - apply Forall_app in Hch as [Hb Hrest]. inversion Hrest as [|? ? Hc Ha]; subst.
    apply Forall_app. split; [assumption|]. constructor; [|assumption].
    unfold fitsColumn in Hfit. destruct (lastOf column) as [l|] eqn:Hlast.
    + apply lastOf_Some in Hlast as [init ->]. apply Z.leb_le in Hfit.
      apply StronglySorted_snoc_rel; [exact Hc|].
      assert (Hl : endsAfterStart l).
      { rewrite Forall_forall in Hvalid. apply Hvalid.
        rewrite concat_middle. apply in_or_app. right. apply in_or_app. left.
        apply in_or_app. right. left. reflexivity. }
      apply Forall_app. split.
      * apply StronglySorted_before in Hc.
        eapply Forall_impl; [|exact Hc]. unfold endsBeforeNext, endsAfterStart in *.
        intros a Ha'. lia.
      * constructor; [exact Hfit|constructor].
    + apply lastOf_None in Hlast. subst. repeat constructor.
  - apply Forall_app. split; [assumption|]. repeat constructor.
Qed.

Lemma fold_placeEvent_chained l : forall columns,
  Forall endsAfterStart l ->
  Forall (StronglySorted endsBeforeNext) columns ->
  Forall endsAfterStart (List.concat columns) ->
  Forall (StronglySorted endsBeforeNext) (fold_left placeEvent l columns).
Proof.
  induction l as [|e l IH]; intros columns Hl Hch Hvalid; simpl; [exact Hch|].
  inversion Hl; subst. apply IH; [assumption| |].
  - apply placeEvent_chained; assumption.
  - rewrite Forall_forall in *. intros x Hx.
    apply (Permutation_in _ (placeEvent_perm columns e)) in Hx as [<-|Hx];
      [assumption|apply Hvalid, Hx].
Qed.

Lemma layoutColumns_chained events :
  Forall endsAfterStart events ->
  Forall (StronglySorted endsBeforeNext) (layoutColumns events).
Proof.
  intros Hvalid. unfold layoutColumns. apply fold_placeEvent_chained.
  - rewrite Forall_forall in *. intros e He. apply Hvalid.
    apply (Permutation_in _ (sortEventsByStartTime_perm events)), He.
  - constructor.
  - constructor.
Qed.

(** When no event ends before it starts, a column is never double-booked:
    of two events of the same column, the earlier one ends by the start of
    the later one, so they do not overlap. *)
Theorem layout_columns_never_overlap events column :
  Forall endsAfterStart events ->
  In column (layoutColumns events) ->
  StronglySorted
    (fun a b : CalendarEvent => endDate a <= startDate b /\ ~ overlaps a b) column.
Proof.
  intros Hvalid Hin.
  pose proof (layoutColumns_chained events Hvalid) as Hch.
  rewrite Forall_forall in Hch. specialize (Hch _ Hin). clear Hin.
  induction Hch as [|a l Hl IH Ha]; constructor; [exact IH|].
  eapply Forall_impl; [|exact Ha]. unfold endsBeforeNext, overlaps.
  intros b Hb. split; [exact Hb|]. lia.
Qed.

Lemma layout_columns_never_overlap_witness :
  Forall endsAfterStart Examples.held /\
  In Examples.held (layoutColumns Examples.held) /\
  StronglySorted
    (fun a b : CalendarEvent => endDate a <= startDate b /\ ~ overlaps a b)
    Examples.held.
Proof.
  assert (H : Forall endsAfterStart Examples.held).
  { repeat (constructor; [vm_compute; discriminate|]). constructor. }
  assert (Hin : In Examples.held (layoutColumns Examples.held)).
  { left. vm_compute. reflexivity. }
  split; [exact H|]. split; [exact Hin|].
  exact (layout_columns_never_overlap Examples.held Examples.held H Hin).
Defined.

Lemma simultaneous_perm t l1 l2 :
  Permutation l1 l2 -> simultaneous t l1 = simultaneous t l2.
Proof.
  intros H. unfold simultaneous. apply Permutation_length, filter_perm, H.
Qed.

Lemma simultaneous_app t l1 l2 :
  simultaneous t (l1 ++ l2) = (simultaneous t l1 + simultaneous t l2)%nat.
Proof. unfold simultaneous. rewrite filter_app, length_app. reflexivity. Qed.

(** In a column whose events follow one another, at most one runs at any
    instant. *)
Lemma chained_at_most_one t column :
  StronglySorted endsBeforeNext column -> (simultaneous t column <= 1)%nat.
Proof.
  induction 1 as [|a l Hl IH Ha]; [unfold simultaneous; simpl; lia|].
  unfold simultaneous in *. simpl. destruct (runsAt t a) eqn:Hrun; [|exact IH].
  simpl. replace (filter (runsAt t) l) with (@nil CalendarEvent); [simpl; lia|].
  symmetry. apply proj1 with (B := True). split; [|exact I].
  clear IH Hl. induction l as [|b l IHl]; [reflexivity|].
  inversion Ha as [|? ? Hb Hrest]; subst. simpl.
  unfold runsAt in Hrun |- *. unfold endsBeforeNext in Hb.
  apply andb_true_iff in Hrun as [_ Hend]. apply Z.ltb_lt in Hend.
  replace (startDate b <=? t) with false by (symmetry; apply Z.leb_gt; lia).
  simpl. apply IHl, Hrest.
Qed.

Lemma simultaneous_concat_le t (columns : list (list CalendarEvent)) :
  Forall (StronglySorted endsBeforeNext) columns ->
  (simultaneous t (List.concat columns) <= List.length columns)%nat.
Proof.
  induction 1 as [|c columns Hc _ IH]; [unfold simultaneous; simpl; lia|].
  simpl. rewrite simultaneous_app. pose proof (chained_at_most_one t c Hc). lia.
Qed.

Lemma simultaneous_concat_ge t (columns : list (list CalendarEvent)) :
  Forall (fun c => exists x, In x c /\ runsAt t x = true) columns ->
  (List.length columns <= simultaneous t (List.concat columns))%nat.
Proof.
  induction 1 as [|c columns (x & Hx & Hrun) _ IH]; [simpl; lia|].
  simpl. rewrite simultaneous_app.
  assert (1 <= simultaneous t c)%nat.
  { unfold simultaneous.
    assert (Hin : In x (filter (runsAt t) c)) by (apply filter_In; auto).
    destruct (filter (runsAt t) c); [destruct Hin|simpl; lia]. }
  lia.
Qed.

(** When an event opens a new column, it and the last event of every
    other column all run at its start. *)
Lemma new_column_depth (columns : list (list CalendarEvent)) (e : CalendarEvent) :
  startsBeforeEnd e ->
  Forall (fun c => c <> []) columns ->
  Forall (fun x : CalendarEvent => startDate x <= startDate e) (List.concat columns) ->
  Forall (fun c => fitsColumn e c = false) columns ->
  (List.length (columns ++ [[e]])
   <= simultaneous (startDate e) (List.concat (columns ++ [[e]])))%nat.
Proof.
  intros He Hne Hbefore Hnofit.
  rewrite concat_app, simultaneous_app, length_app. simpl.
  assert (Hself : simultaneous (startDate e) [e] = 1%nat).
  { unfold simultaneous, runsAt. simpl. unfold startsBeforeEnd in He.
    replace (startDate e <=? startDate e) with true by (symmetry; apply Z.leb_le; lia).
    replace (startDate e <? endDate e) with true by (symmetry; apply Z.ltb_lt; lia).
    reflexivity. }
  change (List.concat [[e]]) with [e] in *. rewrite Hself.
  assert (List.length columns <= simultaneous (startDate e) (List.concat columns))%nat;
    [|lia].
  apply simultaneous_concat_ge.
  rewrite Forall_forall in *. intros c Hc.
  specialize (Hnofit c Hc). unfold fitsColumn in Hnofit.
  destruct (lastOf c) as [l|] eqn:Hlast; [|discriminate].
  apply lastOf_Some in Hlast as [init ->].
  assert (Hl : In l (init ++ [l])) by (apply in_or_app; right; left; reflexivity).
  exists l. split; [exact Hl|].
  assert (Hstart : startDate l <= startDate e).
  { apply Hbefore. apply in_concat. exists (init ++ [l]). split; assumption. }
  apply Z.leb_gt in Hnofit. unfold runsAt.
  apply andb_true_intro. split; [apply Z.leb_le|apply Z.ltb_lt]; lia.
Qed.

Lemma fold_placeEvent_depth l : forall columns,
  StronglySorted byStart l -> Forall startsBeforeEnd l ->
  Forall (fun c => c <> []) columns ->
  (forall x y : CalendarEvent,
     In x (List.concat columns) -> In y l -> startDate x <= startDate y) ->
  (columns = [] \/
   exists t, (List.length columns <= simultaneous t (List.concat columns))%nat) ->
  fold_left placeEvent l columns = [] \/
  exists t, (List.length (fold_left placeEvent l columns)
             <= simultaneous t (List.concat (fold_left placeEvent l columns)))%nat.
Proof.
  induction l as [|e l IH]; intros columns Hsorted Hvalid Hne Hbefore Hdepth;
    [exact Hdepth|].
  inversion Hsorted as [|? ? Hs Hmin]; subst.
  inversion Hvalid as [|? ? He Hl]; subst.
  simpl. apply IH; try assumption.
  - apply placeEvent_nonempty, Hne.
  - intros x y Hx Hy.
    apply (Permutation_in _ (placeEvent_perm columns e)) in Hx as [<-|Hx].
    + rewrite Forall_forall in Hmin. apply Hmin, Hy.
    + apply Hbefore; [exact Hx|right; exact Hy].
  - right.
    destruct (placeEvent_cases columns e)
      as [(before & column & after & Hcols & _ & _ & Hplaced)|[Hnofit Hplaced]].
    + destruct Hdepth as [->|[t Ht]]; [destruct before; discriminate Hcols|].
      exists t. rewrite (simultaneous_perm t _ _ (placeEvent_perm columns e)).
      rewrite Hplaced. subst columns.
      rewrite !length_app in *. simpl in *.
      change (e :: List.concat (before ++ column :: after))
        with ([e] ++ List.concat (before ++ column :: after)).
      rewrite simultaneous_app. lia.
    + exists (startDate e). rewrite Hplaced.
      apply new_column_depth; try assumption.
      rewrite Forall_forall. intros x Hx. apply Hbefore; [exact Hx|left; reflexivity].
Qed.

(** For events that start before they end, the layout uses as few columns
    as any layout can: at no instant do more events run than there are
    columns, and, unless there is no event, at some instant exactly as
    many events run as there are columns. *)
Theorem layout_uses_fewest_columns events :
  Forall startsBeforeEnd events ->
  (forall t, (simultaneous t events <= List.length (layoutColumns events))%nat) /\
  (events <> [] ->
   exists t, simultaneous t events = List.length (layoutColumns events)).
Proof.
  intros Hvalid.
  assert (Hupper : forall t,
            (simultaneous t events <= List.length (layoutColumns events))%nat).
  { intros t. rewrite <- (simultaneous_perm t _ _ (layoutColumns_perm events)).
    apply simultaneous_concat_le, layoutColumns_chained.
    eapply Forall_impl; [|exact Hvalid]. unfold startsBeforeEnd, endsAfterStart.
    intros; lia. }
  split; [exact Hupper|]. intros Hne.
  assert (Hsorted_valid : Forall startsBeforeEnd (sortEventsByStartTime events)).
  { rewrite Forall_forall in *. intros e He. apply Hvalid.
    apply (Permutation_in _ (sortEventsByStartTime_perm events)), He. }
  destruct (fold_placeEvent_depth (sortEventsByStartTime events) []
              (sortEventsByStartTime_sorted events) Hsorted_valid
              (Forall_nil _) (fun x y Hx => False_ind _ Hx) (or_introl eq_refl))
    as [Hempty|[t Ht]].
  - exfalso. apply Hne.
    pose proof (layoutColumns_perm events) as Hperm.
    unfold layoutColumns in Hperm. rewrite Hempty in Hperm. simpl in Hperm.
    apply Permutation_nil, Hperm.
  - exists t. fold (layoutColumns events) in Ht.
    rewrite (simultaneous_perm t _ _ (layoutColumns_perm events)) in Ht.
    specialize (Hupper t). lia.
Qed.

Lemma layout_uses_fewest_columns_witness :
  Forall startsBeforeEnd Scenario.threeOverlapping /\
  forall t,
    (simultaneous t Scenario.threeOverlapping
     <= List.length (layoutColumns Scenario.threeOverlapping))%nat.
Proof.
  assert (H : Forall startsBeforeEnd Scenario.threeOverlapping).
  { repeat (constructor; [vm_compute; reflexivity|]). constructor. }
  split; [exact H|].
  destruct (layout_uses_fewest_columns Scenario.threeOverlapping H) as [Hmost _].
  exact Hmost.
Defined.

(* ================================================================== *)
(** ** More on sorting and on free time *)
(* ================================================================== *)

Lemma insertByStart_filter (k : Date) (e : CalendarEvent) (l : list CalendarEvent) :
  filter (fun x : CalendarEvent => startDate x =? k) (insertByStart e l) =
  filter (fun x : CalendarEvent => startDate x =? k) (e :: l).
Proof.
  induction l as [|x l IH]; [reflexivity|].
  cbn [insertByStart]. destruct (Z.leb_spec (startDate e) (startDate x)) as [Hle|Hgt];
    [reflexivity|].
  cbn [filter] in *. rewrite IH.
  destruct (Z.eqb_spec (startDate e) k) as [He|He];
    destruct (Z.eqb_spec (startDate x) k) as [Hx|Hx]; try reflexivity.
  lia.
Qed.

Lemma insertByStart_head (e : CalendarEvent) (l : list CalendarEvent) :
  Forall (byStart e) l -> insertByStart e l = e :: l.
Proof.
  destruct l as [|x l]; [reflexivity|]. intros H. inversion H as [|? ? Hx _]; subst.
  cbn [insertByStart]. unfold byStart in Hx. apply Z.leb_le in Hx. rewrite Hx.
  reflexivity.
Qed.

(** [sortEventsByStartTime] returns the same events in non-decreasing order
    of start; events with the same start keep the order they were given
    in, and a list already in order is returned as it is. *)
Theorem sortEventsByStartTime_stable events :
  StronglySorted byStart (sortEventsByStartTime events) /\
  Permutation (sortEventsByStartTime events) events /\
  (forall k,
     filter (fun e : CalendarEvent => startDate e =? k) (sortEventsByStartTime events)
     = filter (fun e : CalendarEvent => startDate e =? k) events) /\
  (StronglySorted byStart events -> sortEventsByStartTime events = events).
Proof.
  split; [apply sortEventsByStartTime_sorted|].
  split; [apply sortEventsByStartTime_perm|]. split.
  - intros k. induction events as [|e l IH]; [reflexivity|].
    cbn [sortEventsByStartTime fold_right].
    fold (sortEventsByStartTime l). rewrite insertByStart_filter.
    cbn [filter]. rewrite IH. reflexivity.
  - induction 1 as [|e l Hl IH He]; [reflexivity|].
    cbn [sortEventsByStartTime fold_right]. fold (sortEventsByStartTime l).
    rewrite IH. apply insertByStart_head, He.
Qed.

Lemma gapsFrom_min_duration bs be minDuration dayEvents : forall c,
  Forall (fun s => minDuration <= duration s)
    (gapsFrom bs be minDuration c dayEvents).
Proof.
  induction dayEvents as [|e l IH]; intros c; simpl.
  - apply Forall_forall. intros s Hs. apply pushGap_inv in Hs as (-> & _ & H).
    exact H.
  - apply Forall_app. split; [|apply IH].
    apply Forall_forall. intros s Hs. apply pushGap_inv in Hs as (-> & _ & H).
    exact H.
Qed.

(** [nextAvailableHour] is the first slot of [allFreeSlots] that lasts at
    least 60 minutes, and [null] when there is none; with a minimum
    duration of 60 minutes or more, as by default, it is simply the first
    free slot of the day. *)
Theorem next_available_hour_is_first_long_slot events targetDate minDuration :
  let result := findFreeTimeSlots events targetDate minDuration in
  match nextAvailableHour result with
  | None => Forall (fun s => duration s < 60) (allFreeSlots result)
  | Some slot =>
      exists before after,
        allFreeSlots result = before ++ slot :: after /\
        60 <= duration slot /\
        Forall (fun s => duration s < 60) before
  end /\
  (60 <= minDuration -> nextAvailableHour result = hd_error (allFreeSlots result)).
Proof.
  unfold findFreeTimeSlots. cbn [allFreeSlots nextAvailableHour].
  rewrite collectFreeSlots_gapsFrom.
  match goal with |- context [gapsFrom ?a ?b ?c ?d ?e] =>
    pose proof (gapsFrom_min_duration a b c e d) as Hmin;
    generalize dependent (gapsFrom a b c d e) end.
  intros slots Hmin. split.
  - clear Hmin. induction slots as [|s slots IH]; simpl; [constructor|].
    destruct (Z.leb_spec 60 (duration s)) as [Hlong|Hshort].
    + exists [], slots. repeat split; auto.
    + destruct (find _ slots) as [slot|].
      * destruct IH as (before & after & -> & Hd & Hb).
        exists (s :: before), after. repeat split; auto.
      * constructor; assumption.
  - intros H60. destruct slots as [|s slots]; [reflexivity|].
    inversion Hmin as [|? ? Hs _]; subst. simpl.
    replace (60 <=? duration s) with true by (symmetry; apply Z.leb_le; lia).
    reflexivity.
Qed.

Lemma filter_none {A} (f : A -> bool) (l : list A) :
  Forall (fun x => f x = false) l -> filter f l = [].
Proof.
  induction 1 as [|x l Hx _ IH]; [reflexivity|]. simpl. rewrite Hx. exact IH.
Qed.

Lemma whole_window_minutes (d : Date) :
  differenceInMinutes (setHours (startOfDay d) 18) (setHours (startOfDay d) 8) = 600.
Proof.
  unfold differenceInMinutes, setHours, MS_PER_HOUR, MS_PER_MINUTE.
  replace (startOfDay (startOfDay d) + 18 * 3600000
           - (startOfDay (startOfDay d) + 8 * 3600000)) with 36000000 by lia.
  reflexivity.
Qed.

Lemma business_start_morning (d : Date) :
  getTimeOfDayType (setHours (startOfDay d) 8) = morning.
Proof.
  unfold getTimeOfDayType.
  rewrite getHours_setHours; [reflexivity|apply startOfDay_mod|lia].
Qed.

(** On a day on which no event starts, the whole business window is one
    free slot of 600 minutes, tagged morning, which is also the longest
    block and the next available hour; when more than 600 minutes are
    asked for, there is no slot at all. *)
Theorem free_day_is_one_slot events targetDate minDuration :
  Forall (fun e : CalendarEvent => isSameDay (startDate e) targetDate = false) events ->
  let result := findFreeTimeSlots events targetDate minDuration in
  (minDuration <= 600 ->
   allFreeSlots result = [wholeWindow targetDate] /\
   longestFreeBlock result = Some (wholeWindow targetDate) /\
   nextAvailableHour result = Some (wholeWindow targetDate)) /\
  (600 < minDuration ->
   allFreeSlots result = [] /\
   longestFreeBlock result = None /\ nextAvailableHour result = None).
Proof.
  intros Hnone. unfold findFreeTimeSlots.
  cbn [allFreeSlots longestFreeBlock nextAvailableHour].
  rewrite (filter_none _ _ Hnone). cbn [sortEventsByStartTime fold_right].
  unfold collectFreeSlots. cbn [fold_left]. unfold pushGap.
  rewrite whole_window_minutes, business_start_morning.
  replace (setHours (startOfDay targetDate) 8 <? setHours (startOfDay targetDate) 18)
    with true
    by (symmetry; apply Z.ltb_lt; unfold setHours, MS_PER_HOUR; lia).
  split; intros Hmin.
  - replace (minDuration <=? 600) with true by (symmetry; apply Z.leb_le; lia).
    repeat split; reflexivity.
  - replace (minDuration <=? 600) with false by (symmetry; apply Z.leb_gt; lia).
    repeat split; reflexivity.
Qed.

Lemma free_day_is_one_slot_witness :
  Forall (fun e : CalendarEvent => isSameDay (startDate e) Examples.saturday = false)
    [Scenario.lunch] /\
  allFreeSlots (findFreeTimeSlots [Scenario.lunch] Examples.saturday 60)
  = [wholeWindow Examples.saturday].
Proof.
  assert (H : Forall (fun e : CalendarEvent =>
                        isSameDay (startDate e) Examples.saturday = false)
                [Scenario.lunch]).
  { constructor; [vm_compute; reflexivity|constructor]. }
  split; [exact H|].
  pose proof (free_day_is_one_slot [Scenario.lunch] Examples.saturday 60 H) as Hday.
  cbv zeta in Hday. destruct Hday as [Hwhole _].
  assert (Hmin : 60 <= 600) by lia.
  destruct (Hwhole Hmin) as [Hslots _]. exact Hslots.
Defined.

(** For a [ConflictInfo] returned by [detectEventConflicts], the severity
    is [high] with three conflicting events or more, [medium] with exactly
    two, and [low] with one or none. *)
Theorem severity_counts_conflicts depth newEvent existingEvents excludeEventId r :
  detectEventConflicts depth newEvent existingEvents excludeEventId = Some r ->
  (getConflictSeverity r = high <-> (3 <= List.length (conflictingEvents r))%nat) /\
  (getConflictSeverity r = medium <-> List.length (conflictingEvents r) = 2%nat) /\
  (getConflictSeverity r = low <-> (List.length (conflictingEvents r) <= 1)%nat).
Proof.
  intros H. apply detect_inv in H as (suggested & -> & _).
  unfold getConflictSeverity, conflictInfoOf. cbn [hasConflict conflictingEvents].
  destruct (filter _ _) as [|a [|b [|c rest]]]; cbn;
    repeat split; intros; try discriminate; try reflexivity; try lia.
Qed.

Lemma severity_counts_conflicts_witness :
  detectEventConflicts 1 Examples.allDayLong Scenario.threeOverlapping None
  = Some (conflictInfoOf Examples.allDayLong Scenario.threeOverlapping None []) /\
  (getConflictSeverity
     (conflictInfoOf Examples.allDayLong Scenario.threeOverlapping None []) = high <->
   (3 <= List.length
           (conflictingEvents
              (conflictInfoOf Examples.allDayLong Scenario.threeOverlapping
                 None [])))%nat).
Proof.
  assert (H : detectEventConflicts 1 Examples.allDayLong Scenario.threeOverlapping None
              = Some (conflictInfoOf Examples.allDayLong Scenario.threeOverlapping
                        None [])).
  { vm_compute. reflexivity. }
  split; [exact H|].
  destruct (severity_counts_conflicts 1 Examples.allDayLong Scenario.threeOverlapping
              None _ H) as [Hhigh _].
  exact Hhigh.
Defined.

(* ================================================================== *)
(** ** More on the weekly pattern and on suggestions *)
(* ================================================================== *)

Lemma timeSlots_bounds p :
  In p timeSlots -> 9 <= probeStart p /\ probeStart p < probeEnd p /\ probeEnd p <= 17.
Proof.
  unfold timeSlots. simpl. intros H.
  repeat (destruct H as [<-|H]; [simpl; lia|]). destruct H.
Qed.

Lemma filter_all {A} (f : A -> bool) (l : list A) :
  Forall (fun x => f x = true) l -> filter f l = l.
Proof.
  induction 1 as [|x l Hx _ IH]; [reflexivity|]. simpl. rewrite Hx, IH. reflexivity.
Qed.

Lemma flat_map_singleton {A B} (f : A -> B) (g : A -> list B) (l : list A) :
  (forall x, In x l -> g x = [f x]) -> flat_map g l = map f l.
Proof.
  induction l as [|x l IH]; intros H; [reflexivity|].
  simpl. rewrite (H x) by (left; reflexivity). simpl. f_equal.
  apply IH. intros y Hy. apply H. right. exact Hy.
Qed.

(** Events that lie outside the week of the reference date, ending by its
    Monday at midnight or starting at or after the next Monday, do not
    count: the weekly pattern then holds the six hourly probes, each on
    the Monday, as for an empty list of events. *)
Theorem weekly_pattern_ignores_other_weeks events referenceDate :
  Forall (fun e : CalendarEvent =>
            startDate e <= endDate e /\
            (endDate e <= mondayOf referenceDate \/
             mondayOf referenceDate + 7 * MS_PER_DAY <= startDate e)) events ->
  findRecurringWeeklyPattern events referenceDate =
  map (fun p => probeSlot p (mondayOf referenceDate)) timeSlots.
Proof.
  intros Houtside. unfold findRecurringWeeklyPattern.
  rewrite fold_probeStep, weekDaysOf_mondayToSunday. cbn [app].
  apply flat_map_singleton. intros p Hp.
  apply timeSlots_bounds in Hp as (H9 & Hlt & H17).
  assert (Hfree : conflictFreeDays events (mondayToSunday referenceDate) p
                  = mondayToSunday referenceDate).
  { apply filter_all. apply Forall_forall. intros day Hday.
    pose proof (mondayToSunday_mod _ _ Hday) as Hmod.
    assert (Hrange : mondayOf referenceDate <= day
                     <= mondayOf referenceDate + 6 * MS_PER_DAY).
    { unfold mondayToSunday in Hday. apply in_map_iff in Hday as (i & <- & Hi).
      simpl in Hi. unfold MS_PER_DAY. lia. }
    apply negb_true_iff. unfold probeHasConflict.
    apply not_true_is_false. intros Hex. apply existsb_exists in Hex as (e & He & Hov).
    rewrite Forall_forall in Houtside. destruct (Houtside e He) as [Hvalid Hside].
    unfold setHours in Hov. rewrite (startOfDay_fixed _ Hmod) in Hov.
    rewrite areIntervalsOverlapping_ordered in Hov;
      [|unfold MS_PER_HOUR; lia|exact Hvalid].
    apply andb_true_iff in Hov as [H1 H2].
    apply Z.ltb_lt in H1. apply Z.ltb_lt in H2.
    unfold MS_PER_HOUR, MS_PER_DAY in *. lia. }
  unfold patternOf. rewrite Hfree. unfold mondayToSunday. cbn [map List.length Nat.leb].
  rewrite Z.mul_0_l, Z.add_0_r. reflexivity.
Qed.

Lemma weekly_pattern_ignores_other_weeks_witness :
  findRecurringWeeklyPattern [Examples.earlier] Scenario.midnight =
  map (fun p => probeSlot p (mondayOf Scenario.midnight)) timeSlots.
Proof.
  assert (H : Forall (fun e : CalendarEvent =>
                        startDate e <= endDate e /\
                        (endDate e <= mondayOf Scenario.midnight \/
                         mondayOf Scenario.midnight + 7 * MS_PER_DAY <= startDate e))
                [Examples.earlier]).
  { constructor; [|constructor]. split; [|left]; vm_compute; discriminate. }
  exact (weekly_pattern_ignores_other_weeks [Examples.earlier] Scenario.midnight H).
Defined.

Lemma scanSlots_ext detect1 detect2 newEvent evs excl1 excl2 :
  (forall probe, detect1 probe evs excl1 = detect2 probe evs excl2) ->
  forall n cur sugg,
    scanSlots detect1 newEvent evs excl1 n cur sugg =
    scanSlots detect2 newEvent evs excl2 n cur sugg.
Proof.
  intros Hext. induction n as [|n IH]; intros cur sugg; cbn [scanSlots];
    [reflexivity|].
  destruct (cur <? _); [|reflexivity].
  destruct (_ <=? _); [|apply IH].
  rewrite Hext. destruct (detect2 _ _ _) as [c|]; [|reflexivity].
  destruct (negb _); [|apply IH].
  destruct (3 <=? _)%nat; [reflexivity|apply IH].
Qed.

Lemma detect_same_exclusion excl1 excl2 :
  (forall e, isExcluded excl1 e = isExcluded excl2 e) ->
  forall depth newEvent evs,
    detectEventConflicts depth newEvent evs excl1 =
    detectEventConflicts depth newEvent evs excl2.
Proof.
  intros Hex. induction depth as [|depth IH]; intros newEvent evs; [reflexivity|].
  cbn [detectEventConflicts].
  assert (Hfilter : filter (conflictsWith newEvent excl1) evs
                    = filter (conflictsWith newEvent excl2) evs).
  { apply filter_ext. intros e. unfold conflictsWith. rewrite Hex. reflexivity. }
  rewrite Hfilter. unfold generateWith.
  rewrite (scanSlots_ext (detectEventConflicts depth) (detectEventConflicts depth)
             newEvent evs excl1 excl2 (fun probe => IH probe evs)).
  reflexivity.
Qed.

(** With a non-empty [excludeEventId], no event of that id is ever reported
    as conflicting; an empty [excludeEventId] excludes nothing and gives
    the result of a call without it. *)
Theorem excluded_event_never_reported depth newEvent existingEvents :
  (forall x r, x <> EmptyString ->
     detectEventConflicts depth newEvent existingEvents (Some x) = Some r ->
     Forall (fun e : CalendarEvent => id e <> x) (conflictingEvents r)) /\
  detectEventConflicts depth newEvent existingEvents (Some EmptyString) =
  detectEventConflicts depth newEvent existingEvents None.
Proof.
  split.
  - intros x r Hx Hr. apply detect_inv in Hr as (suggested & -> & _).
    unfold conflictInfoOf. cbn [conflictingEvents].
    apply Forall_forall. intros e He. apply filter_In in He as [_ Hc].
    unfold conflictsWith in Hc. intros Hid.
    apply (isExcluded_spec x e Hx) in Hid. rewrite Hid in Hc. discriminate Hc.
  - apply detect_same_exclusion. intros e. reflexivity.
Qed.

(** Whenever [generateAlternativeTimeSlots] returns, it returns at most
    three times, in strictly increasing order, each on the 30-minute grid
    of the business window of the candidate's day, each leaving room for
    the whole minutes of the candidate before 18:00, and each free of
    conflicts; and what it does is the same at every positive call depth. *)
Theorem suggestions_when_returned depth depth' newEvent existingEvents excludeEventId :
  generateAlternativeTimeSlots (S depth) newEvent existingEvents excludeEventId =
  generateAlternativeTimeSlots (S depth') newEvent existingEvents excludeEventId /\
  forall r,
    generateAlternativeTimeSlots (S depth) newEvent existingEvents excludeEventId
      = Some r ->
    (List.length r <= 3)%nat /\ StronglySorted Z.lt r /\
    Forall (goodSuggestion newEvent existingEvents excludeEventId) r.
Proof.
  split.
  - rewrite !generate_scanOnce. reflexivity.
  - intros r Hr. apply (generate_sound depth), Hr.
Qed.

Lemma scanSlots_free_step detect newEvent evs excl n cur sugg c :
  (cur <? businessEndOf (startDate newEvent)) = true ->
  (addMinutes cur (eventDurationOf newEvent)
     <=? businessEndOf (startDate newEvent)) = true ->
  detect (testEventAt newEvent cur (addMinutes cur (eventDurationOf newEvent)))
    evs excl = Some c ->
  hasConflict c = false ->
  scanSlots detect newEvent evs excl (S n) cur sugg =
  if (3 <=? List.length (sugg ++ [cur]))%nat then Some (sugg ++ [cur])
  else scanSlots detect newEvent evs excl n (addMinutes cur 30) (sugg ++ [cur]).
Proof.
  intros H1 H2 H3 H4. cbn [scanSlots]. rewrite H1, H2, H3, H4. reflexivity.
Qed.

(** When the candidate lasts between 0 and 540 whole minutes and its
    probes at 08:00, 08:30 and 09:00 are free of conflicts,
    [generateAlternativeTimeSlots] returns exactly these three times,
    wherever in the day the candidate itself lies. *)
Theorem free_morning_gives_first_three depth newEvent existingEvents excludeEventId :
  let businessStart := businessStartOf (startDate newEvent) in
  let D := eventDurationOf newEvent in
  0 <= D <= 540 ->
  (forall t, In t [businessStart; addMinutes businessStart 30;
                   addMinutes (addMinutes businessStart 30) 30] ->
     probeIsFree (testEventAt newEvent t (addMinutes t D)) existingEvents
       excludeEventId = true) ->
  generateAlternativeTimeSlots (S depth) newEvent existingEvents excludeEventId =
  Some [businessStart; addMinutes businessStart 30;
        addMinutes (addMinutes businessStart 30) 30].
Proof.
  intros bs D HD Hfree.
  rewrite generate_scanOnce, scanOnce_eq. fold bs.
  assert (Hstep : forall t n sugg,
            In t [bs; addMinutes bs 30; addMinutes (addMinutes bs 30) 30] ->
            scanSlots detectOnce newEvent existingEvents excludeEventId (S n) t sugg =
            if (3 <=? List.length (sugg ++ [t]))%nat then Some (sugg ++ [t])
            else scanSlots detectOnce newEvent existingEvents excludeEventId n
                   (addMinutes t 30) (sugg ++ [t])).
  { intros t n sugg Ht.
    apply (scanSlots_free_step detectOnce newEvent existingEvents excludeEventId
             n t sugg
             (conflictInfoOf
                (testEventAt newEvent t (addMinutes t (eventDurationOf newEvent)))
                existingEvents excludeEventId [])).
    - apply Z.ltb_lt. fold D in HD.
      unfold bs, businessStartOf, businessEndOf, setHours, addMinutes,
        MS_PER_HOUR, MS_PER_MINUTE in *.
      simpl in Ht. destruct Ht as [<-|[<-|[<-|[]]]]; lia.
    - apply Z.leb_le. fold D. 
      unfold bs, businessStartOf, businessEndOf, setHours, addMinutes,
        MS_PER_HOUR, MS_PER_MINUTE in *.
      simpl in Ht. destruct Ht as [<-|[<-|[<-|[]]]]; lia.
    - unfold detectOnce. fold D. rewrite (Hfree t Ht). reflexivity.
    - specialize (Hfree t Ht). fold D. unfold probeIsFree in Hfree.
      apply negb_true_iff in Hfree. unfold conflictInfoOf. cbn [hasConflict].
      exact Hfree. }
  change scanBound with (S (S (S 17))).
  rewrite (Hstep bs (S (S 17)) []) by (simpl; auto).
  cbn [app List.length Nat.leb].
  rewrite (Hstep (addMinutes bs 30) (S 17) [bs]) by (simpl; auto).
  cbn [app List.length Nat.leb].
  rewrite (Hstep (addMinutes (addMinutes bs 30) 30) 17%nat [bs; addMinutes bs 30])
    by (simpl; auto).
  cbn [app List.length Nat.leb]. reflexivity.
Qed.

Lemma free_morning_gives_first_three_witness :
  generateAlternativeTimeSlots 1 Scenario.clientCall [Scenario.lunch] None =
  Some [businessStartOf (startDate Scenario.clientCall);
        addMinutes (businessStartOf (startDate Scenario.clientCall)) 30;
        addMinutes (addMinutes (businessStartOf (startDate Scenario.clientCall)) 30) 30].
Proof.
  assert (HD : 0 <= eventDurationOf Scenario.clientCall <= 540).
  { split; vm_compute; discriminate. }
  assert (Hfree : forall t,
            In t [businessStartOf (startDate Scenario.clientCall);
                  addMinutes (businessStartOf (startDate Scenario.clientCall)) 30;
                  addMinutes
                    (addMinutes (businessStartOf (startDate Scenario.clientCall)) 30)
                    30] ->
            probeIsFree
              (testEventAt Scenario.clientCall t
                 (addMinutes t (eventDurationOf Scenario.clientCall)))
              [Scenario.lunch] None = true).
  { intros t Ht. destruct Ht as [<-|[<-|[<-|[]]]]; vm_compute; reflexivity. }
  exact (free_morning_gives_first_three 0 Scenario.clientCall [Scenario.lunch] None
           HD Hfree).
Defined.

(* ================================================================== *)
(** ** Time strings and positions on the day grid *)
(* ================================================================== *)

Lemma getHours_range d : 0 <= getHours d <= 23.
Proof.
  unfold getHours, MS_PER_DAY, MS_PER_HOUR.
  pose proof (Z.mod_pos_bound d 86400000 ltac:(lia)) as Hm.
  split; [apply Z.div_pos; lia|].
  apply Z.lt_succ_r, Z.div_lt_upper_bound; lia.
Qed.

Lemma getMinutes_range d : 0 <= getMinutes d <= 59.
Proof.
  unfold getMinutes, MS_PER_HOUR, MS_PER_MINUTE.
  pose proof (Z.mod_pos_bound d 3600000 ltac:(lia)) as Hm.
  split; [apply Z.div_pos; lia|].
  apply Z.lt_succ_r, Z.div_lt_upper_bound; lia.
Qed.

Lemma clock_table :
  forallb (fun h => forallb (fun m => readsAs (clockString h m) h m)
                      (map Z.of_nat (seq 0 60)))
          (map Z.of_nat (seq 0 24)) = true.
Proof. vm_compute. reflexivity. Qed.

Lemma clockString_reads hours minutes :
  0 <= hours <= 23 -> 0 <= minutes <= 59 ->
  readsAs (clockString hours minutes) hours minutes = true.
Proof.
  intros Hh Hm. pose proof clock_table as Htable.
  rewrite forallb_forall in Htable.
  assert (Hin : In hours (map Z.of_nat (seq 0 24))).
  { apply in_map_iff. exists (Z.to_nat hours). split; [lia|]. apply in_seq. lia. }
  specialize (Htable _ Hin). rewrite forallb_forall in Htable.
  apply Htable. apply in_map_iff. exists (Z.to_nat minutes).
  split; [lia|]. apply in_seq. lia.
Qed.

Lemma whole_minute_parts t :
  t mod MS_PER_MINUTE = 0 ->
  startOfDay t + getHours t * MS_PER_HOUR + getMinutes t * MS_PER_MINUTE = t.
Proof.
  unfold startOfDay, getHours, getMinutes, MS_PER_DAY, MS_PER_HOUR, MS_PER_MINUTE.
  intros Hmin.
  assert (H1 : (t mod 86400000) mod 3600000 = t mod 3600000).
  { apply Z.mod_mod_divide. exists 24. reflexivity. }
  assert (H2 : (t mod 3600000) mod 60000 = t mod 60000).
  { apply Z.mod_mod_divide. exists 60. reflexivity. }
  pose proof (Z.div_mod (t mod 86400000) 3600000 ltac:(lia)) as E1.
  pose proof (Z.div_mod (t mod 3600000) 60000 ltac:(lia)) as E2.
  rewrite H1 in E1. rewrite H2, Hmin in E2. lia.
Qed.

Lemma format_read_back date time :
  createDateFromTimeString date (format_HH_mm time) =
  Some (startOfDay date + getHours time * MS_PER_HOUR
        + getMinutes time * MS_PER_MINUTE).
Proof.
  pose proof (clockString_reads _ _ (getHours_range time) (getMinutes_range time))
    as Hreads.
  unfold readsAs, clockString in Hreads.
  unfold createDateFromTimeString, format_HH_mm.
  destruct (parseInt10 (partOrZero (nth_error _ 0))) as [h|]; [|discriminate].
  destruct (parseInt10 (partOrZero (nth_error _ 1))) as [m|]; [|discriminate].
  apply andb_true_iff in Hreads as [Hh Hm].
  apply Z.eqb_eq in Hh. apply Z.eqb_eq in Hm. subst. reflexivity.
Qed.

(** The string that [format(time, 'HH:mm')] gives for a time is read back
    by [createDateFromTimeString] as the hour and the minute of that time,
    on the day of the date given; a time on a whole minute is recovered
    from its own string. *)
Theorem time_string_round_trip date time :
  createDateFromTimeString date (format_HH_mm time) =
    Some (startOfDay date + getHours time * MS_PER_HOUR
          + getMinutes time * MS_PER_MINUTE) /\
  (time mod MS_PER_MINUTE = 0 ->
   createDateFromTimeString time (format_HH_mm time) = Some time).
Proof.
  split; [apply format_read_back|].
  intros Hmin. rewrite format_read_back, (whole_minute_parts _ Hmin). reflexivity.
Qed.

Lemma clamped_start_minutes start day :
  let dayStartTime := startOfDay day in
  let eventStart := if isBefore start dayStartTime then dayStartTime else start in
  0 <= differenceInMinutes eventStart dayStartTime /\
  (start <= dayStartTime -> differenceInMinutes eventStart dayStartTime = 0) /\
  (start <= endOfDay day -> differenceInMinutes eventStart dayStartTime <= 1439).
Proof.
  intros dayStartTime eventStart. unfold differenceInMinutes, MS_PER_MINUTE.
  assert (Hge : 0 <= eventStart - dayStartTime).
  { unfold eventStart, isBefore. destruct (start <? dayStartTime) eqn:Hlt;
      [lia|apply Z.ltb_ge in Hlt; lia]. }
  split; [apply Z.quot_pos; lia|]. split.
  - intros Hle. assert (E : eventStart = dayStartTime).
    { unfold eventStart, isBefore. destruct (start <? dayStartTime) eqn:Hlt;
        [reflexivity|apply Z.ltb_ge in Hlt; lia]. }
    rewrite E, Z.sub_diag. reflexivity.
  - intros Hle. assert (Hup : eventStart - dayStartTime < 1440 * 60000).
    { unfold eventStart, isBefore, endOfDay, MS_PER_DAY in *. fold dayStartTime in Hle.
      destruct (start <? dayStartTime); lia. }
    rewrite Z.quot_div_nonneg by lia.
    apply Z.lt_succ_r, Z.div_lt_upper_bound; lia.
Qed.

(** For a positive [intervalMinutes] and a [slotHeight] that is not
    negative, the position that [getEventPosition] gives an event never
    lies above the top of the day column and never has a height below 20;
    an event that starts at or before the start of the day is placed at
    the very top, and one that starts within the day is placed above the
    line of its last minute. *)
Theorem getEventPosition_on_day_grid start end_ day slotHeight intervalMinutes :
  (0 < intervalMinutes)%Q -> (0 <= slotHeight)%Q ->
  let position := getEventPosition start end_ day slotHeight intervalMinutes in
  (0 <= top position)%Q /\ (20 <= height position)%Q /\
  (start <= startOfDay day -> (top position == 0)%Q) /\
  (start <= endOfDay day ->
   (top position <= inject_Z 1439 / intervalMinutes * slotHeight)%Q).
Proof.
  intros Hinterval Hslot position.
  destruct (clamped_start_minutes start day) as (H0 & Htop & Hlast).
  assert (Hinv : (0 <= / intervalMinutes)%Q).
  { apply Qinv_le_0_compat, Qlt_le_weak, Hinterval. }
  unfold position, getEventPosition. cbn [top height].
  repeat split.
  - apply Qmult_le_0_compat; [|exact Hslot].
    unfold Qdiv. apply Qmult_le_0_compat; [|exact Hinv].
    change 0%Q with (inject_Z 0). rewrite <- Zle_Qle. exact H0.
  - destruct (Qle_bool 20 _) eqn:Hmax; [apply Qle_bool_iff, Hmax|apply Qle_refl].
  - intros Hle. rewrite (Htop Hle). unfold Qdiv. rewrite !Qmult_0_l. reflexivity.
  - intros Hle. apply Qmult_le_compat_r; [|exact Hslot].
    unfold Qdiv. apply Qmult_le_compat_r; [|exact Hinv].
    rewrite <- Zle_Qle. exact (Hlast Hle).
Qed.

Lemma getEventPosition_on_day_grid_witness :
  (0 <= top (getEventPosition (startDate Scenario.standup) (endDate Scenario.standup)
               Scenario.midnight 60 60))%Q /\
  (20 <= height (getEventPosition (startDate Scenario.standup)
                   (endDate Scenario.standup) Scenario.midnight 60 60))%Q.
Proof.
  assert (Hinterval : (0 < 60)%Q) by reflexivity.
  assert (Hslot : (0 <= 60)%Q) by (vm_compute; discriminate).
  pose proof (getEventPosition_on_day_grid (startDate Scenario.standup)
                (endDate Scenario.standup) Scenario.midnight 60 60 Hinterval Hslot)
    as Hgrid.
  cbv zeta in Hgrid. destruct Hgrid as (Htop & Hheight & _).
  split; [exact Htop|exact Hheight].
Defined.

(** The strings of [getTimeSlots], for an interval that divides 60, are
    read back by [createDateFromTimeString] as the times of the day of the
    date clicked, one every [intervalMinutes] minutes from midnight on;
    they do not depend on the time of the call. *)
Theorem time_slots_read_back now date intervalMinutes :
  0 < intervalMinutes -> (intervalMinutes | 60) ->
  map (createDateFromTimeString date) (getTimeSlots now intervalMinutes) =
  map (fun i => Some (addMinutes (startOfDay date) (i * intervalMinutes)))
      (map Z.of_nat (seq 0 (Z.to_nat (24 * (60 / intervalMinutes))))) /\
  List.length (getTimeSlots now intervalMinutes)
    = Z.to_nat (24 * (60 / intervalMinutes)).
Proof.
  intros Hpos [q Hq]. split.
  - unfold getTimeSlots. rewrite map_map. apply map_ext_in. intros i Hi.
    apply in_map_iff in Hi as (n & <- & Hn). apply in_seq in Hn.
    assert (Hdiv : 60 / intervalMinutes = q).
    { rewrite Hq. apply Z.div_mul. lia. }
    rewrite Hdiv in Hn.
    assert (Hbound : 0 <= Z.of_nat n * intervalMinutes < 1440) by nia.
    set (offset := Z.of_nat n * intervalMinutes) in *.
    rewrite format_read_back. f_equal.
    set (t := addMinutes (startOfDay now) offset).
    assert (Hday : startOfDay t = startOfDay now).
    { apply startOfDay_within; [apply startOfDay_mod|].
      unfold t, addMinutes, MS_PER_MINUTE, MS_PER_DAY. lia. }
    assert (Hmin : t mod MS_PER_MINUTE = 0).
    { unfold t, addMinutes. rewrite Z_mod_plus_full.
      pose proof (startOfDay_mod now) as Hm.
      rewrite <- (Z.mod_mod_divide _ MS_PER_DAY MS_PER_MINUTE), Hm;
        [reflexivity|exists 1440; reflexivity]. }
    pose proof (whole_minute_parts t Hmin) as Hparts.
    rewrite Hday in Hparts. unfold t at 3 in Hparts. unfold addMinutes in *. lia.
  - unfold getTimeSlots. rewrite !length_map, length_seq. reflexivity.
Qed.

Lemma time_slots_read_back_witness :
  List.length (getTimeSlots (Scenario.atTime Scenario.friday 9 30) 60)
  = Z.to_nat (24 * (60 / 60)).
Proof.
  assert (Hpos : 0 < 60) by reflexivity.
  assert (Hdiv : (60 | 60)) by (exists 1; reflexivity).
  destruct (time_slots_read_back (Scenario.atTime Scenario.friday 9 30)
              Scenario.midnight 60 Hpos Hdiv) as [_ Hlen].
  exact Hlen.
Defined.

(* ================================================================== *)
(** ** Grouping by day, all-day events and keyboard focus *)
(* ================================================================== *)

Lemma mapGet_In m key v : mapGet key m = Some v -> In (key, v) m.
Proof.
  induction m as [|[k x] m IH]; [discriminate|]. cbn [mapGet].
  destruct (Z.eqb_spec k key) as [->|Hne].
  - intros [= ->]. left. reflexivity.
  - intros H. right. apply IH, H.
Qed.

Lemma mapGet_None m key : mapGet key m = None -> ~ In key (map fst m).
Proof.
  induction m as [|[k x] m IH]; [intros _ []|]. cbn [mapGet].
  destruct (Z.eqb_spec k key) as [->|Hne]; [discriminate|].
  intros H [Hk|Hin]; [exact (Hne Hk)|exact (IH H Hin)].
Qed.

Lemma mapSet_keys_present m key v :
  In key (map fst m) -> map fst (mapSet key v m) = map fst m.
Proof.
  induction m as [|[k x] m IH]; [intros []|]. cbn [mapSet].
  destruct (Z.eqb_spec k key) as [->|Hne]; [reflexivity|].
  intros [Hk|Hin]; [contradiction|]. simpl. rewrite (IH Hin). reflexivity.
Qed.

Lemma mapSet_absent m key v :
  ~ In key (map fst m) -> mapSet key v m = m ++ [(key, v)].
Proof.
  induction m as [|[k x] m IH]; [reflexivity|]. cbn [mapSet].
  destruct (Z.eqb_spec k key) as [->|Hne].
  - intros H. exfalso. apply H. left. reflexivity.
  - intros H. simpl. rewrite IH; [reflexivity|].
    intros Hin. apply H. right. exact Hin.
Qed.

Lemma mapSet_In m key v k' v' :
  NoDup (map fst m) -> In (k', v') (mapSet key v m) ->
  (k' = key /\ v' = v) \/ (k' <> key /\ In (k', v') m).
Proof.
  induction m as [|[k x] m IH]; intros Hnd.
  - intros [[= <- <-]|[]]. left. split; reflexivity.
  - cbn [mapSet]. inversion Hnd as [|? ? Hfresh Hnd']; subst.
    destruct (Z.eqb_spec k key) as [->|Hne].
    + intros [[= <- <-]|Hin]; [left; split; reflexivity|].
      right. split; [|right; exact Hin].
      intros ->. apply Hfresh. apply in_map_iff. exists (key, v'). split; [reflexivity|exact Hin].
    + intros [[= <- <-]|Hin]; [right; split; [exact Hne|left; reflexivity]|].
      destruct (IH Hnd' Hin) as [H|[H1 H2]]; [left; exact H|].
      right. split; [exact H1|right; exact H2].
Qed.

Lemma startingOn_snoc day l (e : CalendarEvent) :
  startingOn day (l ++ [e]) =
  if toDateString (startDate e) =? day then startingOn day l ++ [e]
  else startingOn day l.
Proof.
  unfold startingOn. rewrite filter_app. cbn [filter].
  destruct (_ =? _); [reflexivity|apply app_nil_r].
Qed.

Lemma groupStep_keeps m l e :
  grouped_so_far m l -> grouped_so_far (groupStep m e) (l ++ [e]).
Proof.
  intros (Hnd & Hentries & Hcover). unfold groupStep.
  set (key := toDateString (startDate e)).
  destruct (mapGet key m) as [old|] eqn:Hget.
  - pose proof (mapGet_In _ _ _ Hget) as Hold.
    assert (Hkey : In key (map fst m)).
    { apply in_map_iff. exists (key, old). split; [reflexivity|exact Hold]. }
    split; [rewrite mapSet_keys_present by exact Hkey; exact Hnd|]. split.
    + intros day dayEvents Hin.
      rewrite startingOn_snoc. fold key.
      apply (mapSet_In _ _ _ _ _ Hnd) in Hin as [[-> ->]|[Hne Hin]].
      * rewrite Z.eqb_refl. destruct (Hentries _ _ Hold) as [_ <-].
        split; [|reflexivity]. destruct old; discriminate.
      * destruct (Z.eqb_spec key day) as [E|_]; [symmetry in E; contradiction|].
        apply Hentries, Hin.
    + intros x Hx. rewrite mapSet_keys_present by exact Hkey.
      apply in_app_or in Hx as [Hx|[<-|[]]]; [apply Hcover, Hx|exact Hkey].
  - pose proof (mapGet_None _ _ Hget) as Hfresh.
    rewrite (mapSet_absent _ _ _ Hfresh). cbn [app].
    split; [|split].
    + rewrite map_app. cbn [map fst].
      apply NoDup_app; [exact Hnd|repeat constructor; intros []|].
      intros k Hk [<-|[]]. exact (Hfresh Hk).
    + intros day dayEvents Hin. rewrite startingOn_snoc. fold key.
      apply in_app_or in Hin as [Hin|[[= <- <-]|[]]].
      * destruct (Z.eqb_spec key day) as [E|_]; [|apply Hentries, Hin].
        exfalso. apply Hfresh. rewrite E. apply in_map_iff.
        exists (day, dayEvents). split; [reflexivity|exact Hin].
      * rewrite Z.eqb_refl. split; [discriminate|].
        assert (Hnone : startingOn key l = []).
        { unfold startingOn. apply filter_none. apply Forall_forall. intros x Hx.
          destruct (Z.eqb_spec (toDateString (startDate x)) key) as [E|_];
            [|reflexivity].
          exfalso. apply Hfresh. rewrite <- E. apply Hcover, Hx. }
        rewrite Hnone. reflexivity.
    + intros x Hx. rewrite map_app. apply in_or_app.
      apply in_app_or in Hx as [Hx|[<-|[]]]; [left; apply Hcover, Hx|].
      right. left. reflexivity.
Qed.

Lemma fold_groupStep_keeps events : forall m l,
  grouped_so_far m l ->
  grouped_so_far (fold_left groupStep events m) (l ++ events).
Proof.
  induction events as [|e events IH]; intros m l H; cbn [fold_left].
  - rewrite app_nil_r. exact H.
  - replace (l ++ e :: events) with ((l ++ [e]) ++ events)
      by (rewrite <- app_assoc; reflexivity).
    apply IH, groupStep_keeps, H.
Qed.

Lemma grouped_all events :
  grouped_so_far (fold_left groupStep events []) events.
Proof.
  apply (fold_groupStep_keeps events [] []).
  split; [constructor|]. split; [intros ? ? []|intros ? []].
Qed.

Lemma groupEventsByDate_keys events :
  map fst (groupEventsByDate events) = map fst (fold_left groupStep events []).
Proof. unfold groupEventsByDate. rewrite map_map. reflexivity. Qed.

Lemma groupEventsByDate_entry events day dayEvents :
  In (day, dayEvents) (groupEventsByDate events) ->
  startingOn day events <> [] /\
  dayEvents = sortEventsByStartTime (startingOn day events).
Proof.
  destruct (grouped_all events) as (_ & Hentries & _).
  intros Hin. unfold groupEventsByDate in Hin.
  apply in_map_iff in Hin as ([k v] & [= <- <-] & Hin). cbn [fst snd].
  destruct (Hentries _ _ Hin) as [Hne ->]. split; [exact Hne|reflexivity].
Qed.

Lemma groupEventsByDate_covers events (e : CalendarEvent) :
  In e events ->
  In (toDateString (startDate e)) (map fst (groupEventsByDate events)).
Proof.
  destruct (grouped_all events) as (_ & _ & Hcover).
  intros He. rewrite groupEventsByDate_keys. apply Hcover, He.
Qed.

(** [groupEventsByDate] makes one entry for each day on which an event
    starts, and no entry twice; the entry of a day holds the events that
    start on that day, all of them and no other, sorted by start, with
    events of the same start in the order given. *)
Theorem groupEventsByDate_by_start_day events :
  NoDup (map fst (groupEventsByDate events)) /\
  (forall day dayEvents, In (day, dayEvents) (groupEventsByDate events) ->
     dayEvents <> [] /\
     dayEvents = sortEventsByStartTime (startingOn day events)) /\
  (forall e, In e events ->
     In (toDateString (startDate e)) (map fst (groupEventsByDate events))).
Proof.
  split; [|split].
  - rewrite groupEventsByDate_keys.
    destruct (grouped_all events) as (Hnd & _). exact Hnd.
  - intros day dayEvents Hin.
    destruct (groupEventsByDate_entry _ _ _ Hin) as [Hne ->].
    split; [|reflexivity].
    intros Hnil. apply Hne. apply Permutation_nil. rewrite <- Hnil.
    apply sortEventsByStartTime_perm.
  - intros e. apply groupEventsByDate_covers.
Qed.

Lemma filterEventsByDateRange_closed events rangeStart rangeEnd :
  rangeStart <= rangeEnd -> Forall endsAfterStart events ->
  filterEventsByDateRange events rangeStart rangeEnd =
  filter (fun e : CalendarEvent =>
            (startDate e <=? rangeEnd) && (rangeStart <=? endDate e)) events.
Proof.
  intros Hr Hvalid. unfold filterEventsByDateRange.
  apply filter_ext_in. intros e He. rewrite Forall_forall in Hvalid.
  apply isEventInDateRange_closed; [exact Hr|apply Hvalid, He].
Qed.

(** For a range in order and events that do not end before they start,
    [filterEventsByDateRange] keeps, in the order given, the events that
    start by the end of the range and end at or after its start; a wider
    range keeps at least the same events, and the events of a day of the
    range are among the events of the range. *)
Theorem filterEventsByDateRange_closed_range events rangeStart rangeEnd :
  rangeStart <= rangeEnd -> Forall endsAfterStart events ->
  filterEventsByDateRange events rangeStart rangeEnd =
    filter (fun e : CalendarEvent =>
              (startDate e <=? rangeEnd) && (rangeStart <=? endDate e)) events /\
  (forall widerStart widerEnd,
     widerStart <= rangeStart -> rangeEnd <= widerEnd ->
     incl (filterEventsByDateRange events rangeStart rangeEnd)
          (filterEventsByDateRange events widerStart widerEnd)) /\
  (forall date,
     rangeStart <= startOfDay date -> endOfDay date <= rangeEnd ->
     incl (filterEventsByDate events date)
          (filterEventsByDateRange events rangeStart rangeEnd)).
Proof.
  intros Hr Hvalid.
  assert (Hwider : forall s1 e1 s2 e2,
            s1 <= e1 -> s2 <= s1 -> e1 <= e2 ->
            incl (filterEventsByDateRange events s1 e1)
                 (filterEventsByDateRange events s2 e2)).
  { intros s1 e1 s2 e2 H1 Hs He x Hx.
    rewrite filterEventsByDateRange_closed in * by (try assumption; lia).
    apply filter_In in Hx as [Hin Hx]. apply filter_In. split; [exact Hin|].
    apply andb_true_iff in Hx as [Ha Hb].
    apply Z.leb_le in Ha. apply Z.leb_le in Hb.
    apply andb_true_intro. split; apply Z.leb_le; lia. }
  split; [apply filterEventsByDateRange_closed; assumption|]. split.
  - intros widerStart widerEnd Hs He. apply Hwider; assumption.
  - intros date Hs He. unfold filterEventsByDate. apply Hwider; try assumption.
    unfold endOfDay, MS_PER_DAY. lia.
Qed.

Lemma filterEventsByDateRange_closed_range_witness :
  Forall endsAfterStart [Scenario.standup; Scenario.lunch] /\
  filterEventsByDateRange [Scenario.standup; Scenario.lunch]
    (Scenario.atTime Scenario.friday 9 30) (Scenario.atTime Scenario.friday 11 0) =
  filter (fun e : CalendarEvent =>
            (startDate e <=? Scenario.atTime Scenario.friday 11 0)
            && (Scenario.atTime Scenario.friday 9 30 <=? endDate e))
         [Scenario.standup; Scenario.lunch].
Proof.
  assert (H : Forall endsAfterStart [Scenario.standup; Scenario.lunch]).
  { repeat (constructor; [vm_compute; discriminate|]). constructor. }
  assert (Hr : Scenario.atTime Scenario.friday 9 30
               <= Scenario.atTime Scenario.friday 11 0).
  { vm_compute. discriminate. }
  split; [exact H|].
  destruct (filterEventsByDateRange_closed_range [Scenario.standup; Scenario.lunch]
              (Scenario.atTime Scenario.friday 9 30)
              (Scenario.atTime Scenario.friday 11 0) Hr H) as [Hfilter _].
  exact Hfilter.
Defined.

(** The events of a range grouped by day, as [getEventsGroupedByDate]
    returns them for a range in order and events that do not end before
    they start: every entry is for a day that starts by the end of the
    range and holds events given, that start on that day and end at or
    after the start of the range; an event that starts within the range is
    found in the entry of its day.  An event that starts before the range
    and runs into it is listed under its own day, before the range. *)
Theorem range_events_grouped_by_start_day events rangeStart rangeEnd :
  rangeStart <= rangeEnd -> Forall endsAfterStart events ->
  (forall day dayEvents,
     In (day, dayEvents) (getEventsGroupedByDate events rangeStart rangeEnd) ->
     day <= rangeEnd /\
     Forall (fun e : CalendarEvent =>
               In e events /\ toDateString (startDate e) = day /\
               startDate e <= rangeEnd /\ rangeStart <= endDate e) dayEvents) /\
  (forall e : CalendarEvent,
     In e events -> rangeStart <= startDate e <= rangeEnd ->
     exists dayEvents,
       In (toDateString (startDate e), dayEvents)
          (getEventsGroupedByDate events rangeStart rangeEnd) /\
       In e dayEvents).
Proof.
  intros Hr Hvalid. unfold getEventsGroupedByDate.
  pose proof (groupEventsByDate_entry
                (filterEventsByDateRange events rangeStart rangeEnd)) as Hentries.
  pose proof (groupEventsByDate_covers
                (filterEventsByDateRange events rangeStart rangeEnd)) as Hcover.
  rewrite filterEventsByDateRange_closed in * by assumption.
  set (inRange := filter _ events) in *.
  assert (Hmember : forall day dayEvents x,
            In (day, dayEvents) (groupEventsByDate inRange) -> In x dayEvents ->
            In x events /\ toDateString (startDate x) = day /\
            startDate x <= rangeEnd /\ rangeStart <= endDate x).
  { intros day dayEvents x Hentry Hx.
    destruct (Hentries _ _ Hentry) as [_ ->].
    apply (Permutation_in _ (sortEventsByStartTime_perm _)) in Hx.
    unfold startingOn in Hx. apply filter_In in Hx as [Hx Hday].
    unfold inRange in Hx. apply filter_In in Hx as [Hx Hrange].
    apply andb_true_iff in Hrange as [Ha Hb].
    apply Z.leb_le in Ha. apply Z.leb_le in Hb. apply Z.eqb_eq in Hday.
    repeat split; assumption. }
  split.
  - intros day dayEvents Hentry. split.
    + destruct (Hentries _ _ Hentry) as [Hne Hsorted].
      destruct dayEvents as [|x rest].
      { exfalso. apply Hne. apply Permutation_nil. rewrite Hsorted.
        apply sortEventsByStartTime_perm. }
      destruct (Hmember _ _ x Hentry ltac:(left; reflexivity)) as (_ & <- & Hs & _).
      unfold toDateString. pose proof (startOfDay_le (startDate x)). lia.
    + apply Forall_forall. intros x Hx. exact (Hmember _ _ x Hentry Hx).
  - intros e He Hstart.
    assert (Hin : In e inRange).
    { unfold inRange. apply filter_In. split; [exact He|].
      rewrite Forall_forall in Hvalid. specialize (Hvalid e He).
      unfold endsAfterStart in Hvalid.
      apply andb_true_intro. split; apply Z.leb_le; lia. }
    pose proof (Hcover e Hin) as Hkey.
    apply in_map_iff in Hkey as ([day dayEvents] & Hday & Hentry).
    cbn [fst] in Hday. subst day. exists dayEvents. split; [exact Hentry|].
    destruct (Hentries _ _ Hentry) as [_ ->].
    apply (Permutation_in _ (Permutation_sym (sortEventsByStartTime_perm _))).
    unfold startingOn. apply filter_In. split; [exact Hin|apply Z.eqb_refl].
Qed.

Lemma range_events_grouped_by_start_day_witness :
  Forall endsAfterStart [Scenario.standup; Scenario.lunch] /\
  exists dayEvents,
    In (toDateString (startDate Scenario.lunch), dayEvents)
       (getEventsGroupedByDate [Scenario.standup; Scenario.lunch]
          (Scenario.atTime Scenario.friday 9 30)
          (Scenario.atTime Scenario.friday 13 0)) /\
    In Scenario.lunch dayEvents.
Proof.
  assert (H : Forall endsAfterStart [Scenario.standup; Scenario.lunch]).
  { repeat (constructor; [vm_compute; discriminate|]). constructor. }
  assert (Hr : Scenario.atTime Scenario.friday 9 30
               <= Scenario.atTime Scenario.friday 13 0).
  { vm_compute. discriminate. }
  split; [exact H|].
  destruct (range_events_grouped_by_start_day [Scenario.standup; Scenario.lunch]
              (Scenario.atTime Scenario.friday 9 30)
              (Scenario.atTime Scenario.friday 13 0) Hr H) as [_ Hfound].
  assert (Hin : In Scenario.lunch [Scenario.standup; Scenario.lunch]).
  { right. left. reflexivity. }
  assert (Hstart : Scenario.atTime Scenario.friday 9 30 <= startDate Scenario.lunch
                   <= Scenario.atTime Scenario.friday 13 0).
  { split; vm_compute; discriminate. }
  exact (Hfound Scenario.lunch Hin Hstart).
Defined.

Lemma first_minute d :
  (getHours d =? 0) && (getMinutes d =? 0) = true <->
  d - startOfDay d < MS_PER_MINUTE.
Proof.
  unfold getHours, getMinutes, startOfDay, MS_PER_DAY, MS_PER_HOUR, MS_PER_MINUTE.
  pose proof (Z.mod_pos_bound d 86400000 ltac:(lia)) as Hr.
  pose proof (Z.mod_mod_divide d 86400000 3600000 ltac:(exists 24; reflexivity)) as E.
  rewrite <- E. set (r := d mod 86400000) in *.
  rewrite andb_true_iff, !Z.eqb_eq. split.
  - intros [Hh Hm].
    assert (Hlt : r < 3600000).
    { apply Z.div_small_iff in Hh as [Hh|Hh]; lia. }
    rewrite Z.mod_small in Hm by lia.
    apply Z.div_small_iff in Hm as [Hm|Hm]; lia.
  - intros Hlt. assert (Hsmall : r mod 3600000 = r) by (apply Z.mod_small; lia).
    rewrite Hsmall. split; apply Z.div_small; lia.
Qed.

Lemma last_minute d :
  (getHours d =? 23) && (getMinutes d =? 59) = true <->
  endOfDay d - d < MS_PER_MINUTE.
Proof.
  unfold getHours, getMinutes, endOfDay, startOfDay, MS_PER_DAY, MS_PER_HOUR,
    MS_PER_MINUTE.
  pose proof (Z.mod_pos_bound d 86400000 ltac:(lia)) as Hr.
  pose proof (Z.mod_mod_divide d 86400000 3600000 ltac:(exists 24; reflexivity)) as E.
  rewrite <- E. set (r := d mod 86400000) in *.
  pose proof (Z.div_mod r 3600000 ltac:(lia)) as E1.
  pose proof (Z.mod_pos_bound r 3600000 ltac:(lia)) as B1.
  pose proof (Z.div_mod (r mod 3600000) 60000 ltac:(lia)) as E2.
  pose proof (Z.mod_pos_bound (r mod 3600000) 60000 ltac:(lia)) as B2.
  rewrite andb_true_iff, !Z.eqb_eq.
  set (h := r / 3600000) in *. set (s := r mod 3600000) in *.
  set (m := s / 60000) in *. set (u := s mod 60000) in *.
  split; [intros [Hh Hm]; lia|].
  intros Hlt. assert (Hh : h = 23) by lia. split; [exact Hh|lia].
Qed.

(** [isAllDayEvent] holds exactly for an event that starts within the
    first minute of a day and ends within the last minute of a day, whether
    or not the two days are the same; so it holds for every event from the
    [startOfDay] of one date to the [endOfDay] of another. *)
Theorem isAllDayEvent_iff (event : CalendarEvent) :
  (isAllDayEvent event = true <->
   startDate event - startOfDay (startDate event) < MS_PER_MINUTE /\
   endOfDay (endDate event) - endDate event < MS_PER_MINUTE) /\
  (forall first last,
     startDate event = startOfDay first -> endDate event = endOfDay last ->
     isAllDayEvent event = true).
Proof.
  assert (Hiff : isAllDayEvent event = true <->
                 startDate event - startOfDay (startDate event) < MS_PER_MINUTE /\
                 endOfDay (endDate event) - endDate event < MS_PER_MINUTE).
  { unfold isAllDayEvent. rewrite <- andb_assoc, andb_true_iff.
    rewrite first_minute, last_minute. reflexivity. }
  split; [exact Hiff|].
  intros first last Hs He. apply Hiff. rewrite Hs, He. split.
  - rewrite startOfDay_idem. unfold MS_PER_MINUTE. lia.
  - assert (E : endOfDay (endOfDay last) = endOfDay last).
    { assert (Hday : startOfDay (endOfDay last) = startOfDay last).
      { apply startOfDay_within; [apply startOfDay_mod|].
        unfold endOfDay, MS_PER_DAY. lia. }
      unfold endOfDay at 1. rewrite Hday. reflexivity. }
    rewrite E. unfold MS_PER_MINUTE. lia.
Qed.

(** [moveFocus] never leaves the month grid: from a cell of the grid it
    moves to a cell of the grid, one step away in the direction asked or,
    at the edge, to the same cell; and without a focused cell it does
    nothing. *)
Theorem moveFocus_stays_on_grid direction cell :
  onGrid cell ->
  moveFocus direction None = None /\
  exists next,
    moveFocus direction (Some cell) = Some next /\ onGrid next /\
    Z.abs (row next - row cell) + Z.abs (col next - col cell) <= 1 /\
    (next = cell <->
     match direction with
     | Up => row cell = 0
     | Down => row cell = 5
     | Left => col cell = 0
     | Right => col cell = 6
     end).
Proof.
  intros [Hrow Hcol]. split; [reflexivity|].
  destruct cell as [r c]. cbn [row col] in *.
  destruct direction; cbn [moveFocus row col];
    eexists; (split; [reflexivity|]); unfold onGrid; cbn [row col];
    (split; [lia|]); (split; [lia|]);
    (split; [intros [= H]; lia|intros ->; f_equal; lia]).
Qed.

Lemma moveFocus_stays_on_grid_witness :
  onGrid {| row := 5; col := 3 |} /\
  exists next,
    moveFocus Down (Some {| row := 5; col := 3 |}) = Some next /\ onGrid next.
Proof.
  assert (H : onGrid {| row := 5; col := 3 |}).
  { unfold onGrid. simpl. lia. }
  split; [exact H|].
  destruct (moveFocus_stays_on_grid Down {| row := 5; col := 3 |} H)
    as (_ & next & Hmove & Hgrid & _).
  exists next. split; [exact Hmove|exact Hgrid].
Defined.
